(** * DIDS: did:key identifiers and verifiable credentials

    A shallow embedding of the credential engine of the DIDS server:
    [server/services/crypto.ts], [server/services/did.ts] and
    [server/services/vc.ts].

    The TypeScript code runs on three external collaborators that are not
    part of the repository: the elliptic-curve package (@noble/curves), the
    JavaScript runtime ([JSON.stringify], [Buffer], [TextEncoder]) and the
    multibase package ([base58btc]).  The byte codecs are written out below
    as executable functions; the curves and the JSON serializer are the
    fields of the class [Platform], so that every statement holds for
    whatever implementation the server is linked with. *)

From Stdlib Require Import List String Ascii Strings.Byte Bool NArith ZArith Lia.
From Stdlib Require QArith DecimalString.
Import ListNotations.

Set Warnings "-register-all".

Local Open Scope string_scope.
Local Open Scope list_scope.
Local Open Scope N_scope.

(** ** Bytes *)

(** A [Uint8Array] / [Buffer]. *)
Definition bytes := list byte.

(** The byte with the given value (values are taken modulo 256, as a store
    into a [Uint8Array] does). *)
Definition byte_of_N (n : N) : byte :=
  match Byte.of_N (n mod 256) with
  | Some b => b
  | None => x00
  end.

(** [s.charAt(i)] for an index inside the string, used on constant
    alphabets only. *)
Definition charAt (s : string) (i : N) : ascii :=
  match String.get (N.to_nat i) s with
  | Some c => c
  | None => "000"%char
  end.

(** [s.substring(n)]: the string without its first [n] code units. *)
Fixpoint substring_from (n : nat) (s : string) : string :=
  match n, s with
  | O, _ => s
  | S k, EmptyString => EmptyString
  | S k, String _ rest => substring_from k rest
  end.

(** [s.split(sep)] for a one-character separator. *)
Fixpoint String_split (sep : ascii) (s : string) : list string :=
  match s with
  | EmptyString => [EmptyString]
  | String c rest =>
      if Ascii.eqb c sep then EmptyString :: String_split sep rest
      else match String_split sep rest with
           | piece :: pieces => String c piece :: pieces
           | [] => [String c EmptyString]
           end
  end.

(** ** Buffer: the hex codec *)

Module Hex.

Definition digits : string := "0123456789abcdef".

(** One hex digit of [Buffer.toString('hex')]. *)
Definition digit (n : N) : ascii := charAt digits n.

(** The value of a hex digit, either case; [None] for any other
    character. *)
Definition digit_value (c : ascii) : option N :=
  let n := N_of_ascii c in
  if (48 <=? n) && (n <=? 57) then Some (n - 48)
  else if (97 <=? n) && (n <=? 102) then Some (n - 87)
  else if (65 <=? n) && (n <=? 70) then Some (n - 55)
  else None.

(** [Buffer.from(b).toString('hex')]. *)
Fixpoint encode (b : bytes) : string :=
  match b with
  | [] => EmptyString
  | x :: rest =>
      String (digit (Byte.to_N x / 16))
        (String (digit (Byte.to_N x mod 16)) (encode rest))
  end.

(** [Buffer.from(s, 'hex')]: pairs of hex digits are decoded from the
    left; decoding stops at the first pair that is not two hex digits,
    and a trailing single character is dropped. *)
Fixpoint decode (s : string) : bytes :=
  match s with
  | String hi (String lo rest) =>
      match digit_value hi, digit_value lo with
      | Some h, Some l => byte_of_N (16 * h + l) :: decode rest
      | _, _ => []
      end
  | _ => []
  end.

End Hex.

(** ** Buffer: the base64 codec *)

Module Base64.

Definition alphabet : string :=
  "ABCDEFGHIJKLMNOPQRSTUVWXYZabcdefghijklmnopqrstuvwxyz0123456789+/".

Definition char (sextet : N) : ascii := charAt alphabet sextet.

Definition pad : ascii := "="%char.

(** [Buffer.from(b).toString('base64')]: the standard alphabet with [=]
    padding. *)
Fixpoint encode (b : bytes) : string :=
  match b with
  | [] => EmptyString
  | [x] =>
      let x := Byte.to_N x in
      String (char (x / 4)) (String (char ((x mod 4) * 16))
        (String pad (String pad EmptyString)))
  | [x; y] =>
      let x := Byte.to_N x in
      let y := Byte.to_N y in
      String (char (x / 4)) (String (char ((x mod 4) * 16 + y / 16))
        (String (char ((y mod 16) * 4)) (String pad EmptyString)))
  | x :: y :: z :: rest =>
      let x := Byte.to_N x in
      let y := Byte.to_N y in
      let z := Byte.to_N z in
      String (char (x / 4)) (String (char ((x mod 4) * 16 + y / 16))
        (String (char ((y mod 16) * 4 + z / 64))
           (String (char (z mod 64)) (encode rest))))
  end.

(** The value of a base64 character.  Node's decoder accepts the
    standard and the URL-safe alphabet. *)
Definition unbase64 (c : ascii) : option N :=
  let n := N_of_ascii c in
  if (65 <=? n) && (n <=? 90) then Some (n - 65)
  else if (97 <=? n) && (n <=? 122) then Some (n - 71)
  else if (48 <=? n) && (n <=? 57) then Some (n + 4)
  else if (n =? 43) || (n =? 45) then Some 62
  else if (n =? 47) || (n =? 95) then Some 63
  else None.

(** The sextets the decoder reads: characters outside the alphabet are
    skipped and the first [=] ends the input. *)
Fixpoint sextets (s : string) : list N :=
  match s with
  | EmptyString => []
  | String c rest =>
      match unbase64 c with
      | Some v => v :: sextets rest
      | None => if Ascii.eqb c pad then [] else sextets rest
      end
  end.

(** Four sextets make three bytes; a final group of three makes two
    bytes, of two makes one byte, and a single left-over sextet is
    dropped. *)
Fixpoint pack (l : list N) : bytes :=
  match l with
  | a :: b :: c :: d :: rest =>
      byte_of_N (a * 4 + b / 16)
        :: byte_of_N ((b mod 16) * 16 + c / 4)
        :: byte_of_N ((c mod 4) * 64 + d) :: pack rest
  | [a; b; c] =>
      [byte_of_N (a * 4 + b / 16); byte_of_N ((b mod 16) * 16 + c / 4)]
  | [a; b] => [byte_of_N (a * 4 + b / 16)]
  | _ => []
  end.

(** [Buffer.from(s, 'base64')]. *)
Definition decode (s : string) : bytes := pack (sextets s).

End Base64.

(** ** TextEncoder *)

Module TextEncoder.

(** [new TextEncoder().encode(s)]: UTF-8.  A character of [string] is a
    code unit U+0000..U+00FF, which UTF-8 writes on one or two bytes. *)
Definition encode_char (c : ascii) : bytes :=
  let n := N_of_ascii c in
  if n <? 128 then [byte_of_N n]
  else [byte_of_N (192 + n / 64); byte_of_N (128 + n mod 64)].

Fixpoint encode (s : string) : bytes :=
  match s with
  | EmptyString => []
  | String c rest => encode_char c ++ encode rest
  end.

End TextEncoder.

(** ** multiformats: base58btc *)

(** The [base-x] routine behind [base58btc] of the multiformats package:
    a number written with digits in one radix is rewritten in another by
    repeated multiply-and-add on a digit array; every leading zero digit of
    the input becomes one leading zero digit of the output. *)
Module BaseX.

Section Radix.

Variables source_radix target_radix : N.

(** [while (carry !== 0)]: the carry left after the last digit is
    written out digit by digit. *)
Fixpoint flush (fuel : nat) (carry : N) : list N :=
  match fuel with
  | O => []
  | S k =>
      if carry =? 0 then []
      else carry mod target_radix :: flush k (carry / target_radix)
  end.

(** One pass of the inner loop: the little-endian number [acc] becomes
    [acc * source_radix + carry]. *)
Fixpoint muladd (acc : list N) (carry : N) : list N :=
  match acc with
  | [] => flush (N.to_nat carry) carry
  | d :: ds =>
      let c := carry + source_radix * d in
      c mod target_radix :: muladd ds (c / target_radix)
  end.

Fixpoint skip_zeros (l : list N) : list N :=
  match l with
  | 0 :: rest => skip_zeros rest
  | _ => l
  end.

Fixpoint count_zeros (l : list N) : nat :=
  match l with
  | 0 :: rest => S (count_zeros rest)
  | _ => O
  end.

(** Big-endian digits in, big-endian digits out. *)
Definition convert (src : list N) : list N :=
  let zeroes := count_zeros src in
  let digits := fold_left muladd (skip_zeros src) [] in
  repeat 0 zeroes ++ skip_zeros (rev digits).

End Radix.

End BaseX.

Module Base58btc.

Definition alphabet : string :=
  "123456789ABCDEFGHJKLMNPQRSTUVWXYZabcdefghijkmnopqrstuvwxyz".

(** The multibase prefix of base58btc. *)
Definition prefix : ascii := "z"%char.

Definition char (digit : N) : ascii := charAt alphabet digit.

Fixpoint index_from (i : N) (c : ascii) (s : string) : option N :=
  match s with
  | EmptyString => None
  | String x rest =>
      if Ascii.eqb x c then Some i else index_from (i + 1) c rest
  end.

(** [BASE_MAP]: the digit a character stands for. *)
Definition char_value (c : ascii) : option N := index_from 0 c alphabet.

Fixpoint chars (digits : list N) : string :=
  match digits with
  | [] => EmptyString
  | d :: rest => String (char d) (chars rest)
  end.

Fixpoint char_values (s : string) : option (list N) :=
  match s with
  | EmptyString => Some []
  | String c rest =>
      match char_value c, char_values rest with
      | Some d, Some ds => Some (d :: ds)
      | _, _ => None
      end
  end.

(** [base58btc.encode(b)]: the prefix [z] and the base-58 digits. *)
Definition encode (b : bytes) : string :=
  String prefix (chars (BaseX.convert 256 58 (map Byte.to_N b))).

(** [base58btc.decode(s)]; [None] where the package raises (no prefix
    [z], or a character outside the alphabet). *)
Definition decode (s : string) : option bytes :=
  match s with
  | String p rest =>
      if Ascii.eqb p prefix then
        match char_values rest with
        | Some digits => Some (map byte_of_N (BaseX.convert 58 256 digits))
        | None => None
        end
      else None
  | EmptyString => None
  end.

End Base58btc.

(** ** JavaScript values *)

(** The values a parsed JSON body is made of, and [undefined].  An object
    is the list of its own properties, with distinct keys, in the order
    they were added (JavaScript lists integer-like keys first; the order is
    seen by [JSON.stringify] alone, which is a field of [Platform]).  Every
    function below reads the first binding of a key. *)
Inductive value : Type :=
| VUndefined
| VNull
| VBool (b : bool)
| VNum (q : QArith_base.Q)
| VStr (s : string)
| VArr (items : list value)
| VObj (props : list (string * value)).

Definition object := list (string * value).

(** [!!v]. *)
Definition truthy (v : value) : bool :=
  match v with
  | VUndefined | VNull => false
  | VBool b => b
  | VNum q => negb (QArith_base.Qnum q =? 0)%Z
  | VStr s => negb (s =? "")%string
  | VArr _ | VObj _ => true
  end.

(** [a || b]. *)
Definition or_else (a b : value) : value := if truthy a then a else b.

(** [v === s] for a string literal [s]. *)
Definition strict_eq_string (v : value) (s : string) : bool :=
  match v with
  | VStr x => (x =? s)%string
  | _ => false
  end.

(** A template literal hole [${v}] for a string that may be [undefined]
    (an array index out of range). *)
Definition template (v : option string) : string :=
  match v with
  | Some s => s
  | None => "undefined"
  end.

Module Obj.

Fixpoint has (o : object) (k : string) : bool :=
  match o with
  | [] => false
  | (k', _) :: rest => (k' =? k)%string || has rest k
  end.

(** [o[k]] on an object: the property's value, or [undefined]. *)
Fixpoint get (o : object) (k : string) : value :=
  match o with
  | [] => VUndefined
  | (k', v) :: rest => if (k' =? k)%string then v else get rest k
  end.

(** [o[k] = v]: an existing property keeps its place, a new one goes
    last. *)
Fixpoint set (o : object) (k : string) (v : value) : object :=
  match o with
  | [] => [(k, v)]
  | (k', v') :: rest =>
      if (k' =? k)%string then (k', v) :: rest else (k', v') :: set rest k v
  end.

Definition keys (o : object) : list string := map fst o.

(** [{ ...target, ...src }]: every own property of [src], in order, is
    assigned to the object under construction. *)
Definition spread (target src : object) : object :=
  fold_left (fun acc k => set acc k (get src k)) (keys src) target.

(** [const { k, ...rest } = o]: the properties of [o] except [k]. *)
Fixpoint without (o : object) (k : string) : object :=
  match o with
  | [] => []
  | (k', v) :: rest =>
      if (k' =? k)%string then without rest k else (k', v) :: without rest k
  end.

End Obj.

(** ** Exceptions and calls into the curve package *)

Inductive outcome (A : Type) : Type :=
| Returns (a : A)
| Throws (message : string).

Arguments Returns {A} a.
Arguments Throws {A} message.

(** A call of a signing or verifying primitive of the curve package. *)
Inductive primitive_call : Type :=
| SignCall (scheme : string) (message privateKey : bytes)
| VerifyCall (scheme : string) (signature message publicKey : bytes).

(** A computation: how it ends, and the primitive calls it made. *)
Definition M (A : Type) : Type := (outcome A * list primitive_call)%type.

Definition outcome_of {A} (m : M A) : outcome A := fst m.

Definition ret {A} (a : A) : M A := (Returns a, []).

Definition lift {A} (o : outcome A) : M A := (o, []).

Definition primitive {A} (c : primitive_call) (o : outcome A) : M A := (o, [c]).

Definition bind {A B} (m : M A) (f : A -> M B) : M B :=
  match fst m with
  | Returns a => (fst (f a), snd m ++ snd (f a))
  | Throws e => (Throws e, snd m)
  end.

(** [try { body } catch (error) { handler(error.message) }]. *)
Definition try_catch {A} (body : M A) (handler : string -> M A) : M A :=
  match fst body with
  | Returns a => body
  | Throws e => (fst (handler e), snd body ++ snd (handler e))
  end.

Notation "x <- m ;; k" := (bind m (fun x => k))
  (at level 61, m at next level, right associativity).

(** [v[k]], which raises a TypeError on [undefined] and [null].  The
    property names the code reads ([proofValue], [type], [id]) are not
    defined on strings, numbers, booleans or arrays. *)
Definition property (v : value) (k : string) : outcome value :=
  match v with
  | VObj props => Returns (Obj.get props k)
  | VUndefined =>
      Throws ("Cannot read properties of undefined (reading '" ++ k ++ "')")%string
  | VNull =>
      Throws ("Cannot read properties of null (reading '" ++ k ++ "')")%string
  | _ => Returns VUndefined
  end.

(** [v?.[k]]. *)
Definition optional_property (v : value) (k : string) : outcome value :=
  match v with
  | VUndefined | VNull => Returns VUndefined
  | _ => property v k
  end.

(** [v.substring(start)], where [expr] is the source text of [v]: a
    TypeError unless [v] is a string. *)
Definition call_substring (expr : string) (v : value) (start : nat)
  : outcome string :=
  match v with
  | VStr s => Returns (substring_from start s)
  | VUndefined =>
      Throws "Cannot read properties of undefined (reading 'substring')"
  | VNull => Throws "Cannot read properties of null (reading 'substring')"
  | _ => Throws (expr ++ ".substring is not a function")%string
  end.

(** ** The curve package and the JSON serializer *)

Module Noble.

(** The order of the secp256k1 group. *)
Definition CURVE_n : N :=
  0xFFFFFFFFFFFFFFFFFFFFFFFFFFFFFFFEBAAEDCE6AF48A03BBFD25E8CD0364141.

Definition valid_scalar (x : N) : bool := (0 <? x) && (x <? CURVE_n).

(** A [Signature] object of the package: the constructor checks that
    both halves are scalars of the group. *)
Record Signature : Type := {
  r : N;
  s : N;
  r_valid : valid_scalar r = true;
  s_valid : valid_scalar s = true
}.

(** [numberToBytesBE(n, len)] for [n] below [256 ^ len]. *)
Fixpoint numberToBytesBE (n : N) (len : nat) : bytes :=
  match len with
  | O => []
  | S k => numberToBytesBE (n / 256) k ++ [byte_of_N n]
  end.

(** [sig.toCompactRawBytes()]: [r] then [s], 32 bytes each. *)
Definition toCompactRawBytes (sig : Signature) : bytes :=
  numberToBytesBE (r sig) 32 ++ numberToBytesBE (s sig) 32.

End Noble.

(** What the server is linked with.  Every operation of the curve package
    may raise. *)
Class Platform : Type := {
  JSON_stringify : value -> string;
  ed25519_getPublicKey : bytes -> outcome bytes;
  ed25519_sign : bytes -> bytes -> outcome bytes;
  ed25519_verify : bytes -> bytes -> bytes -> outcome bool;
  secp256k1_getPublicKey : bytes -> outcome bytes;
  secp256k1_sign : bytes -> bytes -> outcome Noble.Signature;
  secp256k1_verify : bytes -> bytes -> bytes -> outcome bool
}.

(** The package is a correct signature scheme: a signature it makes with
    a private key is accepted under the public key of that private key. *)
Definition signature_scheme_correct (P : Platform) : Prop :=
  (forall sk pk m sig,
      ed25519_getPublicKey sk = Returns pk ->
      ed25519_sign m sk = Returns sig ->
      ed25519_verify sig m pk = Returns true)
  /\
  (forall sk pk m sig,
      secp256k1_getPublicKey sk = Returns pk ->
      secp256k1_sign m sk = Returns sig ->
      secp256k1_verify (Noble.toCompactRawBytes sig) m pk = Returns true).

(** ** server/services/crypto.ts *)

Record KeyPair : Type := {
  publicKey : bytes;
  privateKey : bytes;
  publicKeyHex : string;
  privateKeyHex : string
}.

(** [randomPrivateKey] stands for the bytes drawn by
    [ed25519.utils.randomPrivateKey()]. *)
Definition generateEd25519KeyPair `{Platform} (randomPrivateKey : bytes)
  : outcome KeyPair :=
  match ed25519_getPublicKey randomPrivateKey with
  | Returns pk =>
      Returns {| publicKey := pk;
                 privateKey := randomPrivateKey;
                 publicKeyHex := Hex.encode pk;
                 privateKeyHex := Hex.encode randomPrivateKey |}
  | Throws e => Throws e
  end.

Definition generateSecp256k1KeyPair `{Platform} (randomPrivateKey : bytes)
  : outcome KeyPair :=
  match secp256k1_getPublicKey randomPrivateKey with
  | Returns pk =>
      Returns {| publicKey := pk;
                 privateKey := randomPrivateKey;
                 publicKeyHex := Hex.encode pk;
                 privateKeyHex := Hex.encode randomPrivateKey |}
  | Throws e => Throws e
  end.

Definition signEd25519 `{Platform} (message privateKey : bytes) : M bytes :=
  primitive (SignCall "ed25519" message privateKey)
    (ed25519_sign message privateKey).

Definition verifyEd25519 `{Platform} (signature message publicKey : bytes)
  : M bool :=
  primitive (VerifyCall "ed25519" signature message publicKey)
    (ed25519_verify signature message publicKey).

Definition signSecp256k1 `{Platform} (message privateKey : bytes) : M bytes :=
  sig <- primitive (SignCall "secp256k1" message privateKey)
           (secp256k1_sign message privateKey) ;;
  ret (Noble.toCompactRawBytes sig).

Definition verifySecp256k1 `{Platform} (signature message publicKey : bytes)
  : M bool :=
  try_catch
    (primitive (VerifyCall "secp256k1" signature message publicKey)
       (secp256k1_verify signature message publicKey))
    (fun _ => ret false).

(** ** server/services/did.ts *)

Record VerificationMethod : Type := {
  vm_id : string;
  vm_type : string;
  vm_controller : string;
  vm_publicKeyMultibase : string
}.

Record DIDDocument : Type := {
  doc_context : list string;
  doc_id : string;
  verificationMethod : list VerificationMethod;
  authentication : list string;
  assertionMethod : list string;
  capabilityInvocation : list string;
  capabilityDelegation : list string
}.

Record GeneratedDid : Type := {
  did : string;
  keyPair : KeyPair;
  didDocument : DIDDocument
}.

Definition multicodecPrefix (keyType : string) : bytes :=
  if (keyType =? "ed25519")%string then [xed; x01] else [xe7; x01].

(** Lines 38-43 of [generateDidKey]: the multibase form of a public key. *)
Definition publicKeyMultibase (keyType : string) (publicKey : bytes) : string :=
  let publicKeyBytes := multicodecPrefix keyType ++ publicKey in
  String "z" (substring_from 1 (Base58btc.encode publicKeyBytes)).

(** Line 44 of [generateDidKey]. *)
Definition didKey (keyType : string) (publicKey : bytes) : string :=
  ("did:key:" ++ publicKeyMultibase keyType publicKey)%string.

Definition verificationMethodType (keyType : string) : string :=
  if (keyType =? "ed25519")%string then "Ed25519VerificationKey2020"
  else "EcdsaSecp256k1VerificationKey2019".

Definition didDocumentFor (keyType did keyId : string) : DIDDocument :=
  let vmId := (did ++ "#" ++ keyId)%string in
  {| doc_context := ["https://www.w3.org/ns/did/v1"];
     doc_id := did;
     verificationMethod :=
       [ {| vm_id := vmId;
            vm_type := verificationMethodType keyType;
            vm_controller := did;
            vm_publicKeyMultibase := keyId |} ];
     authentication := [vmId];
     assertionMethod := [vmId];
     capabilityInvocation := [vmId];
     capabilityDelegation := [vmId] |}.

Definition generateDidKey `{Platform} (keyType : string)
  (randomPrivateKey : bytes) : outcome GeneratedDid :=
  match (if (keyType =? "ed25519")%string
         then generateEd25519KeyPair randomPrivateKey
         else generateSecp256k1KeyPair randomPrivateKey) with
  | Returns kp =>
      let mb := publicKeyMultibase keyType (publicKey kp) in
      let d := didKey keyType (publicKey kp) in
      Returns {| did := d; keyPair := kp;
                 didDocument := didDocumentFor keyType d mb |}
  | Throws e => Throws e
  end.

(** [did.split(':')[2]], as it appears inside a template literal. *)
Definition keyIdSegment (did : string) : string :=
  template (nth_error (String_split ":" did) 2).

(** ** server/services/vc.ts *)

Record VerificationResult : Type := {
  verified : bool;
  issuer : value;
  subject : value;
  issuanceDate : value;
  errors : option (list string)
}.

(** The credential before its proof is attached.  [now] stands for
    [new Date().toISOString()] and [uuid] for [uuidv4()]. *)
Definition unsignedCredential (now uuid issuerDid subjectDid
  credentialType : string) (claims : object) : object :=
  let credentialId := ("urn:uuid:" ++ uuid)%string in
  [ ("@context", VArr [VStr "https://www.w3.org/2018/credentials/v1"]);
    ("id", VStr credentialId);
    ("type", VArr [VStr "VerifiableCredential"; VStr credentialType]);
    ("issuer", VStr issuerDid);
    ("issuanceDate", VStr now);
    ("credentialSubject", VObj (Obj.spread [("id", VStr subjectDid)] claims)) ].

(** The proof block of lines 64-70. *)
Definition proofBlock (now issuerDid proofType : string) (signature : bytes)
  : object :=
  [ ("type", VStr proofType);
    ("created", VStr now);
    ("verificationMethod",
      VStr (issuerDid ++ "#" ++ keyIdSegment issuerDid)%string);
    ("proofPurpose", VStr "assertionMethod");
    ("proofValue", VStr (String "z" (Base64.encode signature))) ].

Definition issueVerifiableCredential `{Platform} (now uuid : string)
  (issuerDid subjectDid credentialType : string) (claims : object)
  (privateKey keyType : string) : M object :=
  let credential :=
    unsignedCredential now uuid issuerDid subjectDid credentialType claims in
  let message := TextEncoder.encode (JSON_stringify (VObj credential)) in
  let privateKeyBytes := Hex.decode privateKey in
  signed <-
    (if (keyType =? "ed25519")%string then
       signature <- signEd25519 message privateKeyBytes ;;
       ret (signature, "Ed25519Signature2020")
     else
       signature <- signSecp256k1 message privateKeyBytes ;;
       ret (signature, "EcdsaSecp256k1Signature2019")) ;;
  let proof := proofBlock now issuerDid (snd signed) (fst signed) in
  ret (Obj.set (Obj.spread [] credential) "proof" (VObj proof)).

(** Lines 90-138: the body of the [try] block. *)
Definition verifyBody `{Platform} (credential : object)
  (issuerPublicKey keyType : string) : M VerificationResult :=
  let errors : list string := [] in
  let errors :=
    if negb (truthy (Obj.get credential "@context"))
       || negb (truthy (Obj.get credential "type"))
       || negb (truthy (Obj.get credential "issuer"))
       || negb (truthy (Obj.get credential "credentialSubject"))
    then errors ++ ["Invalid credential structure"] else errors in
  missingProof <-
    (if negb (truthy (Obj.get credential "proof")) then ret true
     else
       proofValue <- lift (property (Obj.get credential "proof") "proofValue") ;;
       ret (negb (truthy proofValue))) ;;
  let errors :=
    if missingProof : bool then errors ++ ["Missing or invalid proof"]
    else errors in
  if (0 <? List.length errors)%nat then
    subjectId <-
      lift (optional_property (Obj.get credential "credentialSubject") "id") ;;
    ret {| verified := false;
           issuer := or_else (Obj.get credential "issuer") (VStr "");
           subject := or_else subjectId (VStr "");
           issuanceDate := or_else (Obj.get credential "issuanceDate") (VStr "");
           errors := Some errors |}
  else
    let proof := Obj.get credential "proof" in
    let credentialWithoutProof := Obj.without credential "proof" in
    let message :=
      TextEncoder.encode (JSON_stringify (VObj credentialWithoutProof)) in
    let publicKeyBytes := Hex.decode issuerPublicKey in
    proofValue <- lift (property proof "proofValue") ;;
    encoded <- lift (call_substring "proof.proofValue" proofValue 1) ;;
    let signatureBytes := Base64.decode encoded in
    proofType <- lift (property proof "type") ;;
    checked <-
      (if (keyType =? "ed25519")%string
          && strict_eq_string proofType "Ed25519Signature2020" then
         ok <- verifyEd25519 signatureBytes message publicKeyBytes ;;
         ret (ok, errors)
       else if (keyType =? "secp256k1")%string
               && strict_eq_string proofType "EcdsaSecp256k1Signature2019" then
         ok <- verifySecp256k1 signatureBytes message publicKeyBytes ;;
         ret (ok, errors)
       else
         ret (false, errors ++ ["Unsupported signature type or key mismatch"])) ;;
    let verified := fst checked in
    let errors := snd checked in
    let errors := if negb verified then errors ++ ["Invalid signature"] else errors in
    subjectId <- lift (property (Obj.get credential "credentialSubject") "id") ;;
    ret {| verified := verified && (List.length errors =? 0)%nat;
           issuer := Obj.get credential "issuer";
           subject := subjectId;
           issuanceDate := Obj.get credential "issuanceDate";
           errors := if (0 <? List.length errors)%nat then Some errors else None |}.

(** Lines 140-147: the [catch] block. *)
Definition verifyHandler (credential : object) (message : string)
  : M VerificationResult :=
  subjectId <-
    lift (optional_property (Obj.get credential "credentialSubject") "id") ;;
  ret {| verified := false;
         issuer := or_else (Obj.get credential "issuer") (VStr "");
         subject := or_else subjectId (VStr "");
         issuanceDate := or_else (Obj.get credential "issuanceDate") (VStr "");
         errors := Some [("Verification failed: " ++ message)%string] |}.

Definition verifyVerifiableCredential `{Platform} (credential : object)
  (issuerPublicKey keyType : string) : M VerificationResult :=
  try_catch (verifyBody credential issuerPublicKey keyType)
    (verifyHandler credential).

(** ** Decoding a did:key identifier *)

(** The inverse that the specification calls [decode].  The server never
    decodes an identifier; this definition follows the specification's
    words: take the multibase portion of the identifier (the segment the
    server itself reads with [did.split(':')[2]]), decode it with
    [base58btc], and drop the two bytes of the multicodec prefix. *)
Definition spec_decodeDidKey (did : string) : option bytes :=
  match nth_error (String_split ":" did) 2 with
  | Some multibase =>
      match Base58btc.decode multibase with
      | Some b => Some (skipn 2 b)
      | None => None
      end
  | None => None
  end.

(** ** Numbers behind digit lists *)

(** The number a little-endian digit list stands for. *)
Fixpoint le_value (radix : N) (l : list N) : N :=
  match l with
  | [] => 0
  | d :: ds => d + radix * le_value radix ds
  end.

(** The number a big-endian digit list stands for. *)
Definition be_value (radix : N) (l : list N) : N :=
  fold_left (fun acc d => acc * radix + d) l 0.

Definition digits_below (radix : N) (l : list N) : Prop :=
  Forall (fun d => d < radix) l.

(** No character of the string is [c]. *)
Fixpoint free_of (c : ascii) (s : string) : bool :=
  match s with
  | EmptyString => true
  | String x rest => negb (Ascii.eqb x c) && free_of c rest
  end.

(** ** What a verification reports *)

(** The test of line 93. *)
Definition structureInvalid (credential : object) : bool :=
  negb (truthy (Obj.get credential "@context"))
  || negb (truthy (Obj.get credential "type"))
  || negb (truthy (Obj.get credential "issuer"))
  || negb (truthy (Obj.get credential "credentialSubject")).

(** [credential.proof.proofValue] and [credential.proof.type], read where
    [credential.proof] is known to be truthy. *)
Definition proofValueOf (credential : object) : value :=
  match property (Obj.get credential "proof") "proofValue" with
  | Returns v => v
  | Throws _ => VUndefined
  end.

Definition proofTypeOf (credential : object) : value :=
  match property (Obj.get credential "proof") "type" with
  | Returns v => v
  | Throws _ => VUndefined
  end.

(** The test of line 97. *)
Definition proofMissing (credential : object) : bool :=
  negb (truthy (Obj.get credential "proof"))
  || negb (truthy (proofValueOf credential)).

(** [credential.credentialSubject?.id]. *)
Definition subjectIdOf (credential : object) : value :=
  match optional_property (Obj.get credential "credentialSubject") "id" with
  | Returns v => v
  | Throws _ => VUndefined
  end.

(** The errors collected by lines 93-99. *)
Definition structuralErrors (credential : object) : list string :=
  (if structureInvalid credential then ["Invalid credential structure"] else [])
  ++ (if proofMissing credential then ["Missing or invalid proof"] else []).

(** The result of lines 102-108 and 141-147: not verified, with the
    issuer, subject and issuance date read from the payload where they are
    there. *)
Definition rejected (credential : object) (errs : list string)
  : VerificationResult :=
  {| verified := false;
     issuer := or_else (Obj.get credential "issuer") (VStr "");
     subject := or_else (subjectIdOf credential) (VStr "");
     issuanceDate := or_else (Obj.get credential "issuanceDate") (VStr "");
     errors := Some errs |}.

(** The result of lines 132-138 after a signature check that answered
    [ok]. *)
Definition judged (credential : object) (ok : bool) : VerificationResult :=
  {| verified := ok;
     issuer := Obj.get credential "issuer";
     subject := subjectIdOf credential;
     issuanceDate := Obj.get credential "issuanceDate";
     errors := if ok then None else Some ["Invalid signature"] |}.

(** The result of lines 124-138 when key type and proof type disagree. *)
Definition mismatched (credential : object) : VerificationResult :=
  {| verified := false;
     issuer := Obj.get credential "issuer";
     subject := subjectIdOf credential;
     issuanceDate := Obj.get credential "issuanceDate";
     errors := Some ["Unsupported signature type or key mismatch";
                     "Invalid signature"] |}.

(** The bytes a verification checks the signature against, and the
    signature and key bytes it reads. *)
Definition verifiedMessage `{Platform} (credential : object) : bytes :=
  TextEncoder.encode (JSON_stringify (VObj (Obj.without credential "proof"))).

Definition signatureBytesOf (proofValue : string) : bytes :=
  Base64.decode (substring_from 1 proofValue).

(** Key type and declared proof type agree on a scheme. *)
Definition schemeMatches (keyType : string) (proofType : value) : bool :=
  ((keyType =? "ed25519")%string
   && strict_eq_string proofType "Ed25519Signature2020")
  || ((keyType =? "secp256k1")%string
      && strict_eq_string proofType "EcdsaSecp256k1Signature2019").

(** The proof type the specification derives from a key type. *)
Definition expectedProofType (keyType : string) : option string :=
  if (keyType =? "ed25519")%string then Some "Ed25519Signature2020"
  else if (keyType =? "secp256k1")%string then Some "EcdsaSecp256k1Signature2019"
  else None.

(** The credential [issueVerifiableCredential] returns once the message
    is signed. *)
Definition signedCredential (now uuid issuerDid subjectDid
  credentialType : string) (claims : object) (proofType : string)
  (signature : bytes) : object :=
  unsignedCredential now uuid issuerDid subjectDid credentialType claims
  ++ [ ("proof", VObj (proofBlock now issuerDid proofType signature)) ].

(** The bytes [issueVerifiableCredential] signs. *)
Definition issuedMessage `{Platform} (now uuid issuerDid subjectDid
  credentialType : string) (claims : object) : bytes :=
  TextEncoder.encode
    (JSON_stringify
       (VObj (unsignedCredential now uuid issuerDid subjectDid
                credentialType claims))).

(** ** A stand-in platform *)

(** A platform to run the server's functions on concrete inputs.  Its
    input checks follow the curve package (keys and signatures of the
    wrong length raise, an over-long message raises on secp256k1); the
    signatures themselves are a keyed checksum, not elliptic-curve
    arithmetic, and the serializer prints fractions as [n/d]. *)
Module Mock.

Definition number_of (b : bytes) : N :=
  fold_left (fun acc x => acc * 256 + Byte.to_N x) b 0.

Definition digest (m : bytes) : bytes :=
  Noble.numberToBytesBE (number_of m) 32.

Definition bytes_eqb (a b : bytes) : bool :=
  if list_eq_dec byte_eq_dec a b then true else false.

Definition scalar (b : bytes) : N := 1 + number_of b mod (Noble.CURVE_n - 1).

(** The constructor of [Signature], which rejects values outside the
    group. *)
Definition mkSignature (r s : N) : outcome Noble.Signature :=
  match bool_dec (Noble.valid_scalar r) true,
        bool_dec (Noble.valid_scalar s) true with
  | left Hr, left Hs =>
      Returns {| Noble.r := r; Noble.s := s;
                 Noble.r_valid := Hr; Noble.s_valid := Hs |}
  | _, _ => Throws "invalid signature"
  end.

Definition ed_getPublicKey (sk : bytes) : outcome bytes :=
  if (List.length sk =? 32)%nat then Returns (rev sk)
  else Throws "private key of length 32 expected".

Definition ed_sign (m sk : bytes) : outcome bytes :=
  if (List.length sk =? 32)%nat then Returns (rev sk ++ digest m)
  else Throws "private key of length 32 expected".

Definition ed_verify (sig m pk : bytes) : outcome bool :=
  if negb (List.length sig =? 64)%nat then
    Throws "signature expected 64 bytes"
  else if negb (List.length pk =? 32)%nat then
    Throws "publicKey expected 32 bytes"
  else Returns (bytes_eqb sig (pk ++ digest m)).

Definition ec_getPublicKey (sk : bytes) : outcome bytes :=
  if (List.length sk =? 32)%nat then Returns (x02 :: rev sk)
  else Throws "private key of length 32 expected".

Definition ec_sign (m sk : bytes) : outcome Noble.Signature :=
  if negb (List.length sk =? 32)%nat then
    Throws "private key of length 32 expected"
  else if 8192 <? N.of_nat (List.length m) then Throws "input is too large"
  else mkSignature (scalar (rev sk)) (scalar m).

Definition ec_verify (sig m pk : bytes) : outcome bool :=
  if 8192 <? N.of_nat (List.length m) then Throws "input is too large"
  else
    match pk with
    | x02 :: k =>
        Returns
          (bytes_eqb sig
             (Noble.numberToBytesBE (scalar k) 32
                ++ Noble.numberToBytesBE (scalar m) 32))
    | _ => Returns false
    end.

Definition quote_char : ascii := ascii_of_N 34.
Definition backslash : ascii := ascii_of_N 92.

Fixpoint escape (s : string) : string :=
  match s with
  | EmptyString => EmptyString
  | String c rest =>
      if Ascii.eqb c quote_char || Ascii.eqb c backslash
      then String backslash (String c (escape rest))
      else String c (escape rest)
  end.

Definition quote (s : string) : string :=
  String quote_char (escape s ++ String quote_char EmptyString)%string.

Definition number (q : QArith_base.Q) : string :=
  let n := DecimalString.NilZero.string_of_int (Z.to_int (QArith_base.Qnum q)) in
  match QArith_base.Qden q with
  | xH => n
  | d => (n ++ "/" ++ DecimalString.NilZero.string_of_uint (Pos.to_uint d))%string
  end.

Definition join (pieces : list string) : string :=
  match pieces with
  | [] => EmptyString
  | p :: rest => fold_left (fun acc x => (acc ++ "," ++ x)%string) rest p
  end.

Definition defined (v : value) : bool :=
  match v with
  | VUndefined => false
  | _ => true
  end.

Fixpoint stringify (v : value) : string :=
  match v with
  | VUndefined | VNull => "null"
  | VBool true => "true"
  | VBool false => "false"
  | VNum q => number q
  | VStr s => quote s
  | VArr items => ("[" ++ join (map stringify items) ++ "]")%string
  | VObj props =>
      let fix members (ps : list (string * value)) : list string :=
        match ps with
        | [] => []
        | (k, x) :: rest =>
            if defined x
            then (quote k ++ ":" ++ stringify x)%string :: members rest
            else members rest
        end in
      ("{" ++ join (members props) ++ "}")%string
  end.

Definition platform : Platform := {|
  JSON_stringify := stringify;
  ed25519_getPublicKey := ed_getPublicKey;
  ed25519_sign := ed_sign;
  ed25519_verify := ed_verify;
  secp256k1_getPublicKey := ec_getPublicKey;
  secp256k1_sign := ec_sign;
  secp256k1_verify := ec_verify
|}.

(** Thirty-two bytes standing for a freshly drawn private key. *)
Definition seed : bytes :=
  map byte_of_N
    [ 1; 2; 3; 4; 5; 6; 7; 8; 9; 10; 11; 12; 13; 14; 15; 16;
      17; 18; 19; 20; 21; 22; 23; 24; 25; 26; 27; 28; 29; 30; 31; 32 ].

Definition claims : object := [ ("name", VStr "Ada") ].

Definition subjectDid : string := "did:key:z6MkhZ".

Definition now : string := "2025-06-19T00:00:00.000Z".

Definition uuid : string := "3b241101-e2bb-4255-8caf-4136c566a962".

(** The identity [generateDidKey] makes from [seed] for Ed25519. *)
Definition registeredKeys : KeyPair :=
  {| publicKey := rev seed;
     privateKey := seed;
     publicKeyHex := Hex.encode (rev seed);
     privateKeyHex := Hex.encode seed |}.

Definition registeredDid : string := didKey "ed25519" (rev seed).

Definition registered : GeneratedDid :=
  {| did := registeredDid;
     keyPair := registeredKeys;
     didDocument :=
       didDocumentFor "ed25519" registeredDid
         (publicKeyMultibase "ed25519" (rev seed)) |}.

(** The credential issued to [subjectDid] under that identity. *)
Definition credential : object :=
  signedCredential now uuid registeredDid subjectDid "IdentityCredential"
    claims "Ed25519Signature2020"
    (rev seed
       ++ digest (TextEncoder.encode
                    (stringify
                       (VObj (unsignedCredential now uuid registeredDid
                                subjectDid "IdentityCredential" claims))))).


(** A signature of three bytes. *)
Definition shortSignature : bytes := [x00; x01; x02].

End Mock.

(** * The rest of the server *)

(** ** server/services/did.ts: resolveDid *)

(** The document [resolveDid] builds.  Its key id is [did.split(':')[2]],
    which is [undefined] for an identifier of fewer than three segments:
    inside a template literal that prints as [undefined], and as the value
    of [publicKeyMultibase] it stays [undefined]. *)
Record ResolvedVerificationMethod : Type := {
  rvm_id : string;
  rvm_type : string;
  rvm_controller : string;
  rvm_publicKeyMultibase : option string
}.

Record ResolvedDocument : Type := {
  res_context : list string;
  res_id : string;
  res_verificationMethod : list ResolvedVerificationMethod;
  res_authentication : list string;
  res_assertionMethod : list string;
  res_capabilityInvocation : list string;
  res_capabilityDelegation : list string
}.

Definition resolveDid (did publicKey keyType : string) : ResolvedDocument :=
  let verificationMethodType :=
    if (keyType =? "ed25519")%string then "Ed25519VerificationKey2020"
    else "EcdsaSecp256k1VerificationKey2019" in
  let keyId := nth_error (String_split ":" did) 2 in
  let vmId := (did ++ "#" ++ template keyId)%string in
  {| res_context := ["https://www.w3.org/ns/did/v1"];
     res_id := did;
     res_verificationMethod :=
       [ {| rvm_id := vmId;
            rvm_type := verificationMethodType;
            rvm_controller := did;
            rvm_publicKeyMultibase := keyId |} ];
     res_authentication := [vmId];
     res_assertionMethod := [vmId];
     res_capabilityInvocation := [vmId];
     res_capabilityDelegation := [vmId] |}.

(** A document of [generateDidKey], read as a document of [resolveDid]. *)
Definition as_resolved (d : DIDDocument) : ResolvedDocument :=
  {| res_context := doc_context d;
     res_id := doc_id d;
     res_verificationMethod :=
       map (fun vm => {| rvm_id := vm_id vm;
                         rvm_type := vm_type vm;
                         rvm_controller := vm_controller vm;
                         rvm_publicKeyMultibase := Some (vm_publicKeyMultibase vm) |})
         (verificationMethod d);
     res_authentication := authentication d;
     res_assertionMethod := assertionMethod d;
     res_capabilityInvocation := capabilityInvocation d;
     res_capabilityDelegation := capabilityDelegation d |}.

(** ** Fixed-width digits *)

(** The [len] least significant digits of [x], most significant first. *)
Fixpoint fixed_digits (radix : N) (len : nat) (x : N) : list N :=
  match len with
  | O => []
  | S k => fixed_digits radix k (x / radix) ++ [x mod radix]
  end.

(** [s.startsWith(p)]. *)
Fixpoint startsWith (p s : string) : bool :=
  match p, s with
  | EmptyString, _ => true
  | String a p', String b s' => Ascii.eqb a b && startsWith p' s'
  | String _ _, EmptyString => false
  end.

(** ** server/storage.ts *)

(** A JavaScript [Map]: entries in insertion order; [set] on a key that is
    there replaces the value where it stands.  [same] is the equality of
    keys. *)
Module JsMap.

Section Map.

Context {K V : Type}.
Variable same : K -> K -> bool.

Fixpoint get (m : list (K * V)) (k : K) : option V :=
  match m with
  | [] => None
  | (k', v) :: rest => if same k' k then Some v else get rest k
  end.

Fixpoint set (m : list (K * V)) (k : K) (v : V) : list (K * V) :=
  match m with
  | [] => [(k, v)]
  | (k', v') :: rest =>
      if same k' k then (k', v) :: rest else (k', v') :: set rest k v
  end.

Definition values (m : list (K * V)) : list V := map snd m.

Definition size (m : list (K * V)) : N := N.of_nat (List.length m).

End Map.

End JsMap.

(** How a [Map] compares keys (SameValueZero).  An array or an object is
    the same as itself only, and two values of the embedding never stand
    for one and the same array or object. *)
Definition same_value_zero (a b : value) : bool :=
  match a, b with
  | VUndefined, VUndefined => true
  | VNull, VNull => true
  | VBool x, VBool y => Bool.eqb x y
  | VNum x, VNum y => QArith_base.Qeq_bool x y
  | VStr x, VStr y => (x =? y)%string
  | _, _ => false
  end.

(** [n++] on a counter: numbers are doubles, and above [2 ^ 53] adding one
    gives the number back. *)
Definition increment (n : N) : N := if n <? 2 ^ 53 then n + 1 else n.

(** A row of [dids] and the data [createDid] is given.  [createdAt] is a
    [Date], kept as its ISO text. *)
Record Did : Type := {
  did_id : N;
  did_did : string;
  did_method : string;
  did_keyType : string;
  did_publicKey : string;
  did_privateKey : string;
  did_didDocument : DIDDocument;
  did_createdAt : string
}.

Record InsertDid : Type := {
  ins_did : string;
  ins_method : string;
  ins_keyType : string;
  ins_publicKey : string;
  ins_privateKey : string;
  ins_didDocument : DIDDocument
}.

(** A row of [verifiable_credentials] and the data [createVc] is given.
    [vcId], [issuer] and [subject] are what the route reads in the issued
    credential; [issuanceDate] is the value its [Date] is built from. *)
Record Vc : Type := {
  vc_id : N;
  vc_vcId : value;
  vc_issuer : value;
  vc_subject : value;
  vc_credentialType : string;
  vc_claims : object;
  vc_credential : object;
  vc_issuanceDate : value;
  vc_createdAt : string
}.

Record InsertVc : Type := {
  insvc_vcId : value;
  insvc_issuer : value;
  insvc_subject : value;
  insvc_credentialType : string;
  insvc_claims : object;
  insvc_credential : object;
  insvc_issuanceDate : value
}.

Record Stats : Type := {
  totalDids : N;
  vcsIssued : N;
  stats_verified : N;
  activeKeys : N
}.

Record MemStorage : Type := {
  dids : list (string * Did);
  vcs : list (value * Vc);
  currentDidId : N;
  currentVcId : N
}.

(** [new MemStorage()]. *)
Definition MemStorage_new : MemStorage :=
  {| dids := []; vcs := []; currentDidId := 1; currentVcId := 1 |}.

Definition getAllDids (s : MemStorage) : list Did := JsMap.values (dids s).

(** [getDid(did)]: the first row, in insertion order, whose [did] is the
    argument. *)
Definition getDid (s : MemStorage) (did : value) : option Did :=
  find (fun d => strict_eq_string did (did_did d)) (getAllDids s).

(** [createDid(didData)]; [now] stands for [new Date()]. *)
Definition createDid (s : MemStorage) (didData : InsertDid) (now : string)
  : Did * MemStorage :=
  let id := currentDidId s in
  let newDid :=
    {| did_id := id;
       did_did := ins_did didData;
       did_method := ins_method didData;
       did_keyType := ins_keyType didData;
       did_publicKey := ins_publicKey didData;
       did_privateKey := ins_privateKey didData;
       did_didDocument := ins_didDocument didData;
       did_createdAt := now |} in
  (newDid,
   {| dids := JsMap.set String.eqb (dids s) (did_did newDid) newDid;
      vcs := vcs s;
      currentDidId := increment (currentDidId s);
      currentVcId := currentVcId s |}).

Definition getVc (s : MemStorage) (vcId : value) : option Vc :=
  JsMap.get same_value_zero (vcs s) vcId.

Definition createVc (s : MemStorage) (vcData : InsertVc) (now : string)
  : Vc * MemStorage :=
  let id := currentVcId s in
  let newVc :=
    {| vc_id := id;
       vc_vcId := insvc_vcId vcData;
       vc_issuer := insvc_issuer vcData;
       vc_subject := insvc_subject vcData;
       vc_credentialType := insvc_credentialType vcData;
       vc_claims := insvc_claims vcData;
       vc_credential := insvc_credential vcData;
       vc_issuanceDate := insvc_issuanceDate vcData;
       vc_createdAt := now |} in
  (newVc,
   {| dids := dids s;
      vcs := JsMap.set same_value_zero (vcs s) (vc_vcId newVc) newVc;
      currentDidId := currentDidId s;
      currentVcId := increment (currentVcId s) |}).

Definition getAllVcs (s : MemStorage) : list Vc := JsMap.values (vcs s).

Definition getStats (s : MemStorage) : Stats :=
  {| totalDids := JsMap.size (dids s);
     vcsIssued := JsMap.size (vcs s);
     stats_verified := JsMap.size (vcs s);
     activeKeys := JsMap.size (dids s) |}.

(** The stores a [MemStorage] goes through: its fields are private, so it
    changes through [createDid] and [createVc] alone. *)
Inductive reachable : MemStorage -> Prop :=
| reachable_new : reachable MemStorage_new
| reachable_createDid (s : MemStorage) (didData : InsertDid) (now : string) :
    reachable s -> reachable (snd (createDid s didData now))
| reachable_createVc (s : MemStorage) (vcData : InsertVc) (now : string) :
    reachable s -> reachable (snd (createVc s vcData now)).

(** ** What the store keeps *)

(** Every row stands under its own [did], and no key is there twice. *)
Definition filed (m : list (string * Did)) : Prop :=
  Forall (fun kr => did_did (snd kr) = fst kr) m /\ NoDup (map fst m).

(** What the counters keep: they stay at or below [2 ^ 53], and below
    it the rows have different numbers, all below the counter. *)
Definition numbered (s : MemStorage) : Prop :=
  currentDidId s <= 2 ^ 53 /\ currentVcId s <= 2 ^ 53
  /\ (currentDidId s < 2 ^ 53 ->
      Forall (fun r => did_id r < currentDidId s) (getAllDids s)
      /\ NoDup (map did_id (getAllDids s)))
  /\ (currentVcId s < 2 ^ 53 ->
      Forall (fun r => vc_id r < currentVcId s) (getAllVcs s)
      /\ NoDup (map vc_id (getAllVcs s))).

(** ** shared/schema.ts: request schemas *)

(** The result of [schema.safeParse(body)]: the parsed data, or the issues
    zod reports. *)
Inductive SafeParse (A : Type) : Type :=
| ParseSuccess (data : A)
| ParseFailure (issues : value).

Arguments ParseSuccess {A} data.
Arguments ParseFailure {A} issues.

Record RegisterDidRequest : Type := {
  reg_keyType : string;
  reg_method : string
}.

Record IssueVcRequest : Type := {
  iss_subjectDid : string;
  iss_credentialType : string;
  iss_claims : object
}.

Record VerifyVcRequest : Type := {
  ver_credential : object
}.

(** The three schemas, as the parsers zod makes of them. *)
Class Schemas : Type := {
  registerDidSchema : value -> SafeParse RegisterDidRequest;
  issueVcSchema : value -> SafeParse IssueVcRequest;
  verifyVcSchema : value -> SafeParse VerifyVcRequest
}.

(** What the declaration of [registerDidSchema] makes zod guarantee of
    parsed data: [keyType] is one of [z.enum(["ed25519", "secp256k1"])] and
    [method] one of [z.enum(["did:key", "did:web"])]. *)
Definition enums_respected (Z : Schemas) : Prop :=
  forall body data,
    registerDidSchema body = ParseSuccess data ->
    (reg_keyType data = "ed25519" \/ reg_keyType data = "secp256k1")
    /\ (reg_method data = "did:key" \/ reg_method data = "did:web").

(** ** server/routes.ts *)

(** What a handler answers: the data of a [res.json(...)], or an error
    with its status.  A server error is logged with [console.error]
    before it is answered. *)
Inductive Response : Type :=
| Registered (did publicKey : string) (didDocument : DIDDocument)
    (keyType : string)
| Resolved (didDocument : DIDDocument) (keyType publicKey : string)
| Issued (credential : object) (vcId : value)
| Verification (result : VerificationResult)
| Statistics (stats : Stats)
| ClientError (status : N) (message : string) (errors : option value)
| ServerError (message error : string).

Definition status_of (r : Response) : N :=
  match r with
  | ClientError status _ _ => status
  | ServerError _ _ => 500
  | _ => 200
  end.

(** [POST /api/register]; [randomPrivateKey] and [now] stand for the
    random bytes and the clock read while the request is served. *)
Definition post_register `{Platform} `{Schemas} (body : value)
  (randomPrivateKey : bytes) (now : string) (s : MemStorage)
  : Response * MemStorage :=
  match registerDidSchema body with
  | ParseFailure issues =>
      (ClientError 400 "Invalid request" (Some issues), s)
  | ParseSuccess data =>
      let keyType := reg_keyType data in
      let method := reg_method data in
      if negb (method =? "did:key")%string then
        (ClientError 400 "Only did:key method is currently supported" None, s)
      else
        match generateDidKey keyType randomPrivateKey with
        | Throws e => (ServerError "Failed to register DID" e, s)
        | Returns generated =>
            let didData :=
              {| ins_did := did generated;
                 ins_method := method;
                 ins_keyType := keyType;
                 ins_publicKey := publicKeyHex (keyPair generated);
                 ins_privateKey := privateKeyHex (keyPair generated);
                 ins_didDocument := didDocument generated |} in
            let saved := createDid s didData now in
            (Registered (did_did (fst saved)) (did_publicKey (fst saved))
               (did_didDocument (fst saved)) (did_keyType (fst saved)),
             snd saved)
        end
  end.

(** [GET /api/resolve/:did]. *)
Definition get_resolve (did : string) (s : MemStorage)
  : Response * MemStorage :=
  if (did =? "")%string || negb (startsWith "did:" did) then
    (ClientError 400 "Invalid DID format" None, s)
  else
    match getDid s (VStr did) with
    | None => (ClientError 404 "DID not found" None, s)
    | Some savedDid =>
        (Resolved (did_didDocument savedDid) (did_keyType savedDid)
           (did_publicKey savedDid), s)
    end.

(** [POST /api/issue-vc]; [now] and [uuid] are read by
    [issueVerifiableCredential], [createdAt] by [createVc]. *)
Definition post_issue_vc `{Platform} `{Schemas} (body : value)
  (now uuid createdAt : string) (s : MemStorage) : Response * MemStorage :=
  match issueVcSchema body with
  | ParseFailure issues =>
      (ClientError 400 "Invalid request" (Some issues), s)
  | ParseSuccess data =>
      match getAllDids s with
      | [] =>
          (ClientError 400
             "No issuer DID available. Please register a DID first." None, s)
      | issuerDid :: _ =>
          match
            outcome_of
              (credential <-
                 issueVerifiableCredential now uuid (did_did issuerDid)
                   (iss_subjectDid data) (iss_credentialType data)
                   (iss_claims data) (did_privateKey issuerDid)
                   (did_keyType issuerDid) ;;
               subjectId <-
                 lift (property (Obj.get credential "credentialSubject") "id") ;;
               ret (credential, subjectId))
          with
          | Throws e =>
              (ServerError "Failed to issue verifiable credential" e, s)
          | Returns (credential, subjectId) =>
              let vcData :=
                {| insvc_vcId := Obj.get credential "id";
                   insvc_issuer := Obj.get credential "issuer";
                   insvc_subject := subjectId;
                   insvc_credentialType := iss_credentialType data;
                   insvc_claims := iss_claims data;
                   insvc_credential := credential;
                   insvc_issuanceDate := Obj.get credential "issuanceDate" |} in
              let saved := createVc s vcData createdAt in
              (Issued credential (vc_vcId (fst saved)), snd saved)
          end
      end
  end.

(** [POST /api/verify-vc]. *)
Definition post_verify_vc `{Platform} `{Schemas} (body : value)
  (s : MemStorage) : Response * MemStorage :=
  match verifyVcSchema body with
  | ParseFailure issues =>
      (ClientError 400 "Invalid request" (Some issues), s)
  | ParseSuccess data =>
      let credential := ver_credential data in
      if negb (truthy (Obj.get credential "issuer")) then
        (ClientError 400 "Credential missing issuer" None, s)
      else
        match getDid s (Obj.get credential "issuer") with
        | None => (ClientError 404 "Issuer DID not found" None, s)
        | Some issuerDidData =>
            match
              outcome_of
                (verifyVerifiableCredential credential
                   (did_publicKey issuerDidData) (did_keyType issuerDidData))
            with
            | Returns verificationResult =>
                (Verification verificationResult, s)
            | Throws e => (ServerError "Failed to verify credential" e, s)
            end
        end
  end.

(** [GET /api/stats]. *)
Definition get_stats (s : MemStorage) : Response * MemStorage :=
  (Statistics (getStats s), s).

(** A request, with what the server reads from its environment while it
    serves it. *)
Inductive Request : Type :=
| PostRegister (body : value) (randomPrivateKey : bytes) (now : string)
| GetResolve (did : string)
| PostIssueVc (body : value) (now uuid createdAt : string)
| PostVerifyVc (body : value)
| GetStats.

Definition serve `{Platform} `{Schemas} (r : Request) (s : MemStorage)
  : Response * MemStorage :=
  match r with
  | PostRegister body randomPrivateKey now =>
      post_register body randomPrivateKey now s
  | GetResolve did => get_resolve did s
  | PostIssueVc body now uuid createdAt =>
      post_issue_vc body now uuid createdAt s
  | PostVerifyVc body => post_verify_vc body s
  | GetStats => get_stats s
  end.

(** The store after a list of requests, served one after the other. *)
Fixpoint serve_all `{Platform} `{Schemas} (rs : list Request) (s : MemStorage)
  : MemStorage :=
  match rs with
  | [] => s
  | r :: rest => serve_all rest (snd (serve r s))
  end.

(** A row as [POST /api/register] stores it: the method is [did:key], the
    key type is one of the two, and the identifier, the two keys and the
    document are those of one run of [generateDidKey] for that key type. *)
Definition registered_row `{Platform} (row : Did) : Prop :=
  did_method row = "did:key"
  /\ (did_keyType row = "ed25519" \/ did_keyType row = "secp256k1")
  /\ exists seed generated,
       generateDidKey (did_keyType row) seed = Returns generated
       /\ did_did row = did generated
       /\ did_publicKey row = publicKeyHex (keyPair generated)
       /\ did_privateKey row = privateKeyHex (keyPair generated)
       /\ did_didDocument row = didDocument generated.

(** ** More sample inputs *)

Module Sample.

(** [Mock.credential] with another proof block: the same type and the same
    signature text behind another first character, other metadata. *)
Definition relabelled : object :=
  Obj.set Mock.credential "proof"
    (VObj [ ("type", VStr "Ed25519Signature2020");
            ("verificationMethod", VStr "did:example:someone-else#key-9");
            ("proofPurpose", VStr "authentication");
            ("proofValue",
              match proofValueOf Mock.credential with
              | VStr pv => VStr (String "m" (substring_from 1 pv))
              | other => other
              end) ]).

(** The identity [generateDidKey] makes from [Mock.seed] for secp256k1. *)
Definition secpKeys : KeyPair :=
  {| publicKey := x02 :: rev Mock.seed;
     privateKey := Mock.seed;
     publicKeyHex := Hex.encode (x02 :: rev Mock.seed);
     privateKeyHex := Hex.encode Mock.seed |}.

Definition secpRegistered : GeneratedDid :=
  {| did := didKey "secp256k1" (x02 :: rev Mock.seed);
     keyPair := secpKeys;
     didDocument :=
       didDocumentFor "secp256k1" (didKey "secp256k1" (x02 :: rev Mock.seed))
         (publicKeyMultibase "secp256k1" (x02 :: rev Mock.seed)) |}.

(** The row the register route stores for [Mock.registered], and the store
    that holds it alone. *)
Definition row : InsertDid :=
  {| ins_did := did Mock.registered;
     ins_method := "did:key";
     ins_keyType := "ed25519";
     ins_publicKey := publicKeyHex (keyPair Mock.registered);
     ins_privateKey := privateKeyHex (keyPair Mock.registered);
     ins_didDocument := didDocument Mock.registered |}.

Definition store : MemStorage := snd (createDid MemStorage_new row Mock.now).

Definition secpRow : InsertDid :=
  {| ins_did := did secpRegistered;
     ins_method := "did:key";
     ins_keyType := "secp256k1";
     ins_publicKey := publicKeyHex (keyPair secpRegistered);
     ins_privateKey := privateKeyHex (keyPair secpRegistered);
     ins_didDocument := didDocument secpRegistered |}.

Definition vcRow : InsertVc :=
  {| insvc_vcId := Obj.get Mock.credential "id";
     insvc_issuer := Obj.get Mock.credential "issuer";
     insvc_subject := VStr Mock.subjectDid;
     insvc_credentialType := "IdentityCredential";
     insvc_claims := Mock.claims;
     insvc_credential := Mock.credential;
     insvc_issuanceDate := Obj.get Mock.credential "issuanceDate" |}.

(** Stand-in parsers for the three schemas.  They accept what the
    declarations accept, with the defaults of [registerDidSchema]; the
    issues of a failure are left empty. *)
Definition parse_enum (options : list string) (default : string) (v : value)
  : option string :=
  match v with
  | VUndefined => Some default
  | VStr x => if existsb (String.eqb x) options then Some x else None
  | _ => None
  end.

Definition parseRegister (body : value) : SafeParse RegisterDidRequest :=
  match body with
  | VObj o =>
      match parse_enum ["ed25519"; "secp256k1"] "ed25519" (Obj.get o "keyType"),
            parse_enum ["did:key"; "did:web"] "did:key" (Obj.get o "method") with
      | Some keyType, Some method =>
          ParseSuccess {| reg_keyType := keyType; reg_method := method |}
      | _, _ => ParseFailure (VArr [])
      end
  | _ => ParseFailure (VArr [])
  end.

Definition parseIssue (body : value) : SafeParse IssueVcRequest :=
  match body with
  | VObj o =>
      match Obj.get o "subjectDid", Obj.get o "credentialType",
            Obj.get o "claims" with
      | VStr subjectDid, VStr credentialType, VObj claims =>
          if (subjectDid =? "")%string || (credentialType =? "")%string
          then ParseFailure (VArr [])
          else ParseSuccess {| iss_subjectDid := subjectDid;
                               iss_credentialType := credentialType;
                               iss_claims := claims |}
      | _, _, _ => ParseFailure (VArr [])
      end
  | _ => ParseFailure (VArr [])
  end.

Definition parseVerify (body : value) : SafeParse VerifyVcRequest :=
  match body with
  | VObj o =>
      match Obj.get o "credential" with
      | VObj credential => ParseSuccess {| ver_credential := credential |}
      | _ => ParseFailure (VArr [])
      end
  | _ => ParseFailure (VArr [])
  end.

Definition schemas : Schemas :=
  {| registerDidSchema := parseRegister;
     issueVcSchema := parseIssue;
     verifyVcSchema := parseVerify |}.

(** A session: register with the default key type, issue, and, later,
    register a secp256k1 identity. *)
Definition registerBody : value := VObj [].

Definition issueBody : value :=
  VObj [ ("subjectDid", VStr Mock.subjectDid);
         ("credentialType", VStr "IdentityCredential");
         ("claims", VObj Mock.claims) ].

Definition postedBack : value := VObj [ ("credential", VObj Mock.credential) ].

Definition requests : list Request :=
  [ PostRegister registerBody Mock.seed Mock.now ].

Definition laterRequests : list Request :=
  [ PostRegister (VObj [ ("keyType", VStr "secp256k1") ]) Mock.seed "later";
    PostRegister registerBody Mock.seed "again";
    GetStats ].

End Sample.

(** * Properties *)

(** ** Bytes *)

Lemma byte_of_to_N (b : byte) : byte_of_N (Byte.to_N b) = b.
Proof. destruct b; reflexivity. Qed.

Lemma to_N_below (b : byte) : Byte.to_N b < 256.
Proof. pose proof (Byte.to_N_bounded b); lia. Qed.

Lemma map_byte_of_to_N (b : bytes) : map byte_of_N (map Byte.to_N b) = b.
Proof.
  induction b as [|x b IH]; simpl; [reflexivity|].
  now rewrite byte_of_to_N, IH.
Qed.

Lemma to_N_digits_below (b : bytes) : digits_below 256 (map Byte.to_N b).
Proof.
  induction b as [|x b IH]; constructor; [apply to_N_below | exact IH].
Qed.

(** Bounded case analysis on a number, by running a boolean test on every
    value below the bound. *)
Lemma forall_below (bound : nat) (p : N -> bool) :
  forallb p (map N.of_nat (seq 0 bound)) = true ->
  forall n, n < N.of_nat bound -> p n = true.
Proof.
  intros Hall n Hn.
  rewrite forallb_forall in Hall.
  apply Hall.
  apply in_map_iff. exists (N.to_nat n). split; [apply N2Nat.id|].
  apply in_seq. lia.
Qed.

(** ** The hex codec *)

Example hex_vectors :
  Hex.encode [xde; xad; xbe; xef] = "deadbeef"
  /\ Hex.decode "DEADbeef" = [xde; xad; xbe; xef]
  /\ Hex.decode "12zz34" = [x12]
  /\ Hex.decode "abc" = [xab].
Proof. repeat split; reflexivity. Qed.

Lemma hex_digit_pair (x : byte) :
  Hex.digit_value (Hex.digit (Byte.to_N x / 16)) = Some (Byte.to_N x / 16)
  /\ Hex.digit_value (Hex.digit (Byte.to_N x mod 16)) = Some (Byte.to_N x mod 16)
  /\ byte_of_N (16 * (Byte.to_N x / 16) + Byte.to_N x mod 16) = x.
Proof. destruct x; repeat split; reflexivity. Qed.

Lemma hex_decode_encode (b : bytes) : Hex.decode (Hex.encode b) = b.
Proof.
  induction b as [|x b IH]; [reflexivity|].
  destruct (hex_digit_pair x) as (Hhi & Hlo & Hx).
  cbn [Hex.encode Hex.decode].
  now rewrite Hhi, Hlo, Hx, IH.
Qed.

(** ** The base64 codec *)

Lemma unbase64_char (n : N) : n < 64 -> Base64.unbase64 (Base64.char n) = Some n.
Proof.
  intros Hn.
  pose (p := fun k => match Base64.unbase64 (Base64.char k) with
                      | Some v => v =? k
                      | None => false
                      end).
  assert (Hp : p n = true) by (apply (forall_below 64); [reflexivity | exact Hn]).
  unfold p in Hp.
  destruct (Base64.unbase64 (Base64.char n)) as [v|]; [|discriminate].
  apply N.eqb_eq in Hp. now subst.
Qed.

Lemma unbase64_pad : Base64.unbase64 Base64.pad = None.
Proof. reflexivity. Qed.

Lemma list_ind3 {A} (P : list A -> Prop) :
  P [] -> (forall x, P [x]) -> (forall x y, P [x; y]) ->
  (forall x y z l, P l -> P (x :: y :: z :: l)) ->
  forall l, P l.
Proof.
  intros H0 H1 H2 H3 l.
  enough (P l /\ (forall x, P (x :: l)) /\ (forall x y, P (x :: y :: l)))
    by tauto.
  induction l as [|a l (IHa & IHb & IHc)]; [now auto|].
  repeat split; auto.
Qed.

Ltac euclid := zify; Z.to_euclidean_division_equations; lia.

Lemma base64_decode_encode (b : bytes) : Base64.decode (Base64.encode b) = b.
Proof.
  unfold Base64.decode.
  induction b as [|x|x y|x y z l IH] using list_ind3.
  - reflexivity.
  - pose proof (to_N_below x) as Hx.
    cbn [Base64.encode Base64.sextets].
    rewrite !unbase64_char, unbase64_pad by euclid.
    cbn [Ascii.eqb Base64.pad Bool.eqb Base64.pack andb].
    replace (_ + _) with (Byte.to_N x) by euclid.
    now rewrite byte_of_to_N.
  - pose proof (to_N_below x) as Hx. pose proof (to_N_below y) as Hy.
    cbn [Base64.encode Base64.sextets].
    rewrite !unbase64_char, unbase64_pad by euclid.
    cbn [Ascii.eqb Base64.pad Bool.eqb Base64.pack andb].
    replace (Byte.to_N x / 4 * 4 + _) with (Byte.to_N x) by euclid.
    replace (_ + _) with (Byte.to_N y) by euclid.
    now rewrite !byte_of_to_N.
  - pose proof (to_N_below x) as Hx. pose proof (to_N_below y) as Hy.
    pose proof (to_N_below z) as Hz.
    cbn [Base64.encode Base64.sextets].
    rewrite !unbase64_char by euclid.
    cbn [Base64.pack].
    rewrite IH.
    replace (Byte.to_N x / 4 * 4 + _) with (Byte.to_N x) by euclid.
    replace (_ mod 16 * 16 + _) with (Byte.to_N y) by euclid.
    replace (_ + _) with (Byte.to_N z) by euclid.
    now rewrite !byte_of_to_N.
Qed.

(** ** Radix conversion *)

Section RadixFacts.

Variables a b : N.
Hypothesis a_radix : 2 <= a.
Hypothesis b_radix : 2 <= b.

Lemma flush_value (fuel : nat) (c : N) :
  c <= N.of_nat fuel -> le_value b (BaseX.flush b fuel c) = c.
Proof.
  revert c. induction fuel as [|k IH]; intros c Hc; cbn [BaseX.flush].
  - cbn. lia.
  - destruct (N.eqb_spec c 0) as [->|Hnz]; [reflexivity|].
    cbn [le_value]. rewrite IH.
    + pose proof (N.div_mod c b). lia.
    + assert (c / b < c) by (apply N.div_lt; lia). lia.
Qed.

Lemma flush_below (fuel : nat) (c : N) :
  digits_below b (BaseX.flush b fuel c).
Proof.
  revert c. induction fuel as [|k IH]; intros c; cbn [BaseX.flush].
  - constructor.
  - destruct (c =? 0); constructor; [|apply IH].
    apply N.mod_lt. lia.
Qed.

Lemma muladd_value (acc : list N) (c : N) :
  le_value b (BaseX.muladd a b acc c) = le_value b acc * a + c.
Proof.
  revert c. induction acc as [|d ds IH]; intros c; cbn [BaseX.muladd le_value].
  - rewrite flush_value; lia.
  - rewrite IH.
    pose proof (N.div_mod (c + a * d) b). nia.
Qed.

Lemma muladd_below (acc : list N) (c : N) :
  digits_below b (BaseX.muladd a b acc c).
Proof.
  revert c. induction acc as [|d ds IH]; intros c; cbn [BaseX.muladd].
  - apply flush_below.
  - constructor; [apply N.mod_lt; lia | apply IH].
Qed.

Lemma fold_muladd_value (src acc : list N) :
  le_value b (fold_left (BaseX.muladd a b) src acc)
  = fold_left (fun x d => x * a + d) src (le_value b acc).
Proof.
  revert acc. induction src as [|d src IH]; intros acc; cbn [fold_left].
  - reflexivity.
  - now rewrite IH, muladd_value.
Qed.

Lemma fold_muladd_below (src acc : list N) :
  digits_below b acc -> digits_below b (fold_left (BaseX.muladd a b) src acc).
Proof.
  revert acc. induction src as [|d src IH]; intros acc Hacc; cbn [fold_left].
  - exact Hacc.
  - apply IH, muladd_below.
Qed.

End RadixFacts.

Lemma skip_zeros_head (l : list N) : hd 1 (BaseX.skip_zeros l) <> 0.
Proof.
  induction l as [|d l IH]; cbn; [lia|].
  destruct d; [exact IH | cbn; lia].
Qed.

Lemma zeros_split (l : list N) :
  l = repeat 0 (BaseX.count_zeros l) ++ BaseX.skip_zeros l.
Proof.
  induction l as [|d l IH]; [reflexivity|].
  destruct d; [|reflexivity].
  cbn [BaseX.count_zeros BaseX.skip_zeros repeat app]. now rewrite <- IH.
Qed.

Lemma count_zeros_prefix (n : nat) (l : list N) :
  hd 1 l <> 0 -> BaseX.count_zeros (repeat 0 n ++ l) = n.
Proof.
  intros Hl. induction n as [|n IH]; cbn.
  - destruct l as [|[|p] l]; cbn in *; congruence.
  - now rewrite IH.
Qed.

Lemma skip_zeros_prefix (n : nat) (l : list N) :
  hd 1 l <> 0 -> BaseX.skip_zeros (repeat 0 n ++ l) = l.
Proof.
  intros Hl. induction n as [|n IH]; cbn.
  - destruct l as [|[|p] l]; cbn in *; congruence.
  - exact IH.
Qed.

Lemma last_rev_hd (l : list N) : last (rev l) 1 = hd 1 l.
Proof.
  destruct l as [|d l]; [reflexivity|].
  cbn [rev hd]. apply last_last.
Qed.

Section DigitFacts.

Variable radix : N.
Hypothesis radix_ok : 2 <= radix.

Lemma be_value_app (l : list N) (d : N) :
  be_value radix (l ++ [d]) = be_value radix l * radix + d.
Proof. unfold be_value. now rewrite fold_left_app. Qed.

Lemma le_value_rev (l : list N) : le_value radix (rev l) = be_value radix l.
Proof.
  induction l as [|d l IH] using rev_ind; [reflexivity|].
  rewrite rev_app_distr, be_value_app. cbn. rewrite IH. lia.
Qed.

Lemma be_value_rev (l : list N) : be_value radix (rev l) = le_value radix l.
Proof. now rewrite <- le_value_rev, rev_involutive. Qed.

Lemma be_value_zero_cons (l : list N) :
  be_value radix (0 :: l) = be_value radix l.
Proof. reflexivity. Qed.

Lemma be_value_skip_zeros (l : list N) :
  be_value radix (BaseX.skip_zeros l) = be_value radix l.
Proof.
  induction l as [|d l IH]; [reflexivity|].
  destruct d; [|reflexivity].
  cbn [BaseX.skip_zeros]. now rewrite IH, be_value_zero_cons.
Qed.

Lemma skip_zeros_below (l : list N) :
  digits_below radix l -> digits_below radix (BaseX.skip_zeros l).
Proof.
  induction 1 as [|d l Hd Hl IH]; [constructor|].
  destruct d; cbn [BaseX.skip_zeros]; [exact IH | now constructor].
Qed.

Lemma digits_below_rev (l : list N) :
  digits_below radix l -> digits_below radix (rev l).
Proof. apply Forall_rev. Qed.

(** A digit list without a most significant zero that stands for zero
    is empty. *)
Lemma le_value_zero (l : list N) :
  last l 1 <> 0 -> le_value radix l = 0 -> l = [].
Proof.
  induction l as [|d l IH]; [reflexivity|].
  intros Hlast Hval. cbn [le_value] in Hval.
  assert (d = 0 /\ le_value radix l = 0) as [-> Hl] by nia.
  destruct l as [|e l]; [cbn in Hlast; congruence|].
  assert (e :: l = []) by (apply IH; [exact Hlast | exact Hl]).
  discriminate.
Qed.

(** Two digit lists without a most significant zero that stand for the
    same number are the same list. *)
Lemma le_value_inj (l1 l2 : list N) :
  digits_below radix l1 -> digits_below radix l2 ->
  last l1 1 <> 0 -> last l2 1 <> 0 ->
  le_value radix l1 = le_value radix l2 -> l1 = l2.
Proof.
  revert l2. induction l1 as [|d1 l1 IH]; intros l2 H1 H2 L1 L2 Hv.
  - symmetry. apply le_value_zero; [exact L2 | now rewrite <- Hv].
  - destruct l2 as [|d2 l2].
    + apply le_value_zero; [exact L1 | exact Hv].
    + cbn [le_value] in Hv.
      inversion H1 as [|? ? Hd1 Hl1]; subst.
      inversion H2 as [|? ? Hd2 Hl2]; subst.
      assert (d1 = d2 /\ le_value radix l1 = le_value radix l2) as [-> Hl].
      { assert (Hm : (d1 + radix * le_value radix l1) mod radix
                     = (d2 + radix * le_value radix l2) mod radix)
          by now rewrite Hv.
        rewrite !(N.mul_comm radix), !N.Div0.mod_add, !N.mod_small in Hm
          by assumption.
        split; [exact Hm | nia]. }
      f_equal. apply IH; try assumption.
      * destruct l1; [cbn; lia | exact L1].
      * destruct l2; [cbn; lia | exact L2].
Qed.

Lemma be_value_inj (l1 l2 : list N) :
  digits_below radix l1 -> digits_below radix l2 ->
  hd 1 l1 <> 0 -> hd 1 l2 <> 0 ->
  be_value radix l1 = be_value radix l2 -> l1 = l2.
Proof.
  intros H1 H2 L1 L2 Hv.
  rewrite <- (rev_involutive l1), <- (rev_involutive l2). f_equal.
  apply le_value_inj.
  - now apply digits_below_rev.
  - now apply digits_below_rev.
  - now rewrite last_rev_hd.
  - now rewrite last_rev_hd.
  - now rewrite !le_value_rev.
Qed.

End DigitFacts.

Section ConvertFacts.

Variables a b : N.
Hypothesis a_radix : 2 <= a.
Hypothesis b_radix : 2 <= b.

Lemma repeat_zero_below (radix : N) (n : nat) :
  2 <= radix -> digits_below radix (repeat 0 n).
Proof.
  intros Hr. induction n as [|n IH]; constructor; [lia | exact IH].
Qed.

(** The digits after the leading zeros: the source number, rewritten. *)
Lemma convert_body_value (src : list N) :
  be_value b (BaseX.skip_zeros (rev (fold_left (BaseX.muladd a b) src [])))
  = be_value a src.
Proof.
  now rewrite be_value_skip_zeros, be_value_rev, fold_muladd_value.
Qed.

Lemma convert_body_below (src : list N) :
  digits_below b
    (BaseX.skip_zeros (rev (fold_left (BaseX.muladd a b) src []))).
Proof.
  apply skip_zeros_below, digits_below_rev, fold_muladd_below;
    solve [assumption | constructor].
Qed.

Lemma convert_below (src : list N) : digits_below b (BaseX.convert a b src).
Proof.
  unfold BaseX.convert. apply Forall_app. split.
  - now apply repeat_zero_below.
  - apply convert_body_below.
Qed.

End ConvertFacts.

(** Converting to another radix and back gives the digits one started
    from, leading zeros included. *)
Lemma convert_round_trip (a b : N) (src : list N) :
  2 <= a -> 2 <= b -> digits_below a src ->
  BaseX.convert b a (BaseX.convert a b src) = src.
Proof.
  intros Ha Hb Hsrc.
  set (body := BaseX.skip_zeros
                 (rev (fold_left (BaseX.muladd a b) (BaseX.skip_zeros src) []))).
  assert (Hfwd : BaseX.convert a b src
                 = repeat 0 (BaseX.count_zeros src) ++ body) by reflexivity.
  assert (Hhead : hd 1 body <> 0) by apply skip_zeros_head.
  rewrite Hfwd. unfold BaseX.convert.
  rewrite count_zeros_prefix, skip_zeros_prefix by exact Hhead.
  transitivity (repeat 0 (BaseX.count_zeros src) ++ BaseX.skip_zeros src);
    [|symmetry; apply zeros_split].
  f_equal.
  apply be_value_inj with (radix := a).
  - exact Ha.
  - now apply convert_body_below.
  - now apply skip_zeros_below.
  - apply skip_zeros_head.
  - apply skip_zeros_head.
  - rewrite (convert_body_value b a) by assumption. unfold body.
    now rewrite (convert_body_value a b) by assumption.
Qed.

(** ** base58btc *)

Example base58btc_vectors :
  Base58btc.encode (list_byte_of_string "Hello World!") = "z2NEpo7TZRRrLZSi2U"
  /\ Base58btc.encode [x00; x00; x28; x7f; xb4; xcd] = "z11233QC4"
  /\ Base58btc.encode [] = "z"
  /\ Base58btc.decode "z11233QC4" = Some [x00; x00; x28; x7f; xb4; xcd]
  /\ Base58btc.decode "z0" = None.
Proof. repeat split; reflexivity. Qed.

Lemma base58_char_value (d : N) :
  d < 58 -> Base58btc.char_value (Base58btc.char d) = Some d.
Proof.
  intros Hd.
  pose (p := fun k => match Base58btc.char_value (Base58btc.char k) with
                      | Some v => v =? k
                      | None => false
                      end).
  assert (Hp : p d = true) by (apply (forall_below 58); [reflexivity | exact Hd]).
  unfold p in Hp.
  destruct (Base58btc.char_value (Base58btc.char d)) as [v|]; [|discriminate].
  apply N.eqb_eq in Hp. now subst.
Qed.

Lemma base58_char_not_colon (d : N) :
  d < 58 -> Ascii.eqb (Base58btc.char d) ":" = false.
Proof.
  intros Hd.
  apply negb_true_iff.
  apply (forall_below 58 (fun k => negb (Ascii.eqb (Base58btc.char k) ":")));
    [reflexivity | exact Hd].
Qed.

Lemma base58_char_values_chars (ds : list N) :
  digits_below 58 ds -> Base58btc.char_values (Base58btc.chars ds) = Some ds.
Proof.
  induction 1 as [|d ds Hd Hds IH]; [reflexivity|].
  cbn [Base58btc.chars Base58btc.char_values].
  now rewrite base58_char_value, IH.
Qed.

Lemma base58_chars_free_of_colon (ds : list N) :
  digits_below 58 ds -> free_of ":" (Base58btc.chars ds) = true.
Proof.
  induction 1 as [|d ds Hd Hds IH]; [reflexivity|].
  cbn [Base58btc.chars free_of].
  now rewrite base58_char_not_colon, IH.
Qed.

Lemma base58btc_decode_encode (bs : bytes) :
  Base58btc.decode (Base58btc.encode bs) = Some bs.
Proof.
  unfold Base58btc.encode, Base58btc.decode.
  rewrite Ascii.eqb_refl.
  rewrite base58_char_values_chars by (apply convert_below; lia).
  rewrite convert_round_trip by (try lia; apply to_N_digits_below).
  now rewrite map_byte_of_to_N.
Qed.

Lemma base58btc_encode_free_of_colon (bs : bytes) :
  free_of ":" (Base58btc.encode bs) = true.
Proof.
  unfold Base58btc.encode. cbn [free_of].
  rewrite base58_chars_free_of_colon by (apply convert_below; lia).
  reflexivity.
Qed.

(** ** Strings *)

Lemma split_free_of (sep : ascii) (s : string) :
  free_of sep s = true -> String_split sep s = [s].
Proof.
  induction s as [|c s IH]; [reflexivity|].
  cbn [free_of String_split]. intros H.
  apply andb_true_iff in H as [Hc Hs].
  apply negb_true_iff in Hc. rewrite Hc, IH by exact Hs. reflexivity.
Qed.

Lemma split_did_key (multibase : string) :
  free_of ":" multibase = true ->
  String_split ":" ("did:key:" ++ multibase)%string = ["did"; "key"; multibase].
Proof.
  intros H.
  cbn [String.append String_split Ascii.eqb Bool.eqb].
  now rewrite split_free_of by exact H.
Qed.

(** ** did:key identifiers *)

Lemma publicKeyMultibase_is_encode (keyType : string) (pk : bytes) :
  publicKeyMultibase keyType pk
  = Base58btc.encode (multicodecPrefix keyType ++ pk).
Proof. reflexivity. Qed.

Lemma multicodecPrefix_length (keyType : string) :
  List.length (multicodecPrefix keyType) = 2%nat.
Proof. unfold multicodecPrefix. now destruct (keyType =? "ed25519")%string. Qed.

Lemma decode_didKey (keyType : string) (pk : bytes) :
  spec_decodeDidKey (didKey keyType pk) = Some pk.
Proof.
  unfold spec_decodeDidKey, didKey.
  rewrite publicKeyMultibase_is_encode.
  rewrite split_did_key by apply base58btc_encode_free_of_colon.
  cbn [nth_error].
  rewrite base58btc_decode_encode.
  unfold multicodecPrefix.
  now destruct (keyType =? "ed25519")%string.
Qed.

(** ** Objects *)

Lemma get_set_same (o : object) (k : string) (v : value) :
  Obj.get (Obj.set o k v) k = v.
Proof.
  induction o as [|[k' v'] o IH]; cbn [Obj.set Obj.get].
  - now rewrite String.eqb_refl.
  - destruct (String.eqb_spec k' k) as [->|Hne]; cbn [Obj.get].
    + now rewrite String.eqb_refl.
    + apply String.eqb_neq in Hne. now rewrite Hne.
Qed.

Lemma get_set_other (o : object) (k k' : string) (v : value) :
  k <> k' -> Obj.get (Obj.set o k v) k' = Obj.get o k'.
Proof.
  intros Hne.
  induction o as [|[k0 v0] o IH]; cbn [Obj.set Obj.get].
  - apply String.eqb_neq in Hne. now rewrite Hne.
  - destruct (String.eqb_spec k0 k) as [->|Hk]; cbn [Obj.get].
    + apply String.eqb_neq in Hne. now rewrite Hne.
    + now rewrite IH.
Qed.

Lemma get_assign_keys (src : object) (ks : list string) (target : object)
  (k : string) :
  Obj.get (fold_left (fun acc x => Obj.set acc x (Obj.get src x)) ks target) k
  = if existsb (fun x => (x =? k)%string) ks then Obj.get src k
    else Obj.get target k.
Proof.
  revert target. induction ks as [|k0 ks IH]; intros target; cbn [fold_left existsb].
  - reflexivity.
  - rewrite IH.
    destruct (String.eqb_spec k0 k) as [->|Hne]; cbn [orb].
    + rewrite get_set_same. now destruct (existsb _ ks).
    + now rewrite get_set_other by exact Hne.
Qed.

Lemma has_keys (o : object) (k : string) :
  Obj.has o k = existsb (fun x => (x =? k)%string) (Obj.keys o).
Proof.
  induction o as [|[k' v] o IH]; [reflexivity|].
  cbn [Obj.has Obj.keys map existsb fst]. now rewrite IH.
Qed.

(** A property copied by a spread comes from the source when the source
    has it, and from the target otherwise. *)
Lemma get_spread (target src : object) (k : string) :
  Obj.get (Obj.spread target src) k
  = if Obj.has src k then Obj.get src k else Obj.get target k.
Proof. unfold Obj.spread. now rewrite get_assign_keys, has_keys. Qed.

Lemma without_app_absent (o : object) (k : string) (v : value) :
  Obj.has o k = false -> Obj.without (o ++ [(k, v)]) k = o.
Proof.
  induction o as [|[k' v'] o IH]; cbn [Obj.has Obj.without app].
  - now rewrite String.eqb_refl.
  - intros H. apply orb_false_iff in H as [Hk Ho].
    now rewrite Hk, IH.
Qed.

Lemma get_app_absent (o : object) (k : string) (v : value) :
  Obj.has o k = false -> Obj.get (o ++ [(k, v)]) k = v.
Proof.
  induction o as [|[k' v'] o IH]; cbn [Obj.has Obj.get app].
  - now rewrite String.eqb_refl.
  - intros H. apply orb_false_iff in H as [Hk Ho].
    now rewrite Hk, IH.
Qed.

(** ** Reading properties *)

Lemma property_of_truthy (v : value) (k : string) :
  truthy v = true -> exists x, property v k = Returns x.
Proof. destruct v; cbn; intros H; try discriminate; eauto. Qed.

Lemma optional_property_returns (v : value) (k : string) :
  exists x, optional_property v k = Returns x.
Proof. destruct v; cbn; eauto. Qed.

Lemma optional_property_subject (credential : object) :
  optional_property (Obj.get credential "credentialSubject") "id"
  = Returns (subjectIdOf credential).
Proof.
  unfold subjectIdOf.
  destruct (optional_property_returns
              (Obj.get credential "credentialSubject") "id") as [x Hx].
  now rewrite Hx.
Qed.

Lemma property_subject (credential : object) :
  truthy (Obj.get credential "credentialSubject") = true ->
  property (Obj.get credential "credentialSubject") "id"
  = Returns (subjectIdOf credential).
Proof.
  intros H. rewrite <- optional_property_subject.
  destruct (Obj.get credential "credentialSubject"); cbn in *;
    try discriminate; reflexivity.
Qed.

Lemma property_proofValue (credential : object) :
  truthy (Obj.get credential "proof") = true ->
  property (Obj.get credential "proof") "proofValue"
  = Returns (proofValueOf credential).
Proof.
  intros H. unfold proofValueOf.
  destruct (property_of_truthy _ "proofValue" H) as [x Hx]. now rewrite Hx.
Qed.

Lemma property_proofType (credential : object) :
  truthy (Obj.get credential "proof") = true ->
  property (Obj.get credential "proof") "type"
  = Returns (proofTypeOf credential).
Proof.
  intros H. unfold proofTypeOf.
  destruct (property_of_truthy _ "type" H) as [x Hx]. now rewrite Hx.
Qed.

(** ** The cases of a verification *)

Arguments Base64.decode : simpl never.
Arguments Base64.encode : simpl never.
Arguments Hex.decode : simpl never.
Arguments Hex.encode : simpl never.
Arguments TextEncoder.encode : simpl never.

(** Run the monad: expose outcomes and call lists. *)
Ltac run :=
  unfold bind, lift, ret, primitive, try_catch;
  cbn [fst snd app negb andb orb List.length Nat.ltb Nat.leb Nat.eqb].

Section Verification.

Context {P : Platform}.

Lemma verify_rejects_early (credential : object) (pk kt : string) :
structureInvalid credential || proofMissing credential = true ->
verifyVerifiableCredential credential pk kt
= (Returns (rejected credential (structuralErrors credential)), []).
Proof.
intros H.
unfold verifyVerifiableCredential, verifyBody.
fold (structureInvalid credential).
unfold structuralErrors, proofMissing, rejected in *.
destruct (truthy (Obj.get credential "proof")) eqn:Hproof; cbn [negb orb] in *.
- rewrite (property_proofValue _ Hproof), optional_property_subject.
  run.
  destruct (structureInvalid credential), (truthy (proofValueOf credential));
    try discriminate; run; reflexivity.
- rewrite optional_property_subject.
  destruct (structureInvalid credential); run; reflexivity.
Qed.

Lemma verify_not_a_string (credential : object) (pk kt : string) (e : string) :
structureInvalid credential = false ->
proofMissing credential = false ->
call_substring "proof.proofValue" (proofValueOf credential) 1 = Throws e ->
verifyVerifiableCredential credential pk kt
= (Returns (rejected credential [("Verification failed: " ++ e)%string]), []).
Proof.
intros Hs Hm He.
unfold verifyVerifiableCredential, verifyBody, verifyHandler.
fold (structureInvalid credential).
unfold proofMissing, rejected in *.
apply orb_false_iff in Hm as [Hproof Hv].
apply negb_false_iff in Hproof, Hv.
rewrite Hs, Hproof, (property_proofValue _ Hproof), optional_property_subject.
run. rewrite Hv, He. run. reflexivity.
Qed.

Lemma structure_has_subject (credential : object) :
structureInvalid credential = false ->
truthy (Obj.get credential "credentialSubject") = true.
Proof.
unfold structureInvalid. intros H.
repeat (apply orb_false_iff in H as [H ?]).
now apply negb_false_iff.
Qed.

Lemma verify_mismatch (credential : object) (pk kt : string) (pv : string) :
structureInvalid credential = false ->
proofMissing credential = false ->
proofValueOf credential = VStr pv ->
schemeMatches kt (proofTypeOf credential) = false ->
verifyVerifiableCredential credential pk kt
= (Returns (mismatched credential), []).
Proof.
intros Hs Hm Hpv Hk.
unfold verifyVerifiableCredential, verifyBody, verifyHandler.
fold (structureInvalid credential).
unfold proofMissing, mismatched, schemeMatches in *.
apply orb_false_iff in Hm as [Hproof Hv].
apply negb_false_iff in Hproof, Hv.
apply orb_false_iff in Hk as [Hed Hec].
rewrite Hs, Hproof, (property_proofValue _ Hproof), (property_proofType _ Hproof).
rewrite (property_subject _ (structure_has_subject _ Hs)).
run. rewrite Hv, Hpv. cbn [call_substring]. run.
rewrite Hed, Hec. run. reflexivity.
Qed.

Lemma verify_ed25519 (credential : object) (pk kt : string) (pv : string) :
structureInvalid credential = false ->
proofMissing credential = false ->
proofValueOf credential = VStr pv ->
kt = "ed25519" ->
strict_eq_string (proofTypeOf credential) "Ed25519Signature2020" = true ->
verifyVerifiableCredential credential pk kt
= (match ed25519_verify (signatureBytesOf pv) (verifiedMessage credential)
           (Hex.decode pk) with
   | Returns ok => Returns (judged credential ok)
   | Throws e => Returns (rejected credential [("Verification failed: " ++ e)%string])
   end,
   [VerifyCall "ed25519" (signatureBytesOf pv) (verifiedMessage credential)
      (Hex.decode pk)]).
Proof.
intros Hs Hm Hpv -> Hty.
unfold verifyVerifiableCredential, verifyBody, verifyHandler, verifyEd25519.
fold (structureInvalid credential).
unfold proofMissing, judged, rejected, signatureBytesOf, verifiedMessage in *.
apply orb_false_iff in Hm as [Hproof Hv].
apply negb_false_iff in Hproof, Hv.
rewrite Hs, Hproof, (property_proofValue _ Hproof), (property_proofType _ Hproof).
rewrite (property_subject _ (structure_has_subject _ Hs)), optional_property_subject.
run. rewrite Hv, Hpv. cbn [call_substring]. run.
rewrite Hty. cbn [String.eqb Ascii.eqb Bool.eqb]. run.
destruct (ed25519_verify _ _ _) as [[|]|e]; run; reflexivity.
Qed.

Lemma verify_secp256k1 (credential : object) (pk kt : string) (pv : string) :
structureInvalid credential = false ->
proofMissing credential = false ->
proofValueOf credential = VStr pv ->
kt = "secp256k1" ->
strict_eq_string (proofTypeOf credential) "EcdsaSecp256k1Signature2019" = true ->
verifyVerifiableCredential credential pk kt
= (Returns (judged credential
              (match secp256k1_verify (signatureBytesOf pv)
                       (verifiedMessage credential) (Hex.decode pk) with
               | Returns ok => ok
               | Throws _ => false
               end)),
   [VerifyCall "secp256k1" (signatureBytesOf pv) (verifiedMessage credential)
      (Hex.decode pk)]).
Proof.
intros Hs Hm Hpv -> Hty.
unfold verifyVerifiableCredential, verifyBody, verifyHandler, verifySecp256k1.
fold (structureInvalid credential).
unfold proofMissing, judged, rejected, signatureBytesOf, verifiedMessage in *.
apply orb_false_iff in Hm as [Hproof Hv].
apply negb_false_iff in Hproof, Hv.
rewrite Hs, Hproof, (property_proofValue _ Hproof), (property_proofType _ Hproof).
rewrite (property_subject _ (structure_has_subject _ Hs)).
run. rewrite Hv, Hpv. cbn [call_substring]. run.
rewrite Hty. cbn [String.eqb Ascii.eqb Bool.eqb]. run.
destruct (secp256k1_verify _ _ _) as [[|]|e]; run; reflexivity.
Qed.

End Verification.

(** ** Issued credentials *)

Section Issuance.

Context {P : Platform}.

Variables now uuid issuerDid subjectDid credentialType : string.
Variable claims : object.

Lemma spread_unsigned :
Obj.spread []
  (unsignedCredential now uuid issuerDid subjectDid credentialType claims)
= unsignedCredential now uuid issuerDid subjectDid credentialType claims.
Proof. reflexivity. Qed.

Lemma set_proof_unsigned (proof : value) :
Obj.set (unsignedCredential now uuid issuerDid subjectDid credentialType claims)
  "proof" proof
= unsignedCredential now uuid issuerDid subjectDid credentialType claims
  ++ [("proof", proof)].
Proof. reflexivity. Qed.

Lemma issue_ed25519 (privateKey keyType : string) :
keyType = "ed25519" ->
issueVerifiableCredential now uuid issuerDid subjectDid credentialType claims
  privateKey keyType
= (match ed25519_sign
           (issuedMessage now uuid issuerDid subjectDid credentialType claims)
           (Hex.decode privateKey) with
   | Returns sig =>
       Returns (signedCredential now uuid issuerDid subjectDid credentialType
                  claims "Ed25519Signature2020" sig)
   | Throws e => Throws e
   end,
   [SignCall "ed25519"
      (issuedMessage now uuid issuerDid subjectDid credentialType claims)
      (Hex.decode privateKey)]).
Proof.
intros ->.
unfold issueVerifiableCredential, signEd25519, signedCredential, issuedMessage.
rewrite spread_unsigned.
cbn [String.eqb Ascii.eqb Bool.eqb]. run.
destruct (ed25519_sign _ _) as [sig|e]; run; [|reflexivity].
now rewrite set_proof_unsigned.
Qed.

Lemma issue_secp256k1 (privateKey keyType : string) :
keyType <> "ed25519" ->
issueVerifiableCredential now uuid issuerDid subjectDid credentialType claims
  privateKey keyType
= (match secp256k1_sign
           (issuedMessage now uuid issuerDid subjectDid credentialType claims)
           (Hex.decode privateKey) with
   | Returns sig =>
       Returns (signedCredential now uuid issuerDid subjectDid credentialType
                  claims "EcdsaSecp256k1Signature2019"
                  (Noble.toCompactRawBytes sig))
   | Throws e => Throws e
   end,
   [SignCall "secp256k1"
      (issuedMessage now uuid issuerDid subjectDid credentialType claims)
      (Hex.decode privateKey)]).
Proof.
intros Hkt. apply String.eqb_neq in Hkt.
unfold issueVerifiableCredential, signSecp256k1, signedCredential, issuedMessage.
rewrite spread_unsigned, Hkt. run.
destruct (secp256k1_sign _ _) as [sig|e]; run; [|reflexivity].
now rewrite set_proof_unsigned.
Qed.

(** What a verification reads in an issued credential. *)
Lemma signed_structure (proofType : string) (sig : bytes) :
structureInvalid
  (signedCredential now uuid issuerDid subjectDid credentialType claims
     proofType sig)
= (issuerDid =? "")%string.
Proof.
unfold structureInvalid. cbn. now rewrite negb_involutive, orb_false_r.
Qed.

Lemma signed_proof_present (proofType : string) (sig : bytes) :
proofMissing
  (signedCredential now uuid issuerDid subjectDid credentialType claims
     proofType sig) = false.
Proof. reflexivity. Qed.

Lemma signed_proofValue (proofType : string) (sig : bytes) :
proofValueOf
  (signedCredential now uuid issuerDid subjectDid credentialType claims
     proofType sig) = VStr (String "z" (Base64.encode sig)).
Proof. reflexivity. Qed.

Lemma signed_proofType (proofType : string) (sig : bytes) :
proofTypeOf
  (signedCredential now uuid issuerDid subjectDid credentialType claims
     proofType sig) = VStr proofType.
Proof. reflexivity. Qed.

Lemma signed_message (proofType : string) (sig : bytes) :
verifiedMessage
  (signedCredential now uuid issuerDid subjectDid credentialType claims
     proofType sig)
= issuedMessage now uuid issuerDid subjectDid credentialType claims.
Proof. reflexivity. Qed.

Lemma signed_signature (sig : bytes) :
signatureBytesOf (String "z" (Base64.encode sig)) = sig.
Proof. unfold signatureBytesOf. cbn [substring_from]. apply base64_decode_encode. Qed.

Lemma signed_subject (proofType : string) (sig : bytes) :
subjectIdOf
  (signedCredential now uuid issuerDid subjectDid credentialType claims
     proofType sig)
= if Obj.has claims "id" then Obj.get claims "id" else VStr subjectDid.
Proof.
unfold subjectIdOf. 
change (Obj.get (signedCredential now uuid issuerDid subjectDid credentialType
                   claims proofType sig) "credentialSubject")
  with (VObj (Obj.spread [("id", VStr subjectDid)] claims)).
cbn [optional_property property]. now rewrite get_spread.
Qed.

End Issuance.

(** ** Key generation *)

Section Keys.

Context {P : Platform}.

Lemma generated_ed25519 (seed : bytes) (kp : KeyPair) :
generateEd25519KeyPair seed = Returns kp ->
ed25519_getPublicKey seed = Returns (publicKey kp)
/\ privateKey kp = seed
/\ Hex.decode (publicKeyHex kp) = publicKey kp
/\ Hex.decode (privateKeyHex kp) = seed.
Proof.
unfold generateEd25519KeyPair.
destruct (ed25519_getPublicKey seed) as [pk|e]; intros H; inversion H; subst.
cbn [publicKey privateKey publicKeyHex privateKeyHex].
now rewrite !hex_decode_encode.
Qed.

Lemma generated_secp256k1 (seed : bytes) (kp : KeyPair) :
generateSecp256k1KeyPair seed = Returns kp ->
secp256k1_getPublicKey seed = Returns (publicKey kp)
/\ privateKey kp = seed
/\ Hex.decode (publicKeyHex kp) = publicKey kp
/\ Hex.decode (privateKeyHex kp) = seed.
Proof.
unfold generateSecp256k1KeyPair.
destruct (secp256k1_getPublicKey seed) as [pk|e]; intros H; inversion H; subst.
cbn [publicKey privateKey publicKeyHex privateKeyHex].
now rewrite !hex_decode_encode.
Qed.

Lemma generated_did (keyType : string) (seed : bytes) (g : GeneratedDid) :
generateDidKey keyType seed = Returns g ->
did g = didKey keyType (publicKey (keyPair g))
/\ (if (keyType =? "ed25519")%string
    then generateEd25519KeyPair seed
    else generateSecp256k1KeyPair seed) = Returns (keyPair g).
Proof.
unfold generateDidKey.
destruct (if (keyType =? "ed25519")%string then _ else _) as [kp|e];
  intros H; inversion H; subst.
now cbn [did keyPair].
Qed.

Lemma didKey_not_empty (keyType : string) (pk : bytes) :
(didKey keyType pk =? "")%string = false.
Proof. reflexivity. Qed.

(** ** Signed credentials verify *)

Lemma verify_signed_ed25519 (now uuid issuerDid subjectDid credentialType
: string) (claims : object) (sig : bytes) (pk : string) (ok : bool) :
issuerDid <> "" ->
ed25519_verify sig
  (issuedMessage now uuid issuerDid subjectDid credentialType claims)
  (Hex.decode pk) = Returns ok ->
outcome_of
  (verifyVerifiableCredential
     (signedCredential now uuid issuerDid subjectDid credentialType claims
        "Ed25519Signature2020" sig) pk "ed25519")
= Returns
    {| verified := ok;
       issuer := VStr issuerDid;
       subject := if Obj.has claims "id" then Obj.get claims "id"
                  else VStr subjectDid;
       issuanceDate := VStr now;
       errors := if ok then None else Some ["Invalid signature"] |}.
Proof.
intros Hiss Hok. apply String.eqb_neq in Hiss.
rewrite (verify_ed25519 _ pk "ed25519" (String "z" (Base64.encode sig)));
  try reflexivity.
- rewrite signed_signature, signed_message, Hok.
  unfold outcome_of, judged. cbn [fst]. now rewrite signed_subject.
- now rewrite signed_structure.
Qed.

Lemma verify_signed_secp256k1 (now uuid issuerDid subjectDid credentialType
: string) (claims : object) (sig : bytes) (pk : string) (ok : bool) :
issuerDid <> "" ->
secp256k1_verify sig
  (issuedMessage now uuid issuerDid subjectDid credentialType claims)
  (Hex.decode pk) = Returns ok ->
outcome_of
  (verifyVerifiableCredential
     (signedCredential now uuid issuerDid subjectDid credentialType claims
        "EcdsaSecp256k1Signature2019" sig) pk "secp256k1")
= Returns
    {| verified := ok;
       issuer := VStr issuerDid;
       subject := if Obj.has claims "id" then Obj.get claims "id"
                  else VStr subjectDid;
       issuanceDate := VStr now;
       errors := if ok then None else Some ["Invalid signature"] |}.
Proof.
intros Hiss Hok. apply String.eqb_neq in Hiss.
rewrite (verify_secp256k1 _ pk "secp256k1" (String "z" (Base64.encode sig)));
  try reflexivity.
- rewrite signed_signature, signed_message, Hok.
  unfold outcome_of, judged. cbn [fst]. now rewrite signed_subject.
- now rewrite signed_structure.
Qed.

End Keys.

(** ** Claims on signing, issuing and verifying *)


Section Summary.

Context {P : Platform}.

Lemma substring_of_truthy (v : value) :
truthy v = true ->
(exists s, v = VStr s)
\/ (exists e, call_substring "proof.proofValue" v 1 = Throws e).
Proof.
destruct v; cbn; intros H; try discriminate; eauto.
Qed.

Lemma structuralErrors_not_empty (credential : object) :
structureInvalid credential || proofMissing credential = true ->
structuralErrors credential <> [].
Proof.
unfold structuralErrors.
destruct (structureInvalid credential), (proofMissing credential);
  cbn; intros H; discriminate.
Qed.

(** Every way a verification can end. *)
Lemma verify_cases (credential : object) (pk kt : string) :
exists r calls,
  verifyVerifiableCredential credential pk kt = (Returns r, calls)
  /\ ((structureInvalid credential || proofMissing credential = true
       /\ r = rejected credential (structuralErrors credential)
       /\ calls = [])
      \/ (structureInvalid credential || proofMissing credential = false
          /\ ((exists e,
                 r = rejected credential [("Verification failed: " ++ e)%string]
                 /\ (calls = []
                     \/ schemeMatches kt (proofTypeOf credential) = true))
              \/ (schemeMatches kt (proofTypeOf credential) = false
                  /\ r = mismatched credential /\ calls = [])
              \/ (schemeMatches kt (proofTypeOf credential) = true
                  /\ exists ok call,
                       r = judged credential ok /\ calls = [call])))).
Proof.
destruct (structureInvalid credential || proofMissing credential) eqn:Hearly.
- do 2 eexists. split; [apply verify_rejects_early; exact Hearly|].
  left. auto.
- pose proof Hearly as Hlate.
  apply orb_false_iff in Hearly as [Hs Hm].
  pose proof Hm as Hm'. unfold proofMissing in Hm'.
  apply orb_false_iff in Hm' as [_ Hv]. apply negb_false_iff in Hv.
  destruct (substring_of_truthy _ Hv) as [[pv Hpv] | [e He]].
  2:{ do 2 eexists. split; [apply (verify_not_a_string _ _ _ e); assumption|].
      right. split; [reflexivity|]. left. eauto. }
  destruct (schemeMatches kt (proofTypeOf credential)) eqn:Hscheme.
  2:{ do 2 eexists.
      split; [apply (verify_mismatch _ _ _ pv); assumption|].
      right. split; [reflexivity|]. right. left. auto. }
  unfold schemeMatches in Hscheme.
  apply orb_true_iff in Hscheme as [H | H];
    apply andb_true_iff in H as [Hkt Hty]; apply String.eqb_eq in Hkt.
  + rewrite (verify_ed25519 _ pk kt pv) by assumption.
    destruct (ed25519_verify _ _ _) as [ok|e]; do 2 eexists;
      (split; [reflexivity|]); right; (split; [reflexivity|]).
    * right. right. split; [reflexivity | eauto].
    * left. exists e. split; [reflexivity|]. now right.
  + rewrite (verify_secp256k1 _ pk kt pv) by assumption.
    do 2 eexists. split; [reflexivity|]. right. split; [reflexivity|].
    right. right. split; [reflexivity | eauto].
Qed.

End Summary.

(** C9: every verification returns a result; in it [verified] is true
    exactly when [errors] is absent, and when [verified] is false the
    errors are present and not empty. *)
Theorem verified_iff_no_errors (P : Platform) (credential : object)
  (issuerPublicKey keyType : string) :
  exists r,
    outcome_of (verifyVerifiableCredential credential issuerPublicKey keyType)
    = Returns r
    /\ (verified r = true <-> errors r = None)
    /\ (verified r = false -> exists l, errors r = Some l /\ l <> []).
Proof.
  destruct (verify_cases credential issuerPublicKey keyType)
    as (r & calls & Hrun & Hcases).
  exists r. rewrite Hrun. split; [reflexivity|].
  destruct Hcases as [(Hearly & -> & _) | (_ & [(e & -> & _) | [(_ & -> & _) | (_ & ok & call & -> & _)]])];
    cbn [verified errors rejected mismatched judged].
  - split; [split; discriminate|].
    intros _. eexists. split; [reflexivity|].
    now apply structuralErrors_not_empty.
  - split; [split; discriminate|].
    intros _. eexists. split; [reflexivity | discriminate].
  - split; [split; discriminate|].
    intros _. eexists. split; [reflexivity | discriminate].
  - destruct ok; split; try (split; (reflexivity || discriminate)).
    + discriminate.
    + intros _. eexists. split; [reflexivity | discriminate].
Qed.

(** ** The stand-in platform *)

Lemma numberToBytesBE_length (n : N) (len : nat) :
  List.length (Noble.numberToBytesBE n len) = len.
Proof.
  revert n. induction len as [|k IH]; intros n; cbn [Noble.numberToBytesBE].
  - reflexivity.
  - rewrite length_app, IH. cbn. lia.
Qed.

Lemma toCompactRawBytes_length (sig : Noble.Signature) :
  List.length (Noble.toCompactRawBytes sig) = 64%nat.
Proof.
  unfold Noble.toCompactRawBytes.
  now rewrite length_app, !numberToBytesBE_length.
Qed.

Lemma bytes_eqb_refl (b : bytes) : Mock.bytes_eqb b b = true.
Proof.
  unfold Mock.bytes_eqb. destruct (list_eq_dec byte_eq_dec b b); congruence.
Qed.

Lemma mkSignature_halves (r s : N) (sig : Noble.Signature) :
  Mock.mkSignature r s = Returns sig -> Noble.r sig = r /\ Noble.s sig = s.
Proof.
  unfold Mock.mkSignature.
  destruct (bool_dec (Noble.valid_scalar r) true);
    [destruct (bool_dec (Noble.valid_scalar s) true)|];
    intros H; inversion H; subst.
  now cbn.
Qed.

Lemma mock_scheme_correct : signature_scheme_correct Mock.platform.
Proof.
  split; cbn [ed25519_getPublicKey ed25519_sign ed25519_verify
                secp256k1_getPublicKey secp256k1_sign secp256k1_verify
                Mock.platform].
  - intros sk pk m sig.
    unfold Mock.ed_getPublicKey, Mock.ed_sign, Mock.ed_verify.
    destruct (Nat.eqb_spec (List.length sk) 32) as [Hlen|]; [|discriminate].
    intros Hpk Hsig. inversion Hpk; inversion Hsig; subst.
    unfold Mock.digest.
    rewrite length_app, length_rev, numberToBytesBE_length, Hlen.
    cbn [Nat.add Nat.eqb negb]. now rewrite bytes_eqb_refl.
  - intros sk pk m sig.
    unfold Mock.ec_getPublicKey, Mock.ec_sign, Mock.ec_verify.
    destruct (Nat.eqb_spec (List.length sk) 32) as [Hlen|]; [|discriminate].
    cbn [negb].
    destruct (8192 <? N.of_nat (List.length m))%N; [discriminate|].
    intros Hpk Hsig. inversion Hpk; subst.
    apply mkSignature_halves in Hsig as [Hr Hs].
    unfold Noble.toCompactRawBytes. rewrite Hr, Hs.
    now rewrite bytes_eqb_refl.
Qed.

Lemma mock_registers :
  @generateDidKey Mock.platform "ed25519" Mock.seed = Returns Mock.registered.
Proof. vm_compute. reflexivity. Qed.

Lemma mock_issues :
  outcome_of
    (@issueVerifiableCredential Mock.platform Mock.now Mock.uuid
       (did Mock.registered) Mock.subjectDid "IdentityCredential" Mock.claims
       (privateKeyHex (keyPair Mock.registered)) "ed25519")
  = Returns Mock.credential.
Proof. vm_compute. reflexivity. Qed.



(** C2 (as the code has it): a scheme tag other than [ed25519], known or
    not, takes the secp256k1 path: issuance calls the secp256k1 signing
    primitive on the canonical message, behaves exactly as it does for the
    tag [secp256k1], returns a credential with proof type
    [EcdsaSecp256k1Signature2019] when the primitive returns, and fails
    only with the error the primitive raises. *)
Theorem other_scheme_tags_sign_with_secp256k1 (P : Platform)
  (now uuid issuerDid subjectDid credentialType : string) (claims : object)
  (privateKey keyType : string) :
  keyType <> "ed25519" ->
  issueVerifiableCredential now uuid issuerDid subjectDid credentialType claims
    privateKey keyType
  = issueVerifiableCredential now uuid issuerDid subjectDid credentialType
      claims privateKey "secp256k1"
  /\ issueVerifiableCredential now uuid issuerDid subjectDid credentialType
       claims privateKey keyType
     = (match secp256k1_sign
                (issuedMessage now uuid issuerDid subjectDid credentialType
                   claims) (Hex.decode privateKey) with
        | Returns sig =>
            Returns (signedCredential now uuid issuerDid subjectDid
                       credentialType claims "EcdsaSecp256k1Signature2019"
                       (Noble.toCompactRawBytes sig))
        | Throws e => Throws e
        end,
        [SignCall "secp256k1"
           (issuedMessage now uuid issuerDid subjectDid credentialType claims)
           (Hex.decode privateKey)]).
Proof.
  intros Hkt. split.
  - rewrite !issue_secp256k1 by (exact Hkt || discriminate). reflexivity.
  - now apply issue_secp256k1.
Qed.

Lemma other_scheme_tags_sign_with_secp256k1_witness :
  "rsa" <> "ed25519"
  /\ @issueVerifiableCredential Mock.platform Mock.now Mock.uuid
       Mock.registeredDid Mock.subjectDid "IdentityCredential" Mock.claims
       (Hex.encode Mock.seed) "rsa"
     = @issueVerifiableCredential Mock.platform Mock.now Mock.uuid
         Mock.registeredDid Mock.subjectDid "IdentityCredential" Mock.claims
         (Hex.encode Mock.seed) "secp256k1".
Proof.
  assert (H : "rsa" <> "ed25519") by discriminate.
  split; [exact H|].
  exact (proj1 (other_scheme_tags_sign_with_secp256k1 Mock.platform Mock.now
                  Mock.uuid Mock.registeredDid Mock.subjectDid
                  "IdentityCredential" Mock.claims (Hex.encode Mock.seed)
                  "rsa" H)).
Defined.

(** C2 fails as stated: under the tag [rsa] the stand-in platform issues a
    signed credential, with the secp256k1 proof type. *)
Lemma unknown_scheme_tag_is_signed :
  "rsa" <> "ed25519" /\ "rsa" <> "secp256k1"
  /\ exists credential,
       outcome_of
         (@issueVerifiableCredential Mock.platform Mock.now Mock.uuid
            Mock.registeredDid Mock.subjectDid "IdentityCredential"
            Mock.claims (Hex.encode Mock.seed) "rsa") = Returns credential
       /\ proofTypeOf credential = VStr "EcdsaSecp256k1Signature2019"
       /\ truthy (proofValueOf credential) = true.
Proof.
  split; [discriminate|]. split; [discriminate|].
  eexists. split; [vm_compute; reflexivity|].
  split; vm_compute; reflexivity.
Qed.

(** ** Scheme and proof type *)

(** The code's two tests of lines 120 and 122 compare the declared proof
    type with the one expected for the key type. *)
Lemma schemeMatches_expected (keyType : string) (proofType : value) :
  schemeMatches keyType proofType
  = match expectedProofType keyType with
    | Some t => strict_eq_string proofType t
    | None => false
    end.
Proof.
  unfold schemeMatches, expectedProofType.
  destruct (String.eqb_spec keyType "ed25519") as [->|Hed]; cbn [andb orb].
  - now rewrite orb_false_r.
  - now destruct (keyType =? "secp256k1")%string.
Qed.




(** C4: the Ed25519 verifying wrapper hands on whatever the curve package
    raises, while the secp256k1 wrapper turns every fault into [false]; on
    the stand-in platform a three-byte signature makes [verifyEd25519]
    raise and [verifySecp256k1] answer [false]. *)
Theorem verifyEd25519_propagates_faults :
  (forall (P : Platform) sig m pk e,
      ed25519_verify sig m pk = Throws e ->
      outcome_of (verifyEd25519 sig m pk) = Throws e)
  /\ (forall (P : Platform) sig m pk,
        exists b, outcome_of (verifySecp256k1 sig m pk) = Returns b)
  /\ outcome_of
       (@verifyEd25519 Mock.platform Mock.shortSignature [] (rev Mock.seed))
     = Throws "signature expected 64 bytes"
  /\ outcome_of
       (@verifySecp256k1 Mock.platform Mock.shortSignature []
          (x02 :: rev Mock.seed))
     = Returns false.
Proof.
  split; [|split; [|split]].
  - intros P sig m pk e H. unfold outcome_of, verifyEd25519, primitive.
    exact H.
  - intros P sig m pk. unfold outcome_of, verifySecp256k1. run.
    destruct (secp256k1_verify sig m pk) as [b|e]; run; eauto.
  - reflexivity.
  - vm_compute. reflexivity.
Qed.

(** C5: the identifier is a function of the key type and the public key
    bytes; decoding its multibase portion and dropping the multicodec
    prefix gives back the public key bytes; so two different public keys,
    under the same or different key types, never get the same identifier;
    and the identifier [generateDidKey] returns is that of the public key
    it returns. *)
Theorem did_key_encoding_injective :
  (forall keyType pk, spec_decodeDidKey (didKey keyType pk) = Some pk)
  /\ (forall keyType1 keyType2 pk1 pk2,
        pk1 <> pk2 -> didKey keyType1 pk1 <> didKey keyType2 pk2)
  /\ (forall keyType pk1 pk2, pk1 = pk2 -> didKey keyType pk1 = didKey keyType pk2)
  /\ (forall (P : Platform) keyType seed g,
        generateDidKey keyType seed = Returns g ->
        did g = didKey keyType (publicKey (keyPair g))).
Proof.
  split; [|split; [|split]].
  - apply decode_didKey.
  - intros keyType1 keyType2 pk1 pk2 Hne Heq.
    apply Hne.
    assert (H : spec_decodeDidKey (didKey keyType1 pk1)
                = spec_decodeDidKey (didKey keyType2 pk2)) by now rewrite Heq.
    rewrite !decode_didKey in H. now inversion H.
  - intros keyType pk1 pk2 ->. reflexivity.
  - intros P keyType seed g H. now apply generated_did in H.
Qed.

Lemma did_key_encoding_injective_witness :
  spec_decodeDidKey Mock.registeredDid = Some (rev Mock.seed)
  /\ didKey "ed25519" (rev Mock.seed) <> didKey "secp256k1" Mock.seed
  /\ did Mock.registered
     = didKey "ed25519" (publicKey (keyPair Mock.registered)).
Proof.
  destruct did_key_encoding_injective as (Hdec & Hinj & _ & Hgen).
  split; [exact (Hdec "ed25519" (rev Mock.seed))|].
  split.
  - apply Hinj. intros H. vm_compute in H. discriminate.
  - exact (Hgen Mock.platform "ed25519" Mock.seed Mock.registered mock_registers).
Defined.

(** C6 (as the code has it): a verification reports in two stages.  The
    structural error and the missing-proof error are collected together,
    and when either is present the result carries exactly these and no
    later check is made.  Otherwise the result carries no error, or
    [Invalid signature], or the mismatch message followed by
    [Invalid signature], or one [Verification failed] message. *)
Theorem errors_accumulate_in_two_stages (P : Platform) (credential : object)
  (issuerPublicKey keyType : string) :
  exists r calls,
    verifyVerifiableCredential credential issuerPublicKey keyType
    = (Returns r, calls)
    /\ (structureInvalid credential || proofMissing credential = true ->
        calls = []
        /\ errors r
           = Some ((if structureInvalid credential
                    then ["Invalid credential structure"] else [])
                   ++ (if proofMissing credential
                       then ["Missing or invalid proof"] else [])))
    /\ (structureInvalid credential || proofMissing credential = false ->
        errors r = None
        \/ errors r = Some ["Invalid signature"]
        \/ errors r = Some ["Unsupported signature type or key mismatch";
                            "Invalid signature"]
        \/ exists e, errors r = Some [("Verification failed: " ++ e)%string]).
Proof.
  destruct (verify_cases credential issuerPublicKey keyType)
    as (r & calls & Hrun & Hcases).
  exists r, calls. split; [exact Hrun|].
  destruct Hcases as [(Hearly & -> & ->) | (Hlate & Hcases)].
  - split; [intros _; split; reflexivity|].
    rewrite Hearly. discriminate.
  - split; [rewrite Hlate; discriminate|]. intros _.
    destruct Hcases as [(e & -> & _) | [(_ & -> & _) | (_ & ok & call & -> & _)]].
    + right. right. right. now exists e.
    + right. right. left. reflexivity.
    + destruct ok; [left | right; left]; reflexivity.
Qed.

(** C6 fails as stated: the issued credential checked against a secp256k1
    key is reported with the mismatch and [Invalid signature]; the same
    credential with its [@context] removed is reported with the structural
    error alone. *)
Lemma later_problems_unreported_after_structural_error :
  schemeMatches "secp256k1"
    (proofTypeOf (Obj.without Mock.credential "@context")) = false
  /\ (exists r,
        outcome_of
          (@verifyVerifiableCredential Mock.platform Mock.credential
             (Hex.encode (rev Mock.seed)) "secp256k1") = Returns r
        /\ errors r = Some ["Unsupported signature type or key mismatch";
                            "Invalid signature"])
  /\ (exists r,
        outcome_of
          (@verifyVerifiableCredential Mock.platform
             (Obj.without Mock.credential "@context")
             (Hex.encode (rev Mock.seed)) "secp256k1") = Returns r
        /\ errors r = Some ["Invalid credential structure"]).
Proof.
  split; [reflexivity|].
  split; eexists; (split; [vm_compute; reflexivity | reflexivity]).
Qed.

(** ** Missing proofs *)

Lemma get_absent (o : object) (k : string) :
  Obj.has o k = false -> Obj.get o k = VUndefined.
Proof.
  induction o as [|[k' v] o IH]; cbn [Obj.has Obj.get]; [reflexivity|].
  intros H. apply orb_false_iff in H as [Hk Ho]. now rewrite Hk, IH.
Qed.

(** C7: a credential with no proof block, or with an empty or otherwise
    falsy proof value, is rejected with [verified = false] and the
    missing-proof error, without any call of a primitive; the result
    carries the issuer, the subject and the issuance date read from the
    payload, each replaced by the empty string where it is not there. *)
Theorem missing_proof_is_reported (P : Platform) (credential : object)
  (issuerPublicKey keyType : string) :
  Obj.has credential "proof" = false
  \/ proofValueOf credential = VStr ""
  \/ proofMissing credential = true ->
  exists errs,
    verifyVerifiableCredential credential issuerPublicKey keyType
    = (Returns
         {| verified := false;
            issuer := or_else (Obj.get credential "issuer") (VStr "");
            subject := or_else (subjectIdOf credential) (VStr "");
            issuanceDate :=
              or_else (Obj.get credential "issuanceDate") (VStr "");
            errors := Some errs |}, [])
    /\ In "Missing or invalid proof" errs.
Proof.
  intros H.
  assert (Hm : proofMissing credential = true).
  { destruct H as [H | [H | H]]; [| |exact H]; unfold proofMissing.
    - now rewrite (get_absent _ _ H).
    - rewrite H. apply orb_true_r. }
  exists (structuralErrors credential). split.
  - apply verify_rejects_early. rewrite Hm. apply orb_true_r.
  - unfold structuralErrors. rewrite Hm. apply in_or_app. right. now left.
Qed.

Lemma missing_proof_is_reported_witness :
  Obj.has (Obj.without Mock.credential "proof") "proof" = false
  /\ exists errs,
       @verifyVerifiableCredential Mock.platform
         (Obj.without Mock.credential "proof")
         (Hex.encode (rev Mock.seed)) "ed25519"
       = (Returns
            {| verified := false;
               issuer := VStr Mock.registeredDid;
               subject := VStr Mock.subjectDid;
               issuanceDate := VStr Mock.now;
               errors := Some errs |}, [])
       /\ In "Missing or invalid proof" errs.
Proof.
  assert (H : Obj.has (Obj.without Mock.credential "proof") "proof" = false)
    by reflexivity.
  split; [exact H|].
  exact (missing_proof_is_reported Mock.platform
           (Obj.without Mock.credential "proof")
           (Hex.encode (rev Mock.seed)) "ed25519" (or_introl H)).
Defined.

(** ** Proof values *)

Example base64_rfc4648_foobar :
  Base64.encode (list_byte_of_string "foobar") = "Zm9vYmFy"
  /\ Base64.encode (list_byte_of_string "foob") = "Zm9vYg=="
  /\ Base64.encode (list_byte_of_string "fooba") = "Zm9vYmE="
  /\ Base64.encode [xfb; xff] = "+/8=".
Proof. repeat split; reflexivity. Qed.

(** ** The compact form of a signature *)

Lemma to_N_byte_of_N (n : N) : Byte.to_N (byte_of_N n) = n mod 256.
Proof.
  unfold byte_of_N.
  destruct (Byte.of_N (n mod 256)) as [b|] eqn:Hb.
  - now apply Byte.to_of_N.
  - apply Byte.of_N_None_iff in Hb.
    pose proof (N.mod_lt n 256). lia.
Qed.

(** [numberToBytesBE(n, len)] writes [n], most significant byte first:
    read as a number in base 256 the bytes give [n] back, as long as [n]
    fits in [len] bytes. *)
Lemma numberToBytesBE_value (n : N) (len : nat) :
  be_value 256 (map Byte.to_N (Noble.numberToBytesBE n len))
  = n mod 256 ^ N.of_nat len.
Proof.
  revert n. induction len as [|k IH]; intros n; cbn [Noble.numberToBytesBE].
  - cbn. now rewrite N.mod_1_r.
  - rewrite map_app. cbn [map]. rewrite be_value_app, IH, to_N_byte_of_N.
    rewrite Nat2N.inj_succ, N.pow_succ_r', N.Div0.mod_mul_r. lia.
Qed.

Lemma scalar_fits (x : N) :
  Noble.valid_scalar x = true -> x < 256 ^ N.of_nat 32.
Proof.
  unfold Noble.valid_scalar. intros H.
  apply andb_true_iff in H as [_ H]. apply N.ltb_lt in H.
  assert (Hn : Noble.CURVE_n < 256 ^ N.of_nat 32) by (vm_compute; reflexivity).
  lia.
Qed.

Lemma toCompactRawBytes_halves (sig : Noble.Signature) :
  be_value 256 (map Byte.to_N (firstn 32 (Noble.toCompactRawBytes sig)))
  = Noble.r sig
  /\ be_value 256 (map Byte.to_N (skipn 32 (Noble.toCompactRawBytes sig)))
     = Noble.s sig.
Proof.
  unfold Noble.toCompactRawBytes.
  pose proof (numberToBytesBE_length (Noble.r sig) 32) as Hlen.
  split.
  - rewrite firstn_app, Hlen, Nat.sub_diag, firstn_O, app_nil_r.
    rewrite <- Hlen at 1. rewrite firstn_all.
    rewrite numberToBytesBE_value. apply N.mod_small, scalar_fits, Noble.r_valid.
  - rewrite skipn_app, Hlen, Nat.sub_diag, skipn_O.
    rewrite <- Hlen at 1. rewrite skipn_all. cbn [app].
    rewrite numberToBytesBE_value. apply N.mod_small, scalar_fits, Noble.s_valid.
Qed.

(** The base64 text of [n] bytes has four characters for every three
    bytes, the last group padded. *)
Lemma base64_encode_length (b : bytes) :
  String.length (Base64.encode b) = (4 * ((List.length b + 2) / 3))%nat.
Proof.
  induction b as [|x|x y|x y z l IH] using list_ind3.
  - reflexivity.
  - reflexivity.
  - reflexivity.
  - change (Base64.encode (x :: y :: z :: l))
      with (String (Base64.char (Byte.to_N x / 4))
              (String (Base64.char ((Byte.to_N x mod 4) * 16 + Byte.to_N y / 16))
                 (String (Base64.char ((Byte.to_N y mod 16) * 4 + Byte.to_N z / 64))
                    (String (Base64.char (Byte.to_N z mod 64))
                       (Base64.encode l))))).
    cbn [String.length List.length]. rewrite IH.
    replace (S (S (S (List.length l))) + 2)%nat
      with (List.length l + 2 + 1 * 3)%nat by lia.
    rewrite Nat.div_add by lia. lia.
Qed.

(** C8: in every credential that is issued, the proof value is the
    character [z] followed by the base64 text of the signature bytes (from
    which the verifier's decoder recovers them).  Under the tag [ed25519]
    these are the bytes the Ed25519 primitive returned.  Otherwise they
    are the compact form of the signature [(r, s)] the secp256k1 primitive
    returned: 64 bytes, of which the first 32 are [r] and the last 32 are
    [s], each as a number in base 256 with the most significant byte
    first; the proof value then has 89 characters. *)
Theorem proof_value_is_z_base64 (P : Platform)
  (now uuid issuerDid subjectDid credentialType : string) (claims : object)
  (privateKey keyType : string) (credential : object) :
  outcome_of
    (issueVerifiableCredential now uuid issuerDid subjectDid credentialType
       claims privateKey keyType) = Returns credential ->
  exists signature,
    proofValueOf credential = VStr (String "z" (Base64.encode signature))
    /\ signatureBytesOf (String "z" (Base64.encode signature)) = signature
    /\ ((keyType = "ed25519"
         /\ ed25519_sign
              (issuedMessage now uuid issuerDid subjectDid credentialType claims)
              (Hex.decode privateKey) = Returns signature)
        \/ (keyType <> "ed25519"
            /\ exists sig,
                 secp256k1_sign
                   (issuedMessage now uuid issuerDid subjectDid credentialType
                      claims) (Hex.decode privateKey) = Returns sig
                 /\ List.length signature = 64%nat
                 /\ be_value 256 (map Byte.to_N (firstn 32 signature))
                    = Noble.r sig
                 /\ be_value 256 (map Byte.to_N (skipn 32 signature))
                    = Noble.s sig
                 /\ String.length (String "z" (Base64.encode signature))
                    = 89%nat)).
Proof.
  intros Hissue.
  destruct (String.eqb_spec keyType "ed25519") as [Hkt | Hkt].
  - rewrite issue_ed25519 in Hissue by exact Hkt.
    unfold outcome_of in Hissue. cbn [fst] in Hissue.
    destruct (ed25519_sign _ _) as [signature|e] eqn:Hsig; [|discriminate].
    inversion Hissue; subst credential.
    exists signature. rewrite signed_proofValue, signed_signature.
    split; [reflexivity|]. split; [reflexivity|]. left. now split.
  - rewrite issue_secp256k1 in Hissue by exact Hkt.
    unfold outcome_of in Hissue. cbn [fst] in Hissue.
    destruct (secp256k1_sign _ _) as [sig|e] eqn:Hsig; [|discriminate].
    inversion Hissue; subst credential.
    exists (Noble.toCompactRawBytes sig).
    rewrite signed_proofValue, signed_signature.
    split; [reflexivity|]. split; [reflexivity|]. right.
    split; [exact Hkt|]. exists sig.
    destruct (toCompactRawBytes_halves sig) as [Hr Hs].
    split; [reflexivity|]. split; [apply toCompactRawBytes_length|].
    split; [exact Hr|]. split; [exact Hs|].
    cbn [String.length].
    now rewrite base64_encode_length, toCompactRawBytes_length.
Qed.

Lemma proof_value_is_z_base64_witness :
  (outcome_of
     (@issueVerifiableCredential Mock.platform Mock.now Mock.uuid
        (did Mock.registered) Mock.subjectDid "IdentityCredential" Mock.claims
        (privateKeyHex (keyPair Mock.registered)) "ed25519")
   = Returns Mock.credential
   /\ exists signature,
        proofValueOf Mock.credential
        = VStr (String "z" (Base64.encode signature))
        /\ signatureBytesOf (String "z" (Base64.encode signature)) = signature)
  /\ exists credential,
       outcome_of
         (@issueVerifiableCredential Mock.platform Mock.now Mock.uuid
            Mock.registeredDid Mock.subjectDid "IdentityCredential"
            Mock.claims (Hex.encode Mock.seed) "secp256k1")
       = Returns credential
       /\ exists signature sig,
            proofValueOf credential
            = VStr (String "z" (Base64.encode signature))
            /\ @secp256k1_sign Mock.platform
                 (@issuedMessage Mock.platform Mock.now Mock.uuid
                    Mock.registeredDid Mock.subjectDid "IdentityCredential"
                    Mock.claims) (Hex.decode (Hex.encode Mock.seed))
               = Returns sig
            /\ List.length signature = 64%nat
            /\ be_value 256 (map Byte.to_N (firstn 32 signature)) = Noble.r sig
            /\ be_value 256 (map Byte.to_N (skipn 32 signature)) = Noble.s sig.
Proof.
  split.
  - split; [exact mock_issues|].
    destruct (proof_value_is_z_base64 Mock.platform _ _ _ _ _ _ _ _ _ mock_issues)
      as (signature & Hpv & Hdec & _).
    exists signature. now split.
  - assert (Hex : exists credential,
               outcome_of
                 (@issueVerifiableCredential Mock.platform Mock.now Mock.uuid
                    Mock.registeredDid Mock.subjectDid "IdentityCredential"
                    Mock.claims (Hex.encode Mock.seed) "secp256k1")
               = Returns credential)
      by (eexists; vm_compute; reflexivity).
    destruct Hex as [credential Hissue].
    exists credential. split; [exact Hissue|].
    destruct (proof_value_is_z_base64 Mock.platform _ _ _ _ _ _ _ _ _ Hissue)
      as (signature & Hpv & _ & [[Hkt _] | [_ (sig & Hsig & Hlen & Hr & Hs & _)]]).
    + discriminate Hkt.
    + exists signature, sig. now repeat split.
Defined.

(** C10: in every credential that is issued, [credentialSubject.id] is
    the value of the key [id] of the claims when the claims have that key,
    and the subject identifier passed to the issuer otherwise. *)
Theorem subject_id_from_claims (P : Platform)
  (now uuid issuerDid subjectDid credentialType : string) (claims : object)
  (privateKey keyType : string) (credential : object) :
  outcome_of
    (issueVerifiableCredential now uuid issuerDid subjectDid credentialType
       claims privateKey keyType) = Returns credential ->
  property (Obj.get credential "credentialSubject") "id"
  = Returns (if Obj.has claims "id" then Obj.get claims "id"
             else VStr subjectDid).
Proof.
  intros Hissue.
  assert (Hc : exists proofType signature,
             credential = signedCredential now uuid issuerDid subjectDid
                            credentialType claims proofType signature).
  { destruct (String.eqb_spec keyType "ed25519") as [Hkt | Hkt].
    - rewrite issue_ed25519 in Hissue by exact Hkt.
      unfold outcome_of in Hissue. cbn [fst] in Hissue.
      destruct (ed25519_sign _ _); inversion Hissue; eauto.
    - rewrite issue_secp256k1 in Hissue by exact Hkt.
      unfold outcome_of in Hissue. cbn [fst] in Hissue.
      destruct (secp256k1_sign _ _); inversion Hissue; eauto. }
  destruct Hc as (proofType & signature & ->).
  rewrite <- signed_subject with (now := now) (uuid := uuid)
    (issuerDid := issuerDid) (credentialType := credentialType)
    (proofType := proofType) (sig := signature).
  apply property_subject. reflexivity.
Qed.

Lemma subject_id_from_claims_witness :
  outcome_of
    (@issueVerifiableCredential Mock.platform Mock.now Mock.uuid
       (did Mock.registered) Mock.subjectDid "IdentityCredential" Mock.claims
       (privateKeyHex (keyPair Mock.registered)) "ed25519")
  = Returns Mock.credential
  /\ property (Obj.get Mock.credential "credentialSubject") "id"
     = Returns (VStr Mock.subjectDid).
Proof.
  split; [exact mock_issues|].
  exact (subject_id_from_claims Mock.platform _ _ _ _ _ _ _ _ _ mock_issues).
Defined.

(** * Properties of the rest of the server *)

(** ** Resolving identifiers *)

Lemma didKey_segments (keyType : string) (pk : bytes) :
  String_split ":" (didKey keyType pk)
  = ["did"; "key"; publicKeyMultibase keyType pk].
Proof.
  unfold didKey. apply split_did_key.
  rewrite publicKeyMultibase_is_encode. apply base58btc_encode_free_of_colon.
Qed.

Lemma keyIdSegment_didKey (keyType : string) (pk : bytes) :
  keyIdSegment (didKey keyType pk) = publicKeyMultibase keyType pk.
Proof. unfold keyIdSegment. now rewrite didKey_segments. Qed.

(** X1: Resolving an identifier made by [generateDidKey], with the key type it
    was made for, rebuilds the document made at generation, whatever
    public key text is passed. *)
Theorem resolveDid_rebuilds_generated_document (P : Platform)
  (keyType : string) (seed : bytes) (g : GeneratedDid) (publicKeyText : string) :
  generateDidKey keyType seed = Returns g ->
  resolveDid (did g) publicKeyText keyType = as_resolved (didDocument g).
Proof.
  unfold generateDidKey.
  destruct (if (keyType =? "ed25519")%string then _ else _) as [kp|e];
    intros H; inversion H; subst; clear H.
  cbn [did didDocument]. unfold resolveDid.
  rewrite didKey_segments. reflexivity.
Qed.

Lemma resolveDid_rebuilds_generated_document_witness :
  @generateDidKey Mock.platform "ed25519" Mock.seed = Returns Mock.registered
  /\ resolveDid (did Mock.registered) "" "ed25519"
     = as_resolved (didDocument Mock.registered).
Proof.
  split; [exact mock_registers|].
  exact (resolveDid_rebuilds_generated_document Mock.platform "ed25519"
           Mock.seed Mock.registered "" mock_registers).
Defined.

(** X2: For an identifier of fewer than three colon-separated segments the key
    id is [undefined]: every id of the resolved document -- that of the
    verification method and those listed under [authentication],
    [assertionMethod], [capabilityInvocation] and [capabilityDelegation] --
    ends in [#undefined], and the verification method has no
    [publicKeyMultibase]. *)
Theorem resolveDid_short_identifier (did publicKey keyType : string) :
  (List.length (String_split ":" did) < 3)%nat ->
  resolveDid did publicKey keyType
  = {| res_context := ["https://www.w3.org/ns/did/v1"];
       res_id := did;
       res_verificationMethod :=
         [ {| rvm_id := (did ++ "#undefined")%string;
              rvm_type := verificationMethodType keyType;
              rvm_controller := did;
              rvm_publicKeyMultibase := None |} ];
       res_authentication := [(did ++ "#undefined")%string];
       res_assertionMethod := [(did ++ "#undefined")%string];
       res_capabilityInvocation := [(did ++ "#undefined")%string];
       res_capabilityDelegation := [(did ++ "#undefined")%string] |}.
Proof.
  intros Hlen. unfold resolveDid.
  assert (Hnone : nth_error (String_split ":" did) 2 = None)
    by (apply nth_error_None; lia).
  rewrite Hnone. reflexivity.
Qed.

Lemma resolveDid_short_identifier_witness :
  (List.length (String_split ":" "did:web") < 3)%nat
  /\ res_assertionMethod (resolveDid "did:web" "" "ed25519")
     = ["did:web#undefined"]
  /\ res_capabilityInvocation (resolveDid "did:web" "" "ed25519")
     = ["did:web#undefined"]
  /\ res_capabilityDelegation (resolveDid "did:web" "" "ed25519")
     = ["did:web#undefined"].
Proof.
  assert (H : (List.length (String_split ":" "did:web") < 3)%nat)
    by (cbn; lia).
  split; [exact H|].
  rewrite (resolveDid_short_identifier "did:web" "" "ed25519" H).
  repeat split; reflexivity.
Defined.

(** ** Issuer documents and proofs *)

Lemma signed_verificationMethod (now uuid issuerDid subjectDid credentialType
  : string) (claims : object) (proofType : string) (sig : bytes) :
  property
    (Obj.get (signedCredential now uuid issuerDid subjectDid credentialType
                claims proofType sig) "proof") "verificationMethod"
  = Returns (VStr (issuerDid ++ "#" ++ keyIdSegment issuerDid)%string).
Proof. reflexivity. Qed.

(** X3: The verification method named in the proof of a credential issued
    under a generated identity is the one the identity's document lists,
    under [verificationMethod] and under [assertionMethod]. *)
Theorem proof_names_the_document_key (P : Platform) (keyType : string)
  (seed : bytes) (g : GeneratedDid) (now uuid subjectDid credentialType : string)
  (claims : object) (privateKey signingType : string) (credential : object) :
  generateDidKey keyType seed = Returns g ->
  outcome_of
    (issueVerifiableCredential now uuid (did g) subjectDid credentialType
       claims privateKey signingType) = Returns credential ->
  exists vmId,
    property (Obj.get credential "proof") "verificationMethod"
    = Returns (VStr vmId)
    /\ map vm_id (verificationMethod (didDocument g)) = [vmId]
    /\ assertionMethod (didDocument g) = [vmId].
Proof.
  intros Hgen Hissue.
  assert (Hc : exists proofType signature,
             credential = signedCredential now uuid (did g) subjectDid
                            credentialType claims proofType signature).
  { destruct (String.eqb_spec signingType "ed25519") as [Hkt | Hkt].
    - rewrite issue_ed25519 in Hissue by exact Hkt.
      unfold outcome_of in Hissue. cbn [fst] in Hissue.
      destruct (ed25519_sign _ _); inversion Hissue; eauto.
    - rewrite issue_secp256k1 in Hissue by exact Hkt.
      unfold outcome_of in Hissue. cbn [fst] in Hissue.
      destruct (secp256k1_sign _ _); inversion Hissue; eauto. }
  destruct Hc as (proofType & signature & ->).
  revert Hgen. unfold generateDidKey.
  destruct (if (keyType =? "ed25519")%string then _ else _) as [kp|e];
    intros H; inversion H; subst; clear H.
  cbn [did didDocument]. eexists. split; [|split].
  - rewrite signed_verificationMethod, keyIdSegment_didKey. reflexivity.
  - reflexivity.
  - reflexivity.
Qed.

Lemma proof_names_the_document_key_witness :
  exists vmId,
    property (Obj.get Mock.credential "proof") "verificationMethod"
    = Returns (VStr vmId)
    /\ assertionMethod (didDocument Mock.registered) = [vmId].
Proof.
  destruct (proof_names_the_document_key Mock.platform "ed25519" Mock.seed
              Mock.registered Mock.now Mock.uuid Mock.subjectDid
              "IdentityCredential" Mock.claims
              (privateKeyHex (keyPair Mock.registered)) "ed25519"
              Mock.credential mock_registers mock_issues)
    as (vmId & Hproof & _ & Hassert).
  exists vmId. now split.
Defined.

(** ** What a verification looks at *)

Section Relevance.

Context {P : Platform}.

Lemma get_without_other (o : object) (k k' : string) :
  k <> k' -> Obj.get (Obj.without o k) k' = Obj.get o k'.
Proof.
  intros Hne. induction o as [|[k0 v0] o IH]; cbn [Obj.without Obj.get].
  - reflexivity.
  - destruct (String.eqb_spec k0 k) as [->|Hk]; cbn [Obj.get].
    + apply String.eqb_neq in Hne. now rewrite Hne.
    + now rewrite IH.
Qed.

(** The fields a verification reads outside the proof are those of the
    credential without its proof. *)
Lemma structureInvalid_without (c : object) :
  structureInvalid (Obj.without c "proof") = structureInvalid c.
Proof.
  unfold structureInvalid. now rewrite !get_without_other by discriminate.
Qed.

Lemma subjectIdOf_without (c : object) :
  subjectIdOf (Obj.without c "proof") = subjectIdOf c.
Proof.
  unfold subjectIdOf. now rewrite get_without_other by discriminate.
Qed.

Lemma verify_string_proof (c : object) (pk kt pv : string) :
  structureInvalid c = false ->
  proofMissing c = false ->
  proofValueOf c = VStr pv ->
  verifyVerifiableCredential c pk kt
  = if (kt =? "ed25519")%string
       && strict_eq_string (proofTypeOf c) "Ed25519Signature2020"
    then (match ed25519_verify (signatureBytesOf pv) (verifiedMessage c)
                  (Hex.decode pk) with
          | Returns ok => Returns (judged c ok)
          | Throws e =>
              Returns (rejected c [("Verification failed: " ++ e)%string])
          end,
          [VerifyCall "ed25519" (signatureBytesOf pv) (verifiedMessage c)
             (Hex.decode pk)])
    else if (kt =? "secp256k1")%string
            && strict_eq_string (proofTypeOf c) "EcdsaSecp256k1Signature2019"
    then (Returns (judged c
                     (match secp256k1_verify (signatureBytesOf pv)
                              (verifiedMessage c) (Hex.decode pk) with
                      | Returns ok => ok
                      | Throws _ => false
                      end)),
          [VerifyCall "secp256k1" (signatureBytesOf pv) (verifiedMessage c)
             (Hex.decode pk)])
    else (Returns (mismatched c), []).
Proof.
  intros Hs Hm Hpv.
  destruct ((kt =? "ed25519")%string
            && strict_eq_string (proofTypeOf c) "Ed25519Signature2020") eqn:Hed.
  - apply andb_true_iff in Hed as [Hkt Hty]. apply String.eqb_eq in Hkt.
    now apply verify_ed25519.
  - destruct ((kt =? "secp256k1")%string
              && strict_eq_string (proofTypeOf c) "EcdsaSecp256k1Signature2019")
      eqn:Hec.
    + apply andb_true_iff in Hec as [Hkt Hty]. apply String.eqb_eq in Hkt.
      now apply verify_secp256k1.
    + apply (verify_mismatch _ _ _ pv); try assumption.
      unfold schemeMatches. now rewrite Hed, Hec.
Qed.

End Relevance.

(** X4: The proof block is read for its [type] and its [proofValue] only, and
    the proof value only past its first character and only for the bytes
    its base64 text decodes to: two credentials that agree outside the
    proof, on the proof type and on these bytes are judged alike, with the
    same calls of the curve package, whatever else their proofs hold. *)
Theorem verification_reads_type_and_signature_only (P : Platform)
  (c1 c2 : object) (pv1 pv2 : string) (issuerPublicKey keyType : string) :
  Obj.without c1 "proof" = Obj.without c2 "proof" ->
  proofTypeOf c1 = proofTypeOf c2 ->
  proofValueOf c1 = VStr pv1 -> pv1 <> "" ->
  proofValueOf c2 = VStr pv2 -> pv2 <> "" ->
  Base64.decode (substring_from 1 pv1) = Base64.decode (substring_from 1 pv2) ->
  verifyVerifiableCredential c1 issuerPublicKey keyType
  = verifyVerifiableCredential c2 issuerPublicKey keyType.
Proof.
  intros Hrest Hty Hpv1 Hne1 Hpv2 Hne2 Hsig.
  assert (Hproof : forall c pv, proofValueOf c = VStr pv -> pv <> "" ->
                                proofMissing c = false).
  { intros c pv Hpv Hne. unfold proofMissing. rewrite Hpv.
    cbn [truthy]. apply String.eqb_neq in Hne. rewrite Hne.
    cbn [negb]. rewrite orb_false_r.
    unfold proofValueOf in Hpv.
    destruct (Obj.get c "proof"); cbn in *; try discriminate; reflexivity. }
  assert (Hs : structureInvalid c1 = structureInvalid c2).
  { now rewrite <- (structureInvalid_without c1), Hrest, structureInvalid_without. }
  assert (Hget : forall k, k <> "proof" -> Obj.get c1 k = Obj.get c2 k).
  { intros k Hk.
    rewrite <- (get_without_other c1 "proof" k), Hrest, get_without_other;
      congruence. }
  assert (Hsub : subjectIdOf c1 = subjectIdOf c2).
  { now rewrite <- (subjectIdOf_without c1), Hrest, subjectIdOf_without. }
  assert (Hrej : forall errs, rejected c1 errs = rejected c2 errs).
  { intros errs. unfold rejected. now rewrite Hsub, !Hget by discriminate. }
  assert (Hjud : forall ok, judged c1 ok = judged c2 ok).
  { intros ok. unfold judged. now rewrite Hsub, !Hget by discriminate. }
  assert (Hmis : mismatched c1 = mismatched c2).
  { unfold mismatched. now rewrite Hsub, !Hget by discriminate. }
  assert (Hmsg : verifiedMessage c1 = verifiedMessage c2).
  { unfold verifiedMessage. now rewrite Hrest. }
  destruct (structureInvalid c1) eqn:Hs1.
  - rewrite !verify_rejects_early
      by (rewrite <- ?Hs, ?Hs1; reflexivity).
    unfold structuralErrors.
    rewrite <- Hs, Hs1, (Hproof c1 pv1), (Hproof c2 pv2) by assumption.
    now rewrite Hrej.
  - rewrite (verify_string_proof c1 _ _ pv1), (verify_string_proof c2 _ _ pv2)
      by (try assumption; try (now apply (Hproof _ pv1));
          try (now apply (Hproof _ pv2)); congruence).
    unfold signatureBytesOf. rewrite Hsig, Hty, Hmsg, Hmis.
    destruct (_ && _); [|destruct (_ && _)].
    + destruct (ed25519_verify _ _ _); now rewrite ?Hjud, ?Hrej.
    + now rewrite Hjud.
    + reflexivity.
Qed.

Lemma verification_reads_type_and_signature_only_witness :
  @verifyVerifiableCredential Mock.platform Sample.relabelled
    (publicKeyHex (keyPair Mock.registered)) "ed25519"
  = @verifyVerifiableCredential Mock.platform Mock.credential
      (publicKeyHex (keyPair Mock.registered)) "ed25519"
  /\ Obj.get Sample.relabelled "proof" <> Obj.get Mock.credential "proof".
Proof.
  split.
  - eapply (verification_reads_type_and_signature_only Mock.platform
              Sample.relabelled Mock.credential).
    + reflexivity.
    + reflexivity.
    + vm_compute. reflexivity.
    + discriminate.
    + vm_compute. reflexivity.
    + discriminate.
    + reflexivity.
  - vm_compute. discriminate.
Defined.

(** ** Key types at issuance and at verification *)

(** X5: A credential is refused, without any call of the curve package, under
    every key type other than the one whose primitive signed it: an
    Ed25519-signed credential under any key type but [ed25519], and a
    credential signed on the secp256k1 path under any key type but
    [secp256k1] -- the very tag it was issued under included, when that tag
    is not [secp256k1].  When the issuer identifier of the credential is
    not empty the errors are the key mismatch and the invalid signature;
    when it is empty the credential fails the structure test before, and
    that is the single error. *)
Theorem other_key_types_refuse_issued_credential (P : Platform)
  (now uuid issuerDid subjectDid credentialType : string) (claims : object)
  (privateKey signingType : string) (credential : object)
  (issuerPublicKey keyType : string) :
  outcome_of
    (issueVerifiableCredential now uuid issuerDid subjectDid credentialType
       claims privateKey signingType) = Returns credential ->
  (if (signingType =? "ed25519")%string
   then keyType <> "ed25519" else keyType <> "secp256k1") ->
  verifyVerifiableCredential credential issuerPublicKey keyType
  = (Returns
       {| verified := false;
          issuer := VStr issuerDid;
          subject :=
            (let subjectId := if Obj.has claims "id" then Obj.get claims "id"
                              else VStr subjectDid in
             if (issuerDid =? "")%string then or_else subjectId (VStr "")
             else subjectId);
          issuanceDate := VStr now;
          errors :=
            Some (if (issuerDid =? "")%string
                  then ["Invalid credential structure"]
                  else ["Unsupported signature type or key mismatch";
                        "Invalid signature"]) |}, []).
Proof.
  intros Hissue Hkt.
  assert (Hc : exists signature,
             credential
             = signedCredential now uuid issuerDid subjectDid credentialType
                 claims (if (signingType =? "ed25519")%string
                         then "Ed25519Signature2020"
                         else "EcdsaSecp256k1Signature2019") signature).
  { destruct (String.eqb_spec signingType "ed25519") as [Hst | Hst].
    - rewrite issue_ed25519 in Hissue by exact Hst.
      unfold outcome_of in Hissue. cbn [fst] in Hissue.
      destruct (ed25519_sign _ _); inversion Hissue; eauto.
    - rewrite issue_secp256k1 in Hissue by exact Hst.
      unfold outcome_of in Hissue. cbn [fst] in Hissue.
      destruct (secp256k1_sign _ _); inversion Hissue; eauto. }
  destruct Hc as (signature & ->).
  destruct (String.eqb_spec issuerDid "") as [Hempty | Hne].
  - rewrite verify_rejects_early by (now rewrite signed_structure, Hempty).
    unfold rejected, structuralErrors.
    rewrite signed_structure, signed_proof_present, signed_subject, Hempty.
    cbn [String.eqb app].
    replace (or_else (Obj.get _ "issuer") (VStr "")) with (VStr "")
      by reflexivity.
    replace (or_else (Obj.get _ "issuanceDate") (VStr "")) with (VStr now);
      [reflexivity|].
    change (Obj.get (signedCredential now uuid "" subjectDid credentialType
                       claims _ signature) "issuanceDate")
      with (VStr now).
    unfold or_else. cbn [truthy].
    destruct (String.eqb_spec now "") as [-> | _]; reflexivity.
  - apply String.eqb_neq in Hne.
    rewrite (verify_mismatch _ _ _ (String "z" (Base64.encode signature))).
    + unfold mismatched. now rewrite signed_subject.
    + now rewrite signed_structure.
    + reflexivity.
    + reflexivity.
    + rewrite signed_proofType. unfold schemeMatches.
      destruct (signingType =? "ed25519")%string; apply String.eqb_neq in Hkt;
        rewrite Hkt; cbn [andb orb strict_eq_string String.eqb Ascii.eqb Bool.eqb];
        now rewrite ?andb_false_r.
Qed.

Lemma other_key_types_refuse_issued_credential_witness :
  (exists credential,
      outcome_of
        (@issueVerifiableCredential Mock.platform Mock.now Mock.uuid
           Mock.registeredDid Mock.subjectDid "IdentityCredential" Mock.claims
           (Hex.encode Mock.seed) "rsa") = Returns credential
      /\ @verifyVerifiableCredential Mock.platform credential
           (Hex.encode (x02 :: rev Mock.seed)) "rsa"
         = (Returns
              {| verified := false;
                 issuer := VStr Mock.registeredDid;
                 subject := VStr Mock.subjectDid;
                 issuanceDate := VStr Mock.now;
                 errors := Some ["Unsupported signature type or key mismatch";
                                 "Invalid signature"] |}, []))
  /\ (exists credential,
        outcome_of
          (@issueVerifiableCredential Mock.platform Mock.now Mock.uuid
             "" Mock.subjectDid "IdentityCredential" Mock.claims
             (Hex.encode Mock.seed) "ed25519") = Returns credential
        /\ @verifyVerifiableCredential Mock.platform credential
             (Hex.encode (x02 :: rev Mock.seed)) "secp256k1"
           = (Returns
                {| verified := false;
                   issuer := VStr "";
                   subject := VStr Mock.subjectDid;
                   issuanceDate := VStr Mock.now;
                   errors := Some ["Invalid credential structure"] |}, [])).
Proof.
  split.
  - assert (Hex : exists credential,
               outcome_of
                 (@issueVerifiableCredential Mock.platform Mock.now Mock.uuid
                    Mock.registeredDid Mock.subjectDid "IdentityCredential"
                    Mock.claims (Hex.encode Mock.seed) "rsa")
               = Returns credential)
      by (eexists; vm_compute; reflexivity).
    destruct Hex as [credential Hissue].
    exists credential. split; [exact Hissue|].
    rewrite (other_key_types_refuse_issued_credential Mock.platform Mock.now
               Mock.uuid Mock.registeredDid Mock.subjectDid "IdentityCredential"
               Mock.claims (Hex.encode Mock.seed) "rsa" credential
               (Hex.encode (x02 :: rev Mock.seed)) "rsa" Hissue);
      [reflexivity | cbn; discriminate].
  - assert (Hex : exists credential,
               outcome_of
                 (@issueVerifiableCredential Mock.platform Mock.now Mock.uuid
                    "" Mock.subjectDid "IdentityCredential"
                    Mock.claims (Hex.encode Mock.seed) "ed25519")
               = Returns credential)
      by (eexists; vm_compute; reflexivity).
    destruct Hex as [credential Hissue].
    exists credential. split; [exact Hissue|].
    rewrite (other_key_types_refuse_issued_credential Mock.platform Mock.now
               Mock.uuid "" Mock.subjectDid "IdentityCredential"
               Mock.claims (Hex.encode Mock.seed) "ed25519" credential
               (Hex.encode (x02 :: rev Mock.seed)) "secp256k1" Hissue);
      [reflexivity | cbn; discriminate].
Defined.

(** ** Calls of the curve package *)

(** X6: A verification never signs, and calls the curve package at most once:
    the verifying primitive of the scheme the key type names, on the bytes
    of the credential without its proof and the hex-decoded key. *)
Theorem verification_calls_one_primitive_at_most (P : Platform)
  (credential : object) (issuerPublicKey keyType : string) :
  snd (verifyVerifiableCredential credential issuerPublicKey keyType) = []
  \/ exists signature,
       (keyType = "ed25519" \/ keyType = "secp256k1")
       /\ snd (verifyVerifiableCredential credential issuerPublicKey keyType)
          = [VerifyCall keyType signature (verifiedMessage credential)
               (Hex.decode issuerPublicKey)].
Proof.
  destruct (structureInvalid credential || proofMissing credential) eqn:Hearly.
  - left. now rewrite verify_rejects_early.
  - apply orb_false_iff in Hearly as [Hs Hm].
    pose proof Hm as Hm'. unfold proofMissing in Hm'.
    apply orb_false_iff in Hm' as [_ Hv]. apply negb_false_iff in Hv.
    destruct (substring_of_truthy _ Hv) as [[pv Hpv] | [e He]].
    2:{ left. now rewrite (verify_not_a_string _ _ _ e). }
    rewrite (verify_string_proof _ _ _ pv) by assumption.
    destruct ((keyType =? "ed25519")%string
              && strict_eq_string (proofTypeOf credential)
                   "Ed25519Signature2020") eqn:Hed;
      [|destruct ((keyType =? "secp256k1")%string
                  && strict_eq_string (proofTypeOf credential)
                       "EcdsaSecp256k1Signature2019") eqn:Hec].
    + apply andb_true_iff in Hed as [Hkt _]. apply String.eqb_eq in Hkt.
      right. exists (signatureBytesOf pv). subst keyType. split; [now left|].
      reflexivity.
    + apply andb_true_iff in Hec as [Hkt _]. apply String.eqb_eq in Hkt.
      right. exists (signatureBytesOf pv). subst keyType. split; [now right|].
      reflexivity.
    + now left.
Qed.

(** ** Keys as hex text *)

(** X7: The hex text a generated key pair carries decodes, the way issuance
    and verification decode it, to the key bytes of the pair, for both
    schemes. *)
Theorem generated_keys_survive_hex (P : Platform) (seed : bytes) (kp : KeyPair) :
  generateEd25519KeyPair seed = Returns kp
  \/ generateSecp256k1KeyPair seed = Returns kp ->
  Hex.decode (publicKeyHex kp) = publicKey kp
  /\ Hex.decode (privateKeyHex kp) = privateKey kp
  /\ privateKey kp = seed
  /\ String.length (publicKeyHex kp) = (2 * List.length (publicKey kp))%nat.
Proof.
  assert (Hlen : forall b, String.length (Hex.encode b) = (2 * List.length b)%nat).
  { induction b as [|x b IH]; [reflexivity|].
    change (Hex.encode (x :: b))
      with (String (Hex.digit (Byte.to_N x / 16))
              (String (Hex.digit (Byte.to_N x mod 16)) (Hex.encode b))).
    cbn [String.length List.length]. rewrite IH. lia. }
  intros [H | H].
  - unfold generateEd25519KeyPair in H.
    destruct (ed25519_getPublicKey seed); inversion H; subst.
    cbn [publicKey privateKey publicKeyHex privateKeyHex].
    now rewrite !hex_decode_encode, Hlen.
  - unfold generateSecp256k1KeyPair in H.
    destruct (secp256k1_getPublicKey seed); inversion H; subst.
    cbn [publicKey privateKey publicKeyHex privateKeyHex].
    now rewrite !hex_decode_encode, Hlen.
Qed.

Lemma generated_keys_survive_hex_witness :
  Hex.decode (publicKeyHex Mock.registeredKeys) = publicKey Mock.registeredKeys
  /\ Hex.decode (privateKeyHex Mock.registeredKeys) = Mock.seed.
Proof.
  assert (H : @generateEd25519KeyPair Mock.platform Mock.seed
              = Returns Mock.registeredKeys) by reflexivity.
  destruct (generated_keys_survive_hex Mock.platform Mock.seed
              Mock.registeredKeys (or_introl H)) as (Hpk & Hsk & Hseed & _).
  split; [exact Hpk|]. now rewrite Hsk.
Defined.

(** ** Leading digits *)

Section LeadingDigits.

Variable radix : N.
Hypothesis radix_ok : 2 <= radix.

Lemma fixed_digits_length (len : nat) (x : N) :
  List.length (fixed_digits radix len x) = len.
Proof.
  revert x. induction len as [|k IH]; intros x; cbn [fixed_digits].
  - reflexivity.
  - rewrite length_app, IH. cbn. lia.
Qed.

Lemma fixed_digits_below (len : nat) (x : N) :
  digits_below radix (fixed_digits radix len x).
Proof.
  revert x. induction len as [|k IH]; intros x; cbn [fixed_digits].
  - constructor.
  - apply Forall_app. split; [apply IH|].
    constructor; [apply N.mod_lt; lia | constructor].
Qed.

Lemma fixed_digits_value (len : nat) (x : N) :
  be_value radix (fixed_digits radix len x) = x mod radix ^ N.of_nat len.
Proof.
  revert x. induction len as [|k IH]; intros x; cbn [fixed_digits].
  - cbn. now rewrite N.mod_1_r.
  - rewrite be_value_app, IH.
    rewrite Nat2N.inj_succ, N.pow_succ_r', N.Div0.mod_mul_r. lia.
Qed.

Lemma be_value_from (l : list N) (acc : N) :
  fold_left (fun a d => a * radix + d) l acc
  = acc * radix ^ N.of_nat (List.length l) + be_value radix l.
Proof.
  unfold be_value. revert acc.
  induction l as [|d l IH]; intros acc; cbn [fold_left List.length].
  - cbn. lia.
  - rewrite IH, (IH (0 * radix + d)), Nat2N.inj_succ, N.pow_succ_r'. lia.
Qed.

Lemma be_value_concat (l1 l2 : list N) :
  be_value radix (l1 ++ l2)
  = be_value radix l1 * radix ^ N.of_nat (List.length l2) + be_value radix l2.
Proof.
  unfold be_value at 1. rewrite fold_left_app. apply be_value_from.
Qed.

Lemma be_value_bound (l : list N) :
  digits_below radix l -> be_value radix l < radix ^ N.of_nat (List.length l).
Proof.
  induction l as [|d l IH] using rev_ind; intros Hl.
  - cbn. lia.
  - apply Forall_app in Hl as [Hl Hd]. inversion Hd; subst.
    rewrite be_value_app, length_app. cbn [List.length].
    rewrite Nat.add_1_r, Nat2N.inj_succ, N.pow_succ_r'.
    specialize (IH Hl). nia.
Qed.

(** A digit list without a leading zero whose number lies between
    [top * radix ^ n] and the next multiple starts with the digits of
    [top] and goes on for [n] digits. *)
Lemma leading_digits (top digits : list N) (n : nat) :
  top <> [] -> hd 1 top <> 0 -> digits_below radix top ->
  hd 1 digits <> 0 -> digits_below radix digits ->
  be_value radix top * radix ^ N.of_nat n <= be_value radix digits ->
  be_value radix digits < (be_value radix top + 1) * radix ^ N.of_nat n ->
  digits
  = top ++ fixed_digits radix n
             (be_value radix digits - be_value radix top * radix ^ N.of_nat n).
Proof.
  intros Hne Htop Hbelow Hhead Hdigits Hlo Hhi.
  apply be_value_inj with (radix := radix); try assumption.
  - apply Forall_app. split; [exact Hbelow | apply fixed_digits_below].
  - destruct top; [congruence | exact Htop].
  - rewrite be_value_concat, fixed_digits_length, fixed_digits_value.
    rewrite N.mod_small by lia. lia.
Qed.

End LeadingDigits.

(** ** The first characters of an identifier *)

Lemma base58_chars_app (l1 l2 : list N) :
  Base58btc.chars (l1 ++ l2)
  = (Base58btc.chars l1 ++ Base58btc.chars l2)%string.
Proof.
  induction l1 as [|d l1 IH]; [reflexivity|].
  cbn [app Base58btc.chars String.append]. now rewrite IH.
Qed.

Lemma base58_chars_length (l : list N) :
  String.length (Base58btc.chars l) = List.length l.
Proof.
  induction l as [|d l IH]; [reflexivity|].
  cbn [Base58btc.chars String.length List.length]. now rewrite IH.
Qed.

(** The digits of the multibase text of a key whose bytes start with a
    byte other than zero. *)
Lemma encode_digits (first : byte) (rest : bytes) :
  Byte.to_N first <> 0 ->
  exists digits,
    Base58btc.encode (first :: rest) = String "z" (Base58btc.chars digits)
    /\ hd 1 digits <> 0
    /\ digits_below 58 digits
    /\ be_value 58 digits = be_value 256 (map Byte.to_N (first :: rest)).
Proof.
  intros Hfirst.
  exists (BaseX.skip_zeros
            (rev (fold_left (BaseX.muladd 256 58)
                    (map Byte.to_N (first :: rest)) []))).
  split; [|split; [|split]].
  - unfold Base58btc.encode, BaseX.convert. cbn [map].
    destruct (Byte.to_N first) eqn:Hf; [congruence|].
    reflexivity.
  - apply skip_zeros_head.
  - apply convert_body_below; lia.
  - apply convert_body_value; lia.
Qed.

Lemma did_of_digits (keyType : string) (pk : bytes) (top tail digits : list N) :
  Base58btc.encode (multicodecPrefix keyType ++ pk)
  = String "z" (Base58btc.chars digits) ->
  digits = top ++ tail ->
  didKey keyType pk
  = ("did:key:z" ++ Base58btc.chars top ++ Base58btc.chars tail)%string
  /\ String.length (didKey keyType pk)
     = (9 + List.length top + List.length tail)%nat.
Proof.
  intros Henc ->.
  unfold didKey. rewrite publicKeyMultibase_is_encode, Henc.
  rewrite base58_chars_app. split; [reflexivity|].
  cbn [String.append String.length].
  rewrite <- base58_chars_app, base58_chars_length, length_app.
  lia.
Qed.

(** X8: An Ed25519 identifier of a 32-byte public key starts with
    [did:key:z6Mk] and is 56 characters long. *)
Theorem ed25519_identifier_starts_with_z6Mk (P : Platform) (seed : bytes)
  (g : GeneratedDid) :
  generateDidKey "ed25519" seed = Returns g ->
  List.length (publicKey (keyPair g)) = 32%nat ->
  startsWith "did:key:z6Mk" (did g) = true
  /\ String.length (did g) = 56%nat.
Proof.
  intros Hgen Hlen.
  apply generated_did in Hgen as [-> _].
  set (pk := publicKey (keyPair g)) in *.
  destruct (encode_digits xed (x01 :: pk)) as (digits & Henc & Hhead & Hbelow & Hval);
    [discriminate|].
  assert (Hpk : be_value 256 (map Byte.to_N pk) < 256 ^ 32).
  { pose proof (be_value_bound 256 ltac:(lia) (map Byte.to_N pk)
                  (to_N_digits_below pk)) as Hb.
    rewrite length_map, Hlen in Hb. exact Hb. }
  assert (Hsplit : be_value 256 (map Byte.to_N (xed :: x01 :: pk))
                   = 60673 * 256 ^ 32 + be_value 256 (map Byte.to_N pk)).
  { change (map Byte.to_N (xed :: x01 :: pk))
      with ([237; 1] ++ map Byte.to_N pk).
    rewrite (be_value_concat 256), length_map, Hlen by lia. reflexivity. }
  assert (Hlo : 18023 * 58 ^ 44 <= 60673 * 256 ^ 32)
    by (apply N.leb_le; vm_compute; reflexivity).
  assert (Hhi : 60674 * 256 ^ 32 <= 18024 * 58 ^ 44)
    by (apply N.leb_le; vm_compute; reflexivity).
  assert (Hdigits :
    digits = [5; 20; 43]
             ++ fixed_digits 58 44
                  (be_value 58 digits
                   - be_value 58 [5; 20; 43] * 58 ^ N.of_nat 44)).
  { apply leading_digits; try assumption; try lia; try discriminate.
    - repeat constructor.
    - change (be_value 58 [5; 20; 43]) with 18023.
      change (N.of_nat 44) with 44. rewrite Hval, Hsplit. lia.
    - change (be_value 58 [5; 20; 43]) with 18023.
      change (N.of_nat 44) with 44. rewrite Hval, Hsplit. lia. }
  destruct (did_of_digits "ed25519" pk [5; 20; 43] _ digits Henc Hdigits)
    as [Hdid Hlength].
  rewrite fixed_digits_length in Hlength by lia.
  split; [|exact Hlength].
  rewrite Hdid. reflexivity.
Qed.

Lemma ed25519_identifier_starts_with_z6Mk_witness :
  startsWith "did:key:z6Mk" (did Mock.registered) = true
  /\ String.length (did Mock.registered) = 56%nat.
Proof.
  apply (ed25519_identifier_starts_with_z6Mk Mock.platform Mock.seed
           Mock.registered mock_registers).
  reflexivity.
Defined.

(** X9: A secp256k1 identifier of a compressed public key (a tag byte [02] or
    [03] and 32 bytes) starts with [did:key:zQ3sh] and is 57 characters
    long. *)
Theorem secp256k1_identifier_starts_with_zQ3sh (P : Platform)
  (keyType : string) (seed : bytes) (g : GeneratedDid) (tag : byte)
  (rest : bytes) :
  keyType <> "ed25519" ->
  generateDidKey keyType seed = Returns g ->
  publicKey (keyPair g) = tag :: rest ->
  tag = x02 \/ tag = x03 ->
  List.length rest = 32%nat ->
  startsWith "did:key:zQ3sh" (did g) = true
  /\ String.length (did g) = 57%nat.
Proof.
  intros Hkt Hgen Hpk Htag Hlen.
  apply generated_did in Hgen as [-> _]. rewrite Hpk.
  assert (Hprefix : multicodecPrefix keyType = [xe7; x01]).
  { unfold multicodecPrefix. apply String.eqb_neq in Hkt. now rewrite Hkt. }
  destruct (encode_digits xe7 (x01 :: tag :: rest))
    as (digits & Henc & Hhead & Hbelow & Hval); [discriminate|].
  assert (Hrest : be_value 256 (map Byte.to_N rest) < 256 ^ 32).
  { pose proof (be_value_bound 256 ltac:(lia) (map Byte.to_N rest)
                  (to_N_digits_below rest)) as Hb.
    rewrite length_map, Hlen in Hb. exact Hb. }
  assert (Hsplit : be_value 256 (map Byte.to_N (xe7 :: x01 :: tag :: rest))
                   = (15139072 + Byte.to_N tag) * 256 ^ 32
                     + be_value 256 (map Byte.to_N rest)).
  { change (map Byte.to_N (xe7 :: x01 :: tag :: rest))
      with ([231; 1; Byte.to_N tag] ++ map Byte.to_N rest).
    rewrite (be_value_concat 256), length_map, Hlen by lia.
    change (N.of_nat 32) with 32.
    replace (be_value 256 [231; 1; Byte.to_N tag])
      with (15139072 + Byte.to_N tag) by (unfold be_value; cbn [fold_left]; lia).
    reflexivity. }
  assert (Htag' : Byte.to_N tag = 2 \/ Byte.to_N tag = 3)
    by (destruct Htag as [-> | ->]; [left | right]; reflexivity).
  assert (Hlo : 4497244 * 58 ^ 44 <= 15139074 * 256 ^ 32)
    by (apply N.leb_le; vm_compute; reflexivity).
  assert (Hhi : 15139076 * 256 ^ 32 <= 4497245 * 58 ^ 44)
    by (apply N.leb_le; vm_compute; reflexivity).
  assert (Hdigits :
    digits = [23; 2; 50; 40]
             ++ fixed_digits 58 44
                  (be_value 58 digits
                   - be_value 58 [23; 2; 50; 40] * 58 ^ N.of_nat 44)).
  { apply leading_digits; try assumption; try lia; try discriminate.
    - repeat constructor.
    - change (be_value 58 [23; 2; 50; 40]) with 4497244.
      change (N.of_nat 44) with 44. rewrite Hval, Hsplit. nia.
    - change (be_value 58 [23; 2; 50; 40]) with 4497244.
      change (N.of_nat 44) with 44. rewrite Hval, Hsplit. nia. }
  assert (Henc' : Base58btc.encode (multicodecPrefix keyType ++ tag :: rest)
                  = String "z" (Base58btc.chars digits))
    by (rewrite Hprefix; exact Henc).
  destruct (did_of_digits keyType (tag :: rest) [23; 2; 50; 40] _ digits
              Henc' Hdigits) as [Hdid Hlength].
  rewrite fixed_digits_length in Hlength by lia.
  split; [|exact Hlength].
  rewrite Hdid. reflexivity.
Qed.

Lemma sample_registers_secp256k1 :
  @generateDidKey Mock.platform "secp256k1" Mock.seed
  = Returns Sample.secpRegistered.
Proof. vm_compute. reflexivity. Qed.

Lemma secp256k1_identifier_starts_with_zQ3sh_witness :
  startsWith "did:key:zQ3sh" (did Sample.secpRegistered) = true
  /\ String.length (did Sample.secpRegistered) = 57%nat.
Proof.
  apply (secp256k1_identifier_starts_with_zQ3sh Mock.platform "secp256k1"
           Mock.seed Sample.secpRegistered x02 (rev Mock.seed)).
  - discriminate.
  - exact sample_registers_secp256k1.
  - reflexivity.
  - now left.
  - reflexivity.
Defined.

(** ** Maps *)

Section MapFacts.

Context {K V : Type}.
Variable same : K -> K -> bool.

Lemma map_get_set_same (m : list (K * V)) (k : K) (v : V) :
  same k k = true -> JsMap.get same (JsMap.set same m k v) k = Some v.
Proof.
  intros Hk. induction m as [|[k' v'] m IH]; cbn [JsMap.set JsMap.get].
  - now rewrite Hk.
  - destruct (same k' k) eqn:Hsame; cbn [JsMap.get]; now rewrite Hsame.
Qed.

Lemma map_keys_set (m : list (K * V)) (k : K) (v : V) :
  map fst (JsMap.set same m k v)
  = match JsMap.get same m k with
    | Some _ => map fst m
    | None => map fst m ++ [k]
    end.
Proof.
  induction m as [|[k' v'] m IH]; cbn [JsMap.set JsMap.get]; [reflexivity|].
  destruct (same k' k); cbn [map fst]; [reflexivity|].
  rewrite IH. now destruct (JsMap.get same m k).
Qed.

Lemma map_length_set (m : list (K * V)) (k : K) (v : V) :
  List.length (JsMap.set same m k v)
  = match JsMap.get same m k with
    | Some _ => List.length m
    | None => S (List.length m)
    end.
Proof.
  rewrite <- (length_map fst), map_keys_set.
  destruct (JsMap.get same m k); rewrite ?length_app, length_map; cbn; lia.
Qed.

(** The values after [set]: the old ones, with the one under the key
    replaced, or the new one added last. *)
Lemma map_values_set (m : list (K * V)) (k : K) (v : V) (x : V) :
  In x (JsMap.values (JsMap.set same m k v)) ->
  x = v \/ In x (JsMap.values m).
Proof.
  unfold JsMap.values.
  induction m as [|[k' v'] m IH]; cbn [JsMap.set map snd In].
  - intros [H | []]. now left.
  - destruct (same k' k); cbn [map snd In].
    + intros [H | H]; [now left | right; now right].
    + intros [H | H]; [right; now left|].
      destruct (IH H) as [Hv | Hin]; [now left | right; now right].
Qed.

End MapFacts.

(** ** The store *)

Lemma filed_set (m : list (string * Did)) (row : Did) :
  filed m -> filed (JsMap.set String.eqb m (did_did row) row).
Proof.
  intros [Hrows Hkeys]. split.
  - clear Hkeys. induction Hrows as [|kr m Hkr Hm IH]; cbn [JsMap.set].
    + now repeat constructor.
    + destruct kr as [k r].
      destruct (String.eqb_spec k (did_did row)) as [->|Hne].
      * now constructor.
      * now constructor.
  - rewrite map_keys_set.
    destruct (JsMap.get String.eqb m (did_did row)) eqn:Hget; [exact Hkeys|].
    apply NoDup_app; [exact Hkeys | repeat constructor; intros [] |].
    intros k Hin [Hk | []]. subst k.
    clear Hrows Hkeys.
    induction m as [|[k' r'] m IH]; [contradiction|].
    cbn [JsMap.get] in Hget. cbn [map fst In] in Hin.
    destruct (String.eqb_spec k' (did_did row)) as [Heq|Hne]; [discriminate|].
    destruct Hin as [Heq | Hin]; [congruence | now apply IH].
Qed.

Lemma reachable_filed (s : MemStorage) : reachable s -> filed (dids s).
Proof.
  induction 1 as [|s didData now Hs IH|s vcData now Hs IH].
  - split; constructor.
  - apply (filed_set (dids s) (fst (createDid s didData now))). exact IH.
  - exact IH.
Qed.

Lemma find_filed (m : list (string * Did)) (x : string) :
  Forall (fun kr => did_did (snd kr) = fst kr) m ->
  find (fun d => strict_eq_string (VStr x) (did_did d)) (JsMap.values m)
  = JsMap.get String.eqb m x.
Proof.
  unfold JsMap.values.
  induction 1 as [|kr m Hkr Hm IH]; [reflexivity|].
  destruct kr as [k r]. cbn [map snd find JsMap.get].
  cbn [snd fst] in Hkr. cbn [strict_eq_string]. rewrite Hkr, String.eqb_sym.
  now destruct (k =? x)%string.
Qed.

Lemma getDid_not_a_string (s : MemStorage) (v : value) :
  (forall x, v <> VStr x) -> getDid s v = None.
Proof.
  intros Hv. unfold getDid.
  induction (getAllDids s) as [|d l IH]; [reflexivity|].
  cbn [find]. destruct v; cbn [strict_eq_string]; try exact IH.
  now destruct (Hv s0).
Qed.

Lemma getDid_keyed (s : MemStorage) (x : string) :
  reachable s -> getDid s (VStr x) = JsMap.get String.eqb (dids s) x.
Proof.
  intros Hs. destruct (reachable_filed s Hs) as [Hrows _].
  unfold getDid, getAllDids. now apply find_filed.
Qed.

(** X10: [getDid] scans every row, yet it finds what the map holds under the
    key; and no two rows have the same [did]. *)
Theorem getDid_is_keyed_lookup (s : MemStorage) :
  reachable s ->
  (forall x, getDid s (VStr x) = JsMap.get String.eqb (dids s) x)
  /\ NoDup (map did_did (getAllDids s)).
Proof.
  intros Hs. split.
  - intros x. now apply getDid_keyed.
  - destruct (reachable_filed s Hs) as [Hrows Hkeys].
    unfold getAllDids, JsMap.values. rewrite map_map.
    replace (map (fun kr => did_did (snd kr)) (dids s)) with (map fst (dids s));
      [exact Hkeys|].
    clear Hkeys. induction Hrows as [|kr m Hkr Hm IH]; [reflexivity|].
    cbn [map]. now rewrite Hkr, IH.
Qed.

Lemma map_get_set_other (m : list (string * Did)) (k k' : string) (v : Did) :
  k <> k' ->
  JsMap.get String.eqb (JsMap.set String.eqb m k v) k'
  = JsMap.get String.eqb m k'.
Proof.
  intros Hne. induction m as [|[k0 v0] m IH]; cbn [JsMap.set JsMap.get].
  - apply String.eqb_neq in Hne. now rewrite Hne.
  - destruct (String.eqb_spec k0 k) as [->|Hk]; cbn [JsMap.get].
    + apply String.eqb_neq in Hne. now rewrite Hne.
    + now rewrite IH.
Qed.

Lemma getDid_created (s : MemStorage) (didData : InsertDid) (now : string) :
  reachable s ->
  getDid (snd (createDid s didData now)) (VStr (ins_did didData))
  = Some (fst (createDid s didData now)).
Proof.
  intros Hs.
  rewrite getDid_keyed by now apply reachable_createDid.
  cbn [createDid snd fst dids did_did].
  apply map_get_set_same. apply String.eqb_refl.
Qed.

Lemma getDid_elsewhere (s : MemStorage) (didData : InsertDid) (now : string)
  (v : value) :
  reachable s ->
  v <> VStr (ins_did didData) ->
  getDid (snd (createDid s didData now)) v = getDid s v.
Proof.
  intros Hs Hv.
  destruct v; try (rewrite !getDid_not_a_string by discriminate; reflexivity).
  rewrite getDid_keyed by now apply reachable_createDid.
  rewrite getDid_keyed by exact Hs.
  cbn [createDid snd dids did_did].
  apply map_get_set_other. congruence.
Qed.

(** X11: A row that was created is found under its [did], and the rows under
    every other identifier are the ones that were there. *)
Theorem created_did_is_found (s : MemStorage) (didData : InsertDid)
  (now : string) :
  reachable s ->
  getDid (snd (createDid s didData now)) (VStr (ins_did didData))
  = Some (fst (createDid s didData now))
  /\ (forall v, v <> VStr (ins_did didData) ->
                getDid (snd (createDid s didData now)) v = getDid s v).
Proof.
  intros Hs. split.
  - now apply getDid_created.
  - intros v Hv. now apply getDid_elsewhere.
Qed.

Lemma sample_store_reachable : reachable Sample.store.
Proof. apply reachable_createDid, reachable_new. Qed.

Lemma getDid_is_keyed_lookup_witness :
  getDid Sample.store (VStr (did Mock.registered))
  = JsMap.get String.eqb (dids Sample.store) (did Mock.registered)
  /\ NoDup (map did_did (getAllDids Sample.store)).
Proof.
  destruct (getDid_is_keyed_lookup Sample.store sample_store_reachable)
    as [Hkeyed Hnodup].
  split; [apply Hkeyed | exact Hnodup].
Defined.

Lemma created_did_is_found_witness :
  getDid (snd (createDid Sample.store Sample.secpRow Mock.now))
    (VStr (did Sample.secpRegistered))
  = Some (fst (createDid Sample.store Sample.secpRow Mock.now))
  /\ getDid (snd (createDid Sample.store Sample.secpRow Mock.now))
       (VStr (did Mock.registered))
     = getDid Sample.store (VStr (did Mock.registered)).
Proof.
  destruct (created_did_is_found Sample.store Sample.secpRow Mock.now
              sample_store_reachable) as [Hfound Hframe].
  split; [exact Hfound|].
  apply Hframe. intros H. vm_compute in H. discriminate.
Defined.

(** ** Row numbers *)

Lemma increment_bounds (n : N) :
  n <= 2 ^ 53 -> n <= increment n <= 2 ^ 53
  /\ (increment n < 2 ^ 53 -> increment n = n + 1).
Proof.
  unfold increment. intros Hn.
  destruct (N.ltb_spec n (2 ^ 53)); lia.
Qed.

Section Numbering.

Context {K V : Type}.
Variable same : K -> K -> bool.
Variable number : V -> N.

Lemma numbers_after_set (m : list (K * V)) (k : K) (v : V) :
  ~ In (number v) (map number (JsMap.values m)) ->
  NoDup (map number (JsMap.values m)) ->
  NoDup (map number (JsMap.values (JsMap.set same m k v))).
Proof.
  unfold JsMap.values.
  induction m as [|[k' v'] m IH]; cbn [JsMap.set map snd]; intros Hnew Hm.
  - repeat constructor. intros [].
  - inversion Hm as [|? ? Hv' Hrest]; subst.
    destruct (same k' k); cbn [map snd].
    + constructor; [|exact Hrest]. intros Hin. apply Hnew. now right.
    + constructor.
      * intros Hin. apply in_map_iff in Hin as (x & Hx & Hin).
        apply (map_values_set same) in Hin as [-> | Hin].
        -- apply Hnew. left. now symmetry.
        -- apply Hv'. rewrite <- Hx. unfold JsMap.values in Hin.
           now apply in_map.
      * apply IH; [|exact Hrest]. intros Hin. apply Hnew. now right.
Qed.

Lemma numbers_below_after_set (m : list (K * V)) (k : K) (v : V) (bound : N) :
  number v < bound ->
  Forall (fun x => number x < bound) (JsMap.values m) ->
  Forall (fun x => number x < bound) (JsMap.values (JsMap.set same m k v)).
Proof.
  intros Hv Hm. apply Forall_forall. intros x Hin.
  apply (map_values_set same) in Hin as [-> | Hin]; [exact Hv|].
  rewrite Forall_forall in Hm. now apply Hm.
Qed.

End Numbering.

Lemma below_not_in {A} (number : A -> N) (l : list A) (bound : N) :
  Forall (fun x => number x < bound) l -> ~ In bound (map number l).
Proof.
  intros Hl Hin. apply in_map_iff in Hin as (x & Hx & Hin).
  rewrite Forall_forall in Hl. specialize (Hl x Hin). lia.
Qed.

Lemma reachable_numbered (s : MemStorage) : reachable s -> numbered s.
Proof.
  induction 1 as [|s didData now Hs IH|s vcData now Hs IH].
  - repeat split; cbn; try constructor; try lia;
      apply N.leb_le; vm_compute; reflexivity.
  - destruct IH as (Hd & Hv & Hdids & Hvcs).
    destruct (increment_bounds _ Hd) as [Hinc Hsucc].
    split; [|split; [|split]]; cbn [createDid snd currentDidId currentVcId];
      try lia; try exact Hvcs.
    intros Hlt. specialize (Hsucc Hlt).
    destruct Hdids as [Hbelow Hnodup]; [lia|].
    unfold getAllDids. cbn [dids]. split.
    + apply numbers_below_after_set; [cbn; lia|].
      eapply Forall_impl; [|exact Hbelow]. cbn. intros; lia.
    + apply numbers_after_set; [|exact Hnodup].
      cbn [did_id]. now apply below_not_in.
  - destruct IH as (Hd & Hv & Hdids & Hvcs).
    destruct (increment_bounds _ Hv) as [Hinc Hsucc].
    split; [|split; [|split]]; cbn [createVc snd currentDidId currentVcId];
      try lia; try exact Hdids.
    intros Hlt. specialize (Hsucc Hlt).
    destruct Hvcs as [Hbelow Hnodup]; [lia|].
    unfold getAllVcs. cbn [vcs]. split.
    + apply numbers_below_after_set; [cbn; lia|].
      eapply Forall_impl; [|exact Hbelow]. cbn. intros; lia.
    + apply numbers_after_set; [|exact Hnodup].
      cbn [vc_id]. now apply below_not_in.
Qed.

(** X12: As long as a counter is below [2 ^ 53], the rows it numbered have
    different numbers, all below the counter: the next number is new. *)
Theorem row_numbers_are_distinct (s : MemStorage) :
  reachable s ->
  (currentDidId s < 2 ^ 53 ->
   NoDup (map did_id (getAllDids s))
   /\ Forall (fun r => did_id r < currentDidId s) (getAllDids s))
  /\ (currentVcId s < 2 ^ 53 ->
      NoDup (map vc_id (getAllVcs s))
      /\ Forall (fun r => vc_id r < currentVcId s) (getAllVcs s)).
Proof.
  intros Hs. destruct (reachable_numbered s Hs) as (_ & _ & Hdids & Hvcs).
  split; intros Hlt; [destruct (Hdids Hlt) | destruct (Hvcs Hlt)]; now split.
Qed.

Lemma row_numbers_are_distinct_witness :
  NoDup (map did_id (getAllDids Sample.store))
  /\ Forall (fun r => did_id r < currentDidId Sample.store)
       (getAllDids Sample.store).
Proof.
  apply (proj1 (row_numbers_are_distinct Sample.store sample_store_reachable)).
  apply N.ltb_lt. vm_compute. reflexivity.
Defined.

(** ** The order of rows *)

Lemma filed_dids (m : list (string * Did)) :
  Forall (fun kr => did_did (snd kr) = fst kr) m ->
  map did_did (JsMap.values m) = map fst m.
Proof.
  unfold JsMap.values.
  induction 1 as [|kr m Hkr Hm IH]; [reflexivity|].
  cbn [map]. now rewrite Hkr, IH.
Qed.

(** X13: Creating a row under an identifier that is stored already replaces
    that row where it stands; under a new identifier the row goes last.
    Either way the identifiers that were there keep their order, so the
    first one stays first. *)
Theorem createDid_keeps_the_order (s : MemStorage) (didData : InsertDid)
  (now : string) :
  reachable s ->
  map did_did (getAllDids (snd (createDid s didData now)))
  = match getDid s (VStr (ins_did didData)) with
    | Some _ => map did_did (getAllDids s)
    | None => map did_did (getAllDids s) ++ [ins_did didData]
    end.
Proof.
  intros Hs.
  pose proof (reachable_createDid s didData now Hs) as Hs'.
  destruct (reachable_filed _ Hs) as [Hrows _].
  destruct (reachable_filed _ Hs') as [Hrows' _].
  unfold getAllDids.
  rewrite (filed_dids _ Hrows'), (filed_dids _ Hrows), (getDid_keyed _ _ Hs).
  cbn [createDid snd dids did_did]. apply map_keys_set.
Qed.

Lemma createDid_keeps_the_order_witness :
  map did_did (getAllDids (snd (createDid Sample.store Sample.row "later")))
  = [did Mock.registered]
  /\ map did_did (getAllDids (snd (createDid Sample.store Sample.secpRow "later")))
     = [did Mock.registered; did Sample.secpRegistered].
Proof.
  split.
  - rewrite (createDid_keeps_the_order Sample.store Sample.row "later"
               sample_store_reachable).
    reflexivity.
  - rewrite (createDid_keeps_the_order Sample.store Sample.secpRow "later"
               sample_store_reachable).
    vm_compute. reflexivity.
Defined.

(** ** Stored credentials *)

Lemma same_value_zero_sym (a b : value) :
  same_value_zero a b = same_value_zero b a.
Proof.
  destruct a, b; cbn; try reflexivity.
  - now destruct b, b0.
  - destruct (QArith_base.Qeq_bool q q0) eqn:H1,
             (QArith_base.Qeq_bool q0 q) eqn:H2; try reflexivity.
    + apply QArith_base.Qeq_bool_iff in H1.
      apply QArith_base.Qeq_sym in H1.
      apply QArith_base.Qeq_bool_iff in H1. congruence.
    + apply QArith_base.Qeq_bool_iff in H2.
      apply QArith_base.Qeq_sym in H2.
      apply QArith_base.Qeq_bool_iff in H2. congruence.
  - apply String.eqb_sym.
Qed.

Lemma same_value_zero_trans (a b c : value) :
  same_value_zero a b = true -> same_value_zero b c = true ->
  same_value_zero a c = true.
Proof.
  destruct a, b, c; cbn; try discriminate; try reflexivity.
  - now destruct b, b0, b1.
  - intros H1 H2. apply QArith_base.Qeq_bool_iff in H1, H2.
    apply QArith_base.Qeq_bool_iff. now apply QArith_base.Qeq_trans with q0.
  - intros H1 H2. apply String.eqb_eq in H1, H2. subst. apply String.eqb_refl.
Qed.

Lemma vcs_get_set_other (m : list (value * Vc)) (k k' : value) (v : Vc) :
  same_value_zero k k' = false ->
  JsMap.get same_value_zero (JsMap.set same_value_zero m k v) k'
  = JsMap.get same_value_zero m k'.
Proof.
  intros Hne. induction m as [|[k0 v0] m IH]; cbn [JsMap.set JsMap.get].
  - now rewrite Hne.
  - destruct (same_value_zero k0 k) eqn:Hk; cbn [JsMap.get].
    + destruct (same_value_zero k0 k') eqn:Hk'; [|reflexivity].
      rewrite same_value_zero_sym in Hk.
      now rewrite (same_value_zero_trans _ _ _ Hk Hk') in Hne.
    + now rewrite IH.
Qed.

(** X14: A credential row that was created is found under its id (a string);
    the rows under other ids, and every DID row, are the ones that were
    there. *)
Theorem created_vc_is_found (s : MemStorage) (vcData : InsertVc) (now : string) :
  (forall x, insvc_vcId vcData = VStr x ->
             getVc (snd (createVc s vcData now)) (VStr x)
             = Some (fst (createVc s vcData now)))
  /\ (forall k, same_value_zero (insvc_vcId vcData) k = false ->
                getVc (snd (createVc s vcData now)) k = getVc s k)
  /\ (forall v, getDid (snd (createVc s vcData now)) v = getDid s v).
Proof.
  split; [|split].
  - intros x Hx. unfold getVc. cbn [createVc snd fst vcs vc_vcId]. rewrite Hx.
    apply map_get_set_same. cbn. apply String.eqb_refl.
  - intros k Hk. unfold getVc. cbn [createVc snd vcs vc_vcId].
    now apply vcs_get_set_other.
  - reflexivity.
Qed.

Lemma created_vc_is_found_witness :
  getVc (snd (createVc Sample.store Sample.vcRow Mock.now))
    (VStr ("urn:uuid:" ++ Mock.uuid)%string)
  = Some (fst (createVc Sample.store Sample.vcRow Mock.now))
  /\ getVc (snd (createVc Sample.store Sample.vcRow Mock.now)) (VStr "urn:uuid:0")
     = getVc Sample.store (VStr "urn:uuid:0").
Proof.
  destruct (created_vc_is_found Sample.store Sample.vcRow Mock.now)
    as (Hfound & Hframe & _).
  split; [apply Hfound | apply Hframe]; reflexivity.
Defined.

(** ** Statistics *)

(** X15: The statistics count identifiers, not requests: creating a row under
    an identifier (or a credential id) that is stored already leaves the
    count as it was, and a new one adds one.  The verified count is the
    issued count. *)
Theorem stats_count_distinct_rows (s : MemStorage) (didData : InsertDid)
  (vcData : InsertVc) (now : string) :
  reachable s ->
  totalDids (getStats (snd (createDid s didData now)))
  = match getDid s (VStr (ins_did didData)) with
    | Some _ => totalDids (getStats s)
    | None => totalDids (getStats s) + 1
    end
  /\ vcsIssued (getStats (snd (createVc s vcData now)))
     = match getVc s (insvc_vcId vcData) with
       | Some _ => vcsIssued (getStats s)
       | None => vcsIssued (getStats s) + 1
       end
  /\ stats_verified (getStats s) = vcsIssued (getStats s)
  /\ activeKeys (getStats s) = totalDids (getStats s).
Proof.
  intros Hs. split; [|split; [|split; reflexivity]].
  - rewrite (getDid_keyed _ _ Hs).
    cbn [getStats totalDids createDid snd dids did_did]. unfold JsMap.size.
    rewrite map_length_set.
    destruct (JsMap.get String.eqb (dids s) (ins_did didData)); lia.
  - unfold getVc.
    cbn [getStats vcsIssued createVc snd vcs vc_vcId]. unfold JsMap.size.
    rewrite map_length_set.
    destruct (JsMap.get same_value_zero (vcs s) (insvc_vcId vcData)); lia.
Qed.

Lemma stats_count_distinct_rows_witness :
  reachable Sample.store
  /\ totalDids (getStats (snd (createDid Sample.store Sample.row "later"))) = 1
  /\ totalDids (getStats (snd (createDid Sample.store Sample.secpRow "later")))
     = 2.
Proof.
  split; [exact sample_store_reachable|]. split.
  - rewrite (proj1 (stats_count_distinct_rows Sample.store Sample.row
                      Sample.vcRow "later" sample_store_reachable)).
    reflexivity.
  - rewrite (proj1 (stats_count_distinct_rows Sample.store Sample.secpRow
                      Sample.vcRow "later" sample_store_reachable)).
    vm_compute. reflexivity.
Defined.

(** ** Requests and the store *)

Section Routes.

Context {P : Platform} {Z : Schemas}.

Lemma get_resolve_reads (d : string) (s : MemStorage) :
  snd (get_resolve d s) = s.
Proof.
  unfold get_resolve. destruct (_ || _); [reflexivity|].
  now destruct (getDid s (VStr d)).
Qed.

Lemma post_verify_vc_reads (body : value) (s : MemStorage) :
  snd (post_verify_vc body s) = s.
Proof.
  unfold post_verify_vc.
  destruct (verifyVcSchema body) as [data|issues]; [|reflexivity].
  destruct (negb _); [reflexivity|].
  destruct (getDid s _); [|reflexivity].
  now destruct (outcome_of _).
Qed.

Lemma post_issue_vc_keeps_dids (body : value) (now uuid createdAt : string)
  (s : MemStorage) :
  dids (snd (post_issue_vc body now uuid createdAt s)) = dids s.
Proof.
  unfold post_issue_vc.
  destruct (issueVcSchema body) as [data|issues]; [|reflexivity].
  destruct (getAllDids s) as [|issuer rest]; [reflexivity|].
  destruct (outcome_of _) as [[credential subjectId]|e]; reflexivity.
Qed.

Lemma serve_reachable (r : Request) (s : MemStorage) :
  reachable s -> reachable (snd (serve r s)).
Proof.
  intros Hs. destruct r as [body sk now|d|body now uuid createdAt|body|];
    cbn [serve].
  - unfold post_register.
    destruct (registerDidSchema body) as [data|issues]; [|exact Hs].
    destruct (negb _); [exact Hs|].
    destruct (generateDidKey _ _) as [g|e]; [|exact Hs].
    now apply reachable_createDid.
  - now rewrite get_resolve_reads.
  - unfold post_issue_vc.
    destruct (issueVcSchema body) as [data|issues]; [|exact Hs].
    destruct (getAllDids s) as [|issuer rest]; [exact Hs|].
    destruct (outcome_of _) as [[credential subjectId]|e]; [|exact Hs].
    now apply reachable_createVc.
  - now rewrite post_verify_vc_reads.
  - exact Hs.
Qed.

Lemma serve_all_reachable (rs : list Request) (s : MemStorage) :
  reachable s -> reachable (serve_all rs s).
Proof.
  revert s. induction rs as [|r rs IH]; intros s Hs; cbn [serve_all].
  - exact Hs.
  - apply IH, serve_reachable, Hs.
Qed.

Lemma serve_all_app (rs rs' : list Request) (s : MemStorage) :
  serve_all (rs ++ rs') s = serve_all rs' (serve_all rs s).
Proof.
  revert s. induction rs as [|r rs IH]; intros s; cbn [serve_all app].
  - reflexivity.
  - apply IH.
Qed.

(** X16: A request changes the store only if it is a registration or an issue
    that is answered with status 200: resolving, verifying and the
    statistics leave the store as it was, whatever they answer, and so
    does every request that is answered with an error. *)
Theorem errors_and_reads_store_nothing (r : Request) (s : MemStorage) :
  match r with
  | GetResolve _ | PostVerifyVc _ | GetStats => snd (serve r s) = s
  | PostRegister _ _ _ | PostIssueVc _ _ _ _ =>
      status_of (fst (serve r s)) = 200 \/ snd (serve r s) = s
  end.
Proof.
  destruct r as [body sk now|d|body now uuid createdAt|body|]; cbn [serve].
  - unfold post_register.
    destruct (registerDidSchema body) as [data|issues]; [|now right].
    destruct (negb _); [now right|].
    destruct (generateDidKey _ _) as [g|e]; [|now right].
    now left.
  - apply get_resolve_reads.
  - unfold post_issue_vc.
    destruct (issueVcSchema body) as [data|issues]; [|now right].
    destruct (getAllDids s) as [|issuer rest]; [now right|].
    destruct (outcome_of _) as [[credential subjectId]|e]; [|now right].
    now left.
  - apply post_verify_vc_reads.
  - reflexivity.
Qed.

(** What a registration that succeeds has done. *)
Lemma post_register_registered (body : value) (sk : bytes) (now d pk kt : string)
  (doc : DIDDocument) (s s1 : MemStorage) :
  post_register body sk now s = (Registered d pk doc kt, s1) ->
  exists data g,
    registerDidSchema body = ParseSuccess data
    /\ reg_method data = "did:key"
    /\ kt = reg_keyType data
    /\ generateDidKey kt sk = Returns g
    /\ d = did g /\ pk = publicKeyHex (keyPair g) /\ doc = didDocument g
    /\ s1 = snd (createDid s
                   {| ins_did := did g;
                      ins_method := reg_method data;
                      ins_keyType := kt;
                      ins_publicKey := publicKeyHex (keyPair g);
                      ins_privateKey := privateKeyHex (keyPair g);
                      ins_didDocument := didDocument g |} now).
Proof.
  unfold post_register.
  destruct (registerDidSchema body) as [data|issues]; [|discriminate].
  destruct (String.eqb_spec (reg_method data) "did:key") as [Hm|Hm];
    cbn [negb]; [|discriminate].
  destruct (generateDidKey _ _) as [g|e] eqn:Hg; [|discriminate].
  cbn [createDid fst snd did_did did_publicKey did_didDocument did_keyType
       ins_did ins_publicKey ins_didDocument ins_keyType].
  intros H. inversion H; subst. exists data, g. now repeat split.
Qed.

Hypothesis enums : enums_respected Z.

Lemma serve_registered (r : Request) (s : MemStorage) :
  Forall registered_row (getAllDids s) ->
  Forall registered_row (getAllDids (snd (serve r s))).
Proof.
  intros Hs. destruct r as [body sk now|d|body now uuid createdAt|body|];
    cbn [serve].
  - unfold post_register.
    destruct (registerDidSchema body) as [data|issues] eqn:Hparse; [|exact Hs].
    destruct (String.eqb_spec (reg_method data) "did:key") as [Hm|Hm];
      cbn [negb]; [|exact Hs].
    destruct (generateDidKey _ _) as [g|e] eqn:Hg; [|exact Hs].
    destruct (enums body data Hparse) as [Hkt _].
    apply Forall_forall. intros row Hin.
    unfold getAllDids in Hin. cbn [createDid snd dids] in Hin.
    apply map_values_set in Hin as [-> | Hin].
    + split; [exact Hm|]. split; [exact Hkt|].
      exists sk, g. cbn [did_keyType did_did did_publicKey did_privateKey
                           did_didDocument ins_did ins_keyType ins_publicKey
                           ins_privateKey ins_didDocument].
      now repeat split.
    + revert row Hin. now apply Forall_forall.
  - now rewrite get_resolve_reads.
  - unfold getAllDids. now rewrite post_issue_vc_keeps_dids.
  - now rewrite post_verify_vc_reads.
  - exact Hs.
Qed.

Lemma serve_all_registered (rs : list Request) (s : MemStorage) :
  Forall registered_row (getAllDids s) ->
  Forall registered_row (getAllDids (serve_all rs s)).
Proof.
  revert s. induction rs as [|r rs IH]; intros s Hs; cbn [serve_all].
  - exact Hs.
  - apply IH, serve_registered, Hs.
Qed.

End Routes.

(** X17: Whatever requests the server has answered, every identity in its
    store is a did:key identity of one of the two key types, and its
    identifier, keys and document are those of one run of
    [generateDidKey] for that key type. *)
Theorem stored_identities_are_generated (P : Platform) (Z : Schemas)
  (rs : list Request) :
  enums_respected Z ->
  Forall registered_row (getAllDids (serve_all rs MemStorage_new)).
Proof.
  intros enums. apply serve_all_registered; [exact enums|]. constructor.
Qed.

(** ** Identifiers name one key *)

Lemma append_inj (p a b : string) : (p ++ a = p ++ b)%string -> a = b.
Proof.
  induction p as [|c p IH]; cbn [String.append]; [easy|].
  intros H. injection H as H. now apply IH.
Qed.

Lemma didKey_inj (keyType keyType' : string) (pk pk' : bytes) :
  keyType = "ed25519" \/ keyType = "secp256k1" ->
  keyType' = "ed25519" \/ keyType' = "secp256k1" ->
  didKey keyType pk = didKey keyType' pk' ->
  keyType = keyType' /\ pk = pk'.
Proof.
  intros Hkt Hkt' Hdid. unfold didKey in Hdid.
  apply append_inj in Hdid as Hmb.
  rewrite !publicKeyMultibase_is_encode in Hmb.
  apply (f_equal Base58btc.decode) in Hmb.
  rewrite !base58btc_decode_encode in Hmb. injection Hmb as Hbytes.
  destruct Hkt as [-> | ->], Hkt' as [-> | ->];
    cbn [multicodecPrefix String.eqb Ascii.eqb Bool.eqb app] in Hbytes;
    inversion Hbytes; now split.
Qed.

Section Generated.

Context {P : Platform}.

Lemma generated_fields (keyType : string) (seed : bytes) (g : GeneratedDid) :
  generateDidKey keyType seed = Returns g ->
  publicKeyHex (keyPair g) = Hex.encode (publicKey (keyPair g))
  /\ didDocument g
     = didDocumentFor keyType (did g)
         (publicKeyMultibase keyType (publicKey (keyPair g))).
Proof.
  unfold generateDidKey, generateEd25519KeyPair, generateSecp256k1KeyPair.
  destruct (keyType =? "ed25519")%string.
  - destruct (ed25519_getPublicKey seed) as [pk|e]; intros H; inversion H.
    now split.
  - destruct (secp256k1_getPublicKey seed) as [pk|e]; intros H; inversion H.
    now split.
Qed.

(** Two stored identities with the same identifier have the same key type,
    public key and document. *)
Lemma registered_rows_agree (row row' : Did) :
  registered_row row -> registered_row row' ->
  did_did row = did_did row' ->
  did_keyType row = did_keyType row'
  /\ did_publicKey row = did_publicKey row'
  /\ did_didDocument row = did_didDocument row'.
Proof.
  intros (_ & Hkt & seed & g & Hg & Hd & Hpk & _ & Hdoc)
         (_ & Hkt' & seed' & g' & Hg' & Hd' & Hpk' & _ & Hdoc') Hsame.
  destruct (generated_did _ _ _ Hg) as [Hdid _].
  destruct (generated_did _ _ _ Hg') as [Hdid' _].
  destruct (generated_fields _ _ _ Hg) as [Hhex Hdocument].
  destruct (generated_fields _ _ _ Hg') as [Hhex' Hdocument'].
  assert (Hdids : did g = did g') by congruence.
  rewrite Hdid, Hdid' in Hdids.
  destruct (didKey_inj _ _ _ _ Hkt Hkt' Hdids) as [Hkts Hpks].
  split; [exact Hkts|]. split.
  - rewrite Hpk, Hpk', Hhex, Hhex'. now rewrite Hpks.
  - rewrite Hdoc, Hdoc', Hdocument, Hdocument'.
    rewrite Hdid, Hdid', Hkts, Hpks. reflexivity.
Qed.

End Generated.

(** ** Looking up after later requests *)

Lemma getDid_found (s : MemStorage) (v : value) (row : Did) :
  getDid s v = Some row -> In row (getAllDids s) /\ v = VStr (did_did row).
Proof.
  unfold getDid. intros H. apply find_some in H as [Hin Heq]. split; [exact Hin|].
  destruct v; try discriminate. cbn [strict_eq_string] in Heq.
  apply String.eqb_eq in Heq. now subst.
Qed.

Lemma getDid_first (s : MemStorage) (first : Did) (rest : list Did) :
  getAllDids s = first :: rest ->
  getDid s (VStr (did_did first)) = Some first.
Proof.
  unfold getDid. intros ->. cbn [find strict_eq_string].
  now rewrite String.eqb_refl.
Qed.

Section Later.

Context {P : Platform} {Z : Schemas}.

Lemma getDid_after_issue (body : value) (now uuid createdAt : string)
  (s : MemStorage) (v : value) :
  getDid (snd (post_issue_vc body now uuid createdAt s)) v = getDid s v.
Proof.
  unfold getDid, getAllDids. now rewrite post_issue_vc_keeps_dids.
Qed.

Lemma serve_keeps_found (r : Request) (s : MemStorage) (d : string) (row : Did) :
  reachable s ->
  getDid s (VStr d) = Some row ->
  exists row', getDid (snd (serve r s)) (VStr d) = Some row'.
Proof.
  intros Hs Hrow.
  destruct r as [body sk now|d'|body now uuid createdAt|body|]; cbn [serve].
  - unfold post_register.
    destruct (registerDidSchema body) as [data|issues]; [|now exists row].
    destruct (negb _); [now exists row|].
    destruct (generateDidKey _ _) as [g|e]; [|now exists row].
    cbn [snd].
    destruct (String.eqb_spec d (did g)) as [->|Hne].
    + eexists.
      apply (getDid_created s
               {| ins_did := did g;
                  ins_method := reg_method data;
                  ins_keyType := reg_keyType data;
                  ins_publicKey := publicKeyHex (keyPair g);
                  ins_privateKey := privateKeyHex (keyPair g);
                  ins_didDocument := didDocument g |} now Hs).
    + exists row. rewrite getDid_elsewhere; [exact Hrow | exact Hs |].
      cbn [ins_did]. congruence.
  - rewrite get_resolve_reads. now exists row.
  - rewrite getDid_after_issue. now exists row.
  - rewrite post_verify_vc_reads. now exists row.
  - now exists row.
Qed.

Lemma serve_all_keeps_found (rs : list Request) (s : MemStorage) (d : string)
  (row : Did) :
  reachable s ->
  getDid s (VStr d) = Some row ->
  exists row', getDid (serve_all rs s) (VStr d) = Some row'.
Proof.
  revert s row. induction rs as [|r rs IH]; intros s row Hs Hrow;
    cbn [serve_all].
  - now exists row.
  - destruct (serve_keeps_found r s d row Hs Hrow) as [row' Hrow'].
    apply (IH _ row'); [now apply serve_reachable | exact Hrow'].
Qed.

Hypothesis enums : enums_respected Z.

(** An identity that is stored stays stored under its identifier, with the
    key type, the public key and the document it had. *)
Lemma served_identity_is_stable (rs0 rs : list Request) (d : string) (row : Did) :
  getDid (serve_all rs0 MemStorage_new) (VStr d) = Some row ->
  exists row',
    getDid (serve_all rs (serve_all rs0 MemStorage_new)) (VStr d) = Some row'
    /\ did_keyType row' = did_keyType row
    /\ did_publicKey row' = did_publicKey row
    /\ did_didDocument row' = did_didDocument row.
Proof.
  intros Hrow.
  assert (Hs : reachable (serve_all rs0 MemStorage_new))
    by apply serve_all_reachable, reachable_new.
  destruct (serve_all_keeps_found rs _ d row Hs Hrow) as [row' Hrow'].
  exists row'. split; [exact Hrow'|].
  destruct (getDid_found _ _ _ Hrow) as [Hin Hd].
  destruct (getDid_found _ _ _ Hrow') as [Hin' Hd'].
  assert (Hreg : registered_row row).
  { assert (H : Forall registered_row (getAllDids (serve_all rs0 MemStorage_new))).
    { apply serve_all_registered; [exact enums | constructor]. }
    now apply (proj1 (Forall_forall _ _) H). }
  assert (Hreg' : registered_row row').
  { assert (H : Forall registered_row
                  (getAllDids (serve_all rs (serve_all rs0 MemStorage_new)))).
    { rewrite <- serve_all_app.
      apply serve_all_registered; [exact enums | constructor]. }
    now apply (proj1 (Forall_forall _ _) H). }
  assert (Hsame : did_did row' = did_did row) by congruence.
  destruct (registered_rows_agree row' row Hreg' Hreg Hsame) as (H1 & H2 & H3).
  now repeat split.
Qed.

End Later.

(** X18: What a client was answered on registration is what resolving the
    identifier answers ever after: whatever requests come in between,
    also registrations that give the same identifier again, the document,
    key type and public key are the ones registered. *)
Theorem registered_identity_keeps_resolving (P : Platform) (Z : Schemas)
  (rs0 rs : list Request) (body : value) (sk : bytes) (now d pk kt : string)
  (doc : DIDDocument) (s1 : MemStorage) :
  enums_respected Z ->
  post_register body sk now (serve_all rs0 MemStorage_new)
  = (Registered d pk doc kt, s1) ->
  fst (get_resolve d (serve_all rs s1)) = Resolved doc kt pk.
Proof.
  intros enums Hreg.
  assert (Hs1 : s1 = serve_all (rs0 ++ [PostRegister body sk now]) MemStorage_new).
  { rewrite serve_all_app. cbn [serve_all serve]. now rewrite Hreg. }
  apply post_register_registered in Hreg
    as (data & g & _ & _ & _ & Hg & -> & -> & -> & Hcreated).
  assert (Hrow : exists row, getDid s1 (VStr (did g)) = Some row
                             /\ did_keyType row = kt
                             /\ did_publicKey row = publicKeyHex (keyPair g)
                             /\ did_didDocument row = didDocument g).
  { eexists. split.
    - rewrite Hcreated.
      apply (getDid_created _
               {| ins_did := did g;
                  ins_method := reg_method data;
                  ins_keyType := kt;
                  ins_publicKey := publicKeyHex (keyPair g);
                  ins_privateKey := privateKeyHex (keyPair g);
                  ins_didDocument := didDocument g |} now).
      apply serve_all_reachable, reachable_new.
    - now repeat split. }
  destruct Hrow as (row & Hrow & Hkt & Hpk & Hdoc).
  rewrite Hs1 in Hrow |- *.
  destruct (served_identity_is_stable enums _ rs _ _ Hrow)
    as (row' & Hrow' & Hkt' & Hpk' & Hdoc').
  unfold get_resolve. rewrite Hrow'.
  destruct (generated_did _ _ _ Hg) as [-> _].
  cbn [didKey String.append String.eqb startsWith Ascii.eqb Bool.eqb andb orb
       negb fst].
  congruence.
Qed.

(** ** Issuing through the routes *)

Section IssuedByRoute.

Context {P : Platform} {Z : Schemas}.

(** A credential that was issued is the unsigned credential with a proof
    block; its issuer is the DID it was issued under. *)
Lemma issued_is_signed (now uuid issuerDid subjectDid credentialType : string)
  (claims : object) (privateKey keyType : string) (credential : object) :
  outcome_of
    (issueVerifiableCredential now uuid issuerDid subjectDid credentialType
       claims privateKey keyType) = Returns credential ->
  exists proofType sig,
    credential = signedCredential now uuid issuerDid subjectDid credentialType
                   claims proofType sig.
Proof.
  destruct (String.eqb_spec keyType "ed25519") as [Hkt|Hkt].
  - rewrite issue_ed25519 by exact Hkt. unfold outcome_of. cbn [fst].
    destruct (ed25519_sign _ _) as [sig|e]; [|discriminate].
    intros H. inversion H. now eexists _, _.
  - rewrite issue_secp256k1 by exact Hkt. unfold outcome_of. cbn [fst].
    destruct (secp256k1_sign _ _) as [sig|e]; [|discriminate].
    intros H. inversion H. now eexists _, _.
Qed.

Lemma signed_issuer (now uuid issuerDid subjectDid credentialType : string)
  (claims : object) (proofType : string) (sig : bytes) :
  Obj.get (signedCredential now uuid issuerDid subjectDid credentialType
             claims proofType sig) "issuer" = VStr issuerDid.
Proof. reflexivity. Qed.

(** What an issue request that succeeds has done. *)
Lemma post_issue_vc_issued (body : value) (now uuid createdAt : string)
  (s s1 : MemStorage) (credential : object) (vcId : value) :
  post_issue_vc body now uuid createdAt s = (Issued credential vcId, s1) ->
  exists data issuerRow rest,
    issueVcSchema body = ParseSuccess data
    /\ getAllDids s = issuerRow :: rest
    /\ outcome_of
         (issueVerifiableCredential now uuid (did_did issuerRow)
            (iss_subjectDid data) (iss_credentialType data) (iss_claims data)
            (did_privateKey issuerRow) (did_keyType issuerRow))
       = Returns credential.
Proof.
  unfold post_issue_vc.
  destruct (issueVcSchema body) as [data|issues] eqn:Hparse; [|discriminate].
  destruct (getAllDids s) as [|issuerRow rest] eqn:Hrows; [discriminate|].
  unfold bind at 1.
  destruct (fst (issueVerifiableCredential _ _ _ _ _ _ _ _))
    as [issued|e] eqn:Hissued; [|discriminate].
  unfold bind, lift, ret, outcome_of at 1. cbn [fst].
  destruct (property _ _) as [subjectId|e]; cbn [fst]; [|discriminate].
  intros H. injection H as Hcredential _ _. rewrite Hcredential in Hissued.
  exists data, issuerRow, rest.
  repeat split; first [reflexivity | exact Hissued | exact Hparse].
Qed.

Lemma serve_keeps_first (r : Request) (s : MemStorage) (first : Did)
  (rest : list Did) :
  reachable s ->
  getAllDids s = first :: rest ->
  exists first' rest',
    getAllDids (snd (serve r s)) = first' :: rest'
    /\ did_did first' = did_did first.
Proof.
  intros Hs Hfirst.
  destruct r as [body sk now|d'|body now uuid createdAt|body|]; cbn [serve].
  - unfold post_register.
    destruct (registerDidSchema body) as [data|issues]; [|now exists first, rest].
    destruct (negb _); [now exists first, rest|].
    destruct (generateDidKey _ _) as [g|e]; [|now exists first, rest].
    destruct (reachable_filed s Hs) as [Hrows _].
    unfold getAllDids in *. cbn [createDid snd dids did_did ins_did].
    destruct (dids s) as [|[k row] m]; [discriminate|].
    cbn [JsMap.values map snd] in Hfirst. inversion Hfirst; subst.
    inversion Hrows as [|? ? Hk _]; subst. cbn [snd fst] in Hk.
    cbn [JsMap.set].
    destruct (String.eqb_spec k (did g)) as [Heq|Hne];
      cbn [JsMap.values map snd]; eexists _, _; split; try reflexivity.
    cbn [did_did]. congruence.
  - rewrite get_resolve_reads. now exists first, rest.
  - unfold getAllDids in *. rewrite post_issue_vc_keeps_dids. now exists first, rest.
  - rewrite post_verify_vc_reads. now exists first, rest.
  - now exists first, rest.
Qed.

Lemma serve_all_keeps_first (rs : list Request) (s : MemStorage) (first : Did)
  (rest : list Did) :
  reachable s ->
  getAllDids s = first :: rest ->
  exists first' rest',
    getAllDids (serve_all rs s) = first' :: rest'
    /\ did_did first' = did_did first.
Proof.
  revert s first rest. induction rs as [|r rs IH]; intros s first rest Hs Hfirst;
    cbn [serve_all].
  - now exists first, rest.
  - destruct (serve_keeps_first r s first rest Hs Hfirst)
      as (first' & rest' & Hfirst' & Hdid).
    destruct (IH _ first' rest' (serve_reachable r s Hs) Hfirst')
      as (first'' & rest'' & Hfirst'' & Hdid').
    exists first'', rest''. split; [exact Hfirst''|]. congruence.
Qed.

End IssuedByRoute.

(** X19: Every credential the server issues names as its issuer the identity
    that was registered first: later registrations, also ones that give
    that identifier again, never change who issues. *)
Theorem issuer_is_the_first_identity (P : Platform) (Z : Schemas)
  (rs0 rs : list Request) (first : Did) (rest : list Did) (body : value)
  (now uuid createdAt : string) (credential : object) (vcId : value)
  (s1 : MemStorage) :
  getAllDids (serve_all rs0 MemStorage_new) = first :: rest ->
  post_issue_vc body now uuid createdAt
    (serve_all rs (serve_all rs0 MemStorage_new))
  = (Issued credential vcId, s1) ->
  Obj.get credential "issuer" = VStr (did_did first).
Proof.
  intros Hfirst Hissue.
  assert (Hs : reachable (serve_all rs0 MemStorage_new))
    by apply serve_all_reachable, reachable_new.
  destruct (serve_all_keeps_first rs _ first rest Hs Hfirst)
    as (first' & rest' & Hfirst' & Hdid).
  apply post_issue_vc_issued in Hissue
    as (data & issuerRow & others & _ & Hrows & Hissued).
  rewrite Hfirst' in Hrows. inversion Hrows; subst issuerRow others.
  apply issued_is_signed in Hissued as (proofType & sig & ->).
  rewrite signed_issuer. now rewrite Hdid.
Qed.

(** ** Issued credentials verify through the routes *)

Section EndToEnd.

Context {P : Platform}.

Hypothesis scheme : signature_scheme_correct P.

Lemma issued_under_generated_verifies (keyType : string) (seed : bytes)
  (g : GeneratedDid) (now uuid subjectDid credentialType : string)
  (claims : object) (credential : object) :
  keyType = "ed25519" \/ keyType = "secp256k1" ->
  generateDidKey keyType seed = Returns g ->
  outcome_of
    (issueVerifiableCredential now uuid (did g) subjectDid credentialType
       claims (privateKeyHex (keyPair g)) keyType) = Returns credential ->
  outcome_of
    (verifyVerifiableCredential credential (publicKeyHex (keyPair g)) keyType)
  = Returns
      {| verified := true;
         issuer := VStr (did g);
         subject := if Obj.has claims "id" then Obj.get claims "id"
                    else VStr subjectDid;
         issuanceDate := VStr now;
         errors := None |}.
Proof.
  destruct scheme as [Hed Hec].
  intros Hkt Hgen Hissue.
  apply generated_did in Hgen as (Hdid & Hkp).
  assert (Hne : did g <> "").
  { apply String.eqb_neq. rewrite Hdid. apply didKey_not_empty. }
  destruct Hkt as [-> | ->]; cbn [String.eqb Ascii.eqb Bool.eqb] in Hkp.
  - apply generated_ed25519 in Hkp as (Hpk & _ & Hpkhex & Hskhex).
    rewrite issue_ed25519 in Hissue by reflexivity.
    unfold outcome_of in Hissue. cbn [fst] in Hissue. rewrite Hskhex in Hissue.
    destruct (ed25519_sign _ seed) as [sig|e] eqn:Hsig; [|discriminate].
    inversion Hissue; subst credential.
    apply (verify_signed_ed25519 _ _ _ _ _ _ _ _ true Hne).
    rewrite Hpkhex. now apply (Hed seed).
  - apply generated_secp256k1 in Hkp as (Hpk & _ & Hpkhex & Hskhex).
    rewrite issue_secp256k1 in Hissue by discriminate.
    unfold outcome_of in Hissue. cbn [fst] in Hissue. rewrite Hskhex in Hissue.
    destruct (secp256k1_sign _ seed) as [sig|e] eqn:Hsig; [|discriminate].
    inversion Hissue; subst credential.
    apply (verify_signed_secp256k1 _ _ _ _ _ _ _ _ true Hne).
    rewrite Hpkhex. now apply (Hec seed).
Qed.

End EndToEnd.

(** X20: A credential the server has issued verifies when it is posted back
    unchanged, at once or after any further requests: the answer is a
    verification result with [verified] true and no errors, naming the
    issuer of the credential.  The curve package is taken to be a correct
    signature scheme. *)
Theorem issued_credential_verifies_later (P : Platform) (Z : Schemas)
  (rs0 rs : list Request) (body body' : value) (now uuid createdAt : string)
  (credential : object) (vcId : value) (s1 : MemStorage) :
  signature_scheme_correct P ->
  enums_respected Z ->
  post_issue_vc body now uuid createdAt (serve_all rs0 MemStorage_new)
  = (Issued credential vcId, s1) ->
  verifyVcSchema body' = ParseSuccess {| ver_credential := credential |} ->
  exists result,
    fst (post_verify_vc body' (serve_all rs s1)) = Verification result
    /\ verified result = true
    /\ errors result = None
    /\ issuer result = Obj.get credential "issuer"
    /\ issuanceDate result = VStr now.
Proof.
  intros scheme enums Hissue Hparse.
  assert (Hs1 : s1 = snd (post_issue_vc body now uuid createdAt
                            (serve_all rs0 MemStorage_new)))
    by now rewrite Hissue.
  apply post_issue_vc_issued in Hissue
    as (data & issuerRow & others & _ & Hrows & Hissued).
  assert (Hinv : Forall registered_row
                   (getAllDids (serve_all rs0 MemStorage_new))).
  { apply serve_all_registered; [exact enums | constructor]. }
  rewrite Hrows in Hinv. apply Forall_inv in Hinv as Hreg.
  destruct Hreg as (_ & Hkt & seed & g & Hg & Hd & Hpk & Hsk & _).
  rewrite Hd, Hsk in Hissued.
  pose proof (issued_under_generated_verifies scheme _ _ _ _ _ _ _ _ _
                Hkt Hg Hissued) as Hverified.
  apply issued_is_signed in Hissued as (proofType & sig & Hsigned).
  assert (Hissuer : Obj.get credential "issuer" = VStr (did g)).
  { rewrite Hsigned. apply signed_issuer. }
  pose proof (getDid_first _ _ _ Hrows) as Hfound. rewrite Hd in Hfound.
  assert (Hlater : serve_all rs
                     (snd (post_issue_vc body now uuid createdAt
                             (serve_all rs0 MemStorage_new)))
                   = serve_all ([PostIssueVc body now uuid createdAt] ++ rs)
                       (serve_all rs0 MemStorage_new)) by reflexivity.
  rewrite Hs1, Hlater.
  destruct (served_identity_is_stable enums rs0
              ([PostIssueVc body now uuid createdAt] ++ rs) _ _ Hfound)
    as (row' & Hrow' & Hkt' & Hpk' & _).
  unfold post_verify_vc. rewrite Hparse. cbn [ver_credential].
  rewrite Hissuer.
  destruct (generated_did _ _ _ Hg) as [Hdid _].
  assert (Htruthy : truthy (VStr (did g)) = true).
  { cbn [truthy]. rewrite Hdid. now rewrite didKey_not_empty. }
  rewrite Htruthy. cbn [negb]. rewrite Hrow', Hpk', Hkt', Hpk, Hverified.
  eexists. split; [reflexivity|]. now repeat split.
Qed.

(** ** The routes on sample requests *)

Lemma sample_enums : enums_respected Sample.schemas.
Proof.
  intros body data. cbn [registerDidSchema Sample.schemas].
  unfold Sample.parseRegister.
  destruct body as [| | | | | |o]; try discriminate.
  unfold Sample.parse_enum.
  destruct (Obj.get o "keyType") as [| | | |keyType| |]; try discriminate;
    destruct (Obj.get o "method") as [| | | |method| |]; try discriminate;
    cbn [existsb];
    repeat match goal with
           | |- context [(?a =? ?b)%string] =>
               destruct (String.eqb_spec a b)
           end;
    cbn [orb]; try discriminate;
    intros H; inversion H; cbn [reg_keyType reg_method]; subst; auto.
Qed.

Lemma stored_identities_are_generated_witness :
  enums_respected Sample.schemas
  /\ Forall (@registered_row Mock.platform)
       (getAllDids
          (@serve_all Mock.platform Sample.schemas
             (Sample.requests ++ Sample.laterRequests) MemStorage_new)).
Proof.
  split; [exact sample_enums|].
  exact (stored_identities_are_generated Mock.platform Sample.schemas
           (Sample.requests ++ Sample.laterRequests) sample_enums).
Defined.

Lemma registered_identity_keeps_resolving_witness :
  enums_respected Sample.schemas
  /\ fst (get_resolve (did Mock.registered)
            (@serve_all Mock.platform Sample.schemas Sample.laterRequests
               (snd (@post_register Mock.platform Sample.schemas
                       Sample.registerBody Mock.seed Mock.now MemStorage_new))))
     = Resolved (didDocument Mock.registered) "ed25519"
         (publicKeyHex (keyPair Mock.registered)).
Proof.
  split; [exact sample_enums|].
  apply (registered_identity_keeps_resolving Mock.platform Sample.schemas []
           Sample.laterRequests Sample.registerBody Mock.seed Mock.now
           (did Mock.registered) (publicKeyHex (keyPair Mock.registered))
           "ed25519" (didDocument Mock.registered) _ sample_enums).
  vm_compute. reflexivity.
Defined.

Lemma issuer_is_the_first_identity_witness :
  (exists rest,
      getAllDids (@serve_all Mock.platform Sample.schemas Sample.requests
                    MemStorage_new)
      = fst (createDid MemStorage_new Sample.row Mock.now) :: rest)
  /\ Obj.get Mock.credential "issuer" = VStr (did Mock.registered).
Proof.
  split; [exists []; vm_compute; reflexivity|].
  apply (issuer_is_the_first_identity Mock.platform Sample.schemas
           Sample.requests Sample.laterRequests
           (fst (createDid MemStorage_new Sample.row Mock.now)) []
           Sample.issueBody Mock.now Mock.uuid "later"
           Mock.credential (Obj.get Mock.credential "id")
           (snd (@post_issue_vc Mock.platform Sample.schemas Sample.issueBody
                   Mock.now Mock.uuid "later"
                   (@serve_all Mock.platform Sample.schemas
                      Sample.laterRequests
                      (@serve_all Mock.platform Sample.schemas
                         Sample.requests MemStorage_new))))).
  - vm_compute. reflexivity.
  - vm_compute. reflexivity.
Defined.

Lemma issued_credential_verifies_later_witness :
  signature_scheme_correct Mock.platform
  /\ enums_respected Sample.schemas
  /\ exists result,
       fst (@post_verify_vc Mock.platform Sample.schemas Sample.postedBack
              (@serve_all Mock.platform Sample.schemas Sample.laterRequests
                 (snd (@post_issue_vc Mock.platform Sample.schemas
                         Sample.issueBody Mock.now Mock.uuid "later"
                         (@serve_all Mock.platform Sample.schemas
                            Sample.requests MemStorage_new)))))
       = Verification result
       /\ verified result = true
       /\ errors result = None
       /\ issuer result = Obj.get Mock.credential "issuer"
       /\ issuanceDate result = VStr Mock.now.
Proof.
  split; [exact mock_scheme_correct|]. split; [exact sample_enums|].
  apply (issued_credential_verifies_later Mock.platform Sample.schemas
           Sample.requests Sample.laterRequests Sample.issueBody
           Sample.postedBack Mock.now Mock.uuid "later" Mock.credential
           (Obj.get Mock.credential "id") _ mock_scheme_correct sample_enums).
  - vm_compute. reflexivity.
  - reflexivity.
Defined.
